(** * Fairness-aware classifier optimisation: the evaluation harness

    A shallow embedding of the experiment scripts
    [setting_D/fal_model.py], [setting_D/frf_model.py] and
    [trad_setting_E/adult_lr_model.py]: the preprocessing classes
    ([MissIndicator], [Clamper]), the fairness metric
    ([strong_demographic_parity_score]), the cross-validated objective
    evaluator ([cross_val_score_custom]) and the search driver
    ([best_model], [objective]).

    Conventions of the embedding.
    - A Python float is a rational number ([Q]); rounding is not modelled.
      Where the source tests for them (predicted probabilities), the
      non-finite floats are part of the type ([pyfloat]).
    - A Python exception is the [Error] case of [result].
    - A pandas frame carries its index labels explicitly, since the source
      selects rows by label. *)

From Stdlib Require Import QArith Qabs Qround Qpower Lqa.
From stdpp Require Import base option list sorting gmap strings pretty.

Local Open Scope Q_scope.

(** ** Exceptions and results *)

(** The exception classes that the scripts can raise; [NotFittedError] is
    scikit-learn's, for an estimator used before it is fitted. *)
Inductive exn : Type :=
  | ValueError
  | TypeError
  | KeyError
  | IndexError
  | AttributeError
  | ZeroDivisionError
  | NotFittedError.

Inductive result (A : Type) : Type :=
  | Ok (a : A)
  | Error (e : exn).
Arguments Ok {A} a.
Arguments Error {A} e.

#[global] Instance result_ret : MRet result := fun A a => Ok a.
#[global] Instance result_bind : MBind result := fun A B f m =>
  match m with
  | Ok a => f a
  | Error e => Error e
  end.
#[global] Instance result_fmap : FMap result := fun A B f m =>
  match m with
  | Ok a => Ok (f a)
  | Error e => Error e
  end.

#[global] Instance exn_eq_dec : EqDecision exn.
Proof. solve_decision. Defined.

(** ** Floats *)

(** A float that may be non-finite: what a classifier can hand back as a
    predicted probability. *)
Inductive pyfloat : Type :=
  | Fin (q : Q)
  | PInf
  | NInf
  | NaN.

(** [math.isfinite] *)
Definition isfinite (x : pyfloat) : bool :=
  match x with Fin _ => true | _ => false end.

(** The finite values of an array, or [None] when one entry is not finite. *)
Fixpoint finite_values (xs : list pyfloat) : option (list Q) :=
  match xs with
  | [] => Some []
  | Fin q :: xs' => cons q <$> finite_values xs'
  | _ :: _ => None
  end.

Definition Qltb (a b : Q) : bool := negb (Qle_bool b a).

Definition Qsum (l : list Q) : Q := foldr Qplus 0 l.

Definition Q_of_nat (n : nat) : Q := inject_Z (Z.of_nat n).

(** ** numpy *)

Module np.

(** [np.argmin] on a one-dimensional array of finite floats: the index of
    the first occurrence of the minimum; an empty array is a
    [ValueError]. *)
Fixpoint argmin_from (best_i : nat) (best : Q) (i : nat) (l : list Q) : nat :=
  match l with
  | [] => best_i
  | x :: l' =>
      if Qltb x best then argmin_from i x (S i) l'
      else argmin_from best_i best (S i) l'
  end.

Definition argmin (l : list Q) : result nat :=
  match l with
  | [] => Error ValueError
  | x :: l' => Ok (argmin_from 0%nat x 1%nat l')
  end.

(** [np.nanmean] of an array of finite floats. The array is never empty
    where the scripts call it (one entry per fold, and the splitter
    yields at least two folds); numpy's [nan] for the empty array is not
    represented. *)
Definition nanmean (l : list Q) : Q := Qsum l / Q_of_nat (length l).

(** [np.unique] on integer labels: the sorted distinct values. *)
Fixpoint insert_unique (x : Z) (l : list Z) : list Z :=
  match l with
  | [] => [x]
  | y :: l' =>
      if (x <? y)%Z then x :: y :: l'
      else if (x =? y)%Z then y :: l'
      else y :: insert_unique x l'
  end.

Definition unique (l : list Z) : list Z := foldr insert_unique [] l.

End np.

(** ** hyperopt trial log *)

(** [hyperopt.base.STATUS_STRINGS] *)
Inductive status : Type :=
  | STATUS_NEW
  | STATUS_RUNNING
  | STATUS_SUSPENDED
  | STATUS_OK
  | STATUS_FAIL.

#[global] Instance status_eq_dec : EqDecision status.
Proof. solve_decision. Defined.

(** The [result] entry of a trial document, with the keys the scripts'
    [objective] puts there. *)
Record Trial (M : Type) : Type := mkTrial {
  loss : Q;
  trial_status : status;
  trained_model : M;
}.
Arguments mkTrial {M} _ _ _.
Arguments loss {M} _.
Arguments trial_status {M} _.
Arguments trained_model {M} _.

(** [best_model], identical in the three scripts. *)
Definition best_model {M} (trials : list (Trial M)) : result M :=
  let valid_trial_list :=
    filter (fun trial => STATUS_OK = trial_status trial) trials in
  let losses := loss <$> valid_trial_list in
  index_having_minumum_loss ← np.argmin losses;
  match valid_trial_list !! index_having_minumum_loss with
  | Some best_trial_obj => Ok (trained_model best_trial_obj)
  | None => Error IndexError
  end.

(** The trial log of the specification's example: losses 0.3, -0.1, 0.5. *)
Definition example_trials : list (Trial string) :=
  [ mkTrial (3 # 10) STATUS_OK "model0";
    mkTrial (- (1 # 10)) STATUS_OK "model1";
    mkTrial (5 # 10) STATUS_OK "model2" ].


(** ** pandas *)

Module pd.

(** A cell of a categorical column: a category, or [None] for NaN. *)
Definition cell : Type := option string.

(** A data frame of categorical columns: the labelled columns in order.
    Column labels are distinct in a well-formed frame. *)
Definition table : Type := list (string * list cell).

Fixpoint tally_add (v : string) (acc : list (string * positive))
  : list (string * positive) :=
  match acc with
  | [] => [(v, 1%positive)]
  | (w, c) :: acc' =>
      if decide (v = w) then (w, Pos.succ c) :: acc'
      else (w, c) :: tally_add v acc'
  end.

Fixpoint insert_by_count (e : string * positive)
    (l : list (string * positive)) : list (string * positive) :=
  match l with
  | [] => [e]
  | e' :: l' =>
      if (e'.2 <=? e.2)%positive then e :: e' :: l'
      else e' :: insert_by_count e l'
  end.

(** [Series.value_counts()]: the distinct non-null values with their
    number of occurrences, most frequent first (values with equal counts
    in order of first appearance). *)
Definition value_counts (col : list cell) : list (string * positive) :=
  foldr insert_by_count []
    (foldl (fun acc v => tally_add v acc) [] (omap id col)).

(** [Series.isin(values)] on one cell; NaN is in no list of categories. *)
Definition isin (values : list string) (v : cell) : bool :=
  match v with
  | Some s => bool_decide (s ∈ values)
  | None => false
  end.

(** A frame or series with its index: the rows in order, each with its
    index label. Selecting rows with a boolean mask keeps the labels. *)
Definition frame (A : Type) : Type := list (nat * A).

(** [X[X.index.isin(idx)]]: the rows whose index label is a member of
    [idx]. *)
Definition rows_isin {A} (X : frame A) (idx : list nat) : frame A :=
  filter (fun r => r.1 ∈ idx) X.

(** The frame after [reset_index(drop=True)]: labels 0, 1, 2, ... *)
Definition reset_index {A} (rows : list A) : frame A :=
  zip (seq 0 (length rows)) rows.

End pd.

(** ** scikit-learn: the stratified K-fold splitter *)

Module model_selection.

Section StratifiedKFold.

(** The assignment of a test fold number to every sample, stratified on
    the class labels and shuffled under the fixed [random_state]; it
    may reject the labels. The splitter's arithmetic around it is
    modelled below. *)
Variable make_test_folds : nat -> list string -> result (list nat).

(** [StratifiedKFold(n_splits, shuffle=True, random_state).split(X, y)]:
    fold [i] tests the positions assigned to [i] and trains on all the
    other positions. Fewer than two splits, or more splits than
    samples, are a [ValueError]. *)
Definition split (n_splits : nat) (n_samples : nat) (y : list string)
  : result (list (list nat * list nat)) :=
  if decide (n_splits < 2)%nat then Error ValueError
  else if decide (n_samples < n_splits)%nat then Error ValueError
  else
    test_folds ← make_test_folds n_splits y;
    let indices := seq 0 n_samples in
    Ok ((fun i =>
           (filter (fun p => test_folds !! p <> Some i) indices,
            filter (fun p => test_folds !! p = Some i) indices))
          <$> seq 0 n_splits).

End StratifiedKFold.

(** An assignment for the examples: position [p] is tested in fold
    [p mod n_splits]. *)
Definition round_robin (n_splits : nat) (y : list string)
  : result (list nat) :=
  Ok ((fun p => p mod n_splits)%nat <$> seq 0 (length y)).

End model_selection.

(** ** Double precision

    A finite float64 is a rational number, and every arithmetic operation
    of numpy and Python on float64 returns the exact result rounded to the
    nearest float64, a tie going to the even significand (IEEE 754
    binary64: 53 significant bits, and below [2^-1022] the fixed spacing
    [2^-1074] of the subnormal numbers). The quantities computed below are
    bounded by the number of rows of a table, far from the overflow
    threshold, which is not represented. *)

Module float64.

(** [2^k] for any integer [k]. *)
Definition pow2 (k : Z) : Q := 2 ^ k.

(** Half the spacing of the float64 numbers between 1 and 2. *)
Definition unit_roundoff : Q := pow2 (-53).

(** [floor(log2(q))] for a positive [q]: the difference of the bit lengths
    of numerator and denominator, or one less. *)
Definition ilog2 (q : Q) : Z :=
  let e := (Z.log2 (Qnum q) - Z.log2 (Zpos (Qden q)))%Z in
  if Qle_bool (pow2 e) q then e else (e - 1)%Z.

(** The nearest integer, a tie going to the even one. *)
Definition round_half_even (m : Q) : Z :=
  let f := Qfloor m in
  let r := m - inject_Z f in
  if Qltb (1 # 2) r then (f + 1)%Z
  else if Qle_bool (1 # 2) r then (if Z.even f then f else (f + 1)%Z)
  else f.

(** The nearest float64. *)
Definition round (q : Q) : Q :=
  if Qeq_bool q 0 then 0
  else
    let a := Qabs q in
    let e := Z.max (ilog2 a) (-1022) in
    let ulp := pow2 (e - 52) in
    let n := round_half_even (a / ulp) in
    if Qltb q 0 then - (inject_Z n * ulp) else inject_Z n * ulp.

(** The conversion of an integer, and the operations the Clamper uses. *)
Definition of_int (z : Z) : Q := round (inject_Z z).
Definition div (a b : Q) : Q := round (a / b).
Definition sub (a b : Q) : Q := round (a - b).

End float64.

(** ** Preprocessing: the Clamper *)

Module Clamper.

(** The state of a [Clamper] object. *)
Record t : Type := mk {
  is_fit : bool;
  values_to_keep : gmap string (list string);
}.

Definition __init__ : t := mk false ∅.

(** [sum(counts)], an integer. *)
Definition sum_counts (counts : list Z) : Z := foldr Z.add 0%Z counts.

(** [counts / sum(counts)]: the integer counts and their sum are converted
    to float64 and divided there, entry by entry. *)
Definition count_p (value_counts : list (string * positive)) : list Q :=
  let counts := Zpos <$> value_counts.*2 in
  (fun c => float64.div (float64.of_int c)
                        (float64.of_int (sum_counts counts))) <$> counts.

(** [1/len(values)], the quotient of two Python integers, is the float64
    nearest to the exact quotient, and a [ZeroDivisionError] on an empty
    value count; [count_p - min_p_increase] is a float64 subtraction and
    [abs] is exact. *)
Definition _get_values_to_keep_from_value_counts
    (value_counts : list (string * positive)) : result (list string) :=
  let values := value_counts.*1 in
  let count_p := count_p value_counts in
  if decide (length values = 0%nat) then Error ZeroDivisionError
  else
    let min_p_increase := float64.round (1 / Q_of_nat (length values)) in
    index_to_keep ←
      np.argmin ((fun p => Qabs (float64.sub p min_p_increase)) <$> count_p);
    Ok (take index_to_keep values).

(** The assignment of "other" under the mask
    [~(transformed_X[column].isin(keep))]. *)
Definition clamp_cells (keep : list string) (cells : list pd.cell)
  : list pd.cell :=
  (fun v => if pd.isin keep v then v else Some "other") <$> cells.

(** The same statement with [keep] read from [self.values_to_keep[column]];
    a column that was never fitted is a [KeyError]. *)
Definition clamp_column (self : t) (column : string)
    (cells : list pd.cell) : result (list pd.cell) :=
  match values_to_keep self !! column with
  | Some keep => Ok (clamp_cells keep cells)
  | None => Error KeyError
  end.

(** [self.values_to_keep[column] = keep] *)
Definition set_values_to_keep (self : t) (column : string)
    (keep : list string) : t :=
  mk (is_fit self) (<[column := keep]> (values_to_keep self)).

(** [self.is_fit = True] *)
Definition set_is_fit (self : t) : t :=
  mk true (values_to_keep self).

(** The column loop of [fit_transform]. The object is mutated as the loop
    goes, so an exception leaves the state reached so far. *)
Fixpoint fit_transform_columns (self : t) (X : pd.table)
  : t * result pd.table :=
  match X with
  | [] => (self, Ok [])
  | (column, cells) :: X' =>
      match _get_values_to_keep_from_value_counts (pd.value_counts cells) with
      | Error e => (self, Error e)
      | Ok keep =>
          let self := set_values_to_keep self column keep in
          match clamp_column self column cells with
          | Error e => (self, Error e)
          | Ok cells' =>
              let '(self, rest) := fit_transform_columns self X' in
              (self, cons (column, cells') <$> rest)
          end
      end
  end.

Definition fit_transform (self : t) (X : pd.table) : t * result pd.table :=
  match fit_transform_columns self X with
  | (self, Ok transformed_X) => (set_is_fit self, Ok transformed_X)
  | (self, Error e) => (self, Error e)
  end.

(** The column loop of [fit]. *)
Fixpoint fit_columns (self : t) (X : pd.table) : t * result unit :=
  match X with
  | [] => (self, Ok ())
  | (column, cells) :: X' =>
      match _get_values_to_keep_from_value_counts (pd.value_counts cells) with
      | Error e => (self, Error e)
      | Ok keep => fit_columns (set_values_to_keep self column keep) X'
      end
  end.

Definition fit (self : t) (X : pd.table) : t * result unit :=
  match fit_columns self X with
  | (self, Ok _) => (set_is_fit self, Ok ())
  | (self, Error e) => (self, Error e)
  end.

(** [transform] reads the fitted state and leaves it as it is. *)
Fixpoint transform (self : t) (X : pd.table) : result pd.table :=
  match X with
  | [] => Ok []
  | (column, cells) :: X' =>
      cells' ← clamp_column self column cells;
      rest ← transform self X';
      Ok ((column, cells') :: rest)
  end.

(** [fit] followed by [transform] on the same table. *)
Definition fit_then_transform (self : t) (X : pd.table)
  : t * result pd.table :=
  match fit self X with
  | (self, Ok _) => (self, transform self X)
  | (self, Error e) => (self, Error e)
  end.

End Clamper.

(** *** The specification's wording of the retained prefix *)

(** The relative frequencies of the categories, in exact arithmetic. *)
Definition exact_frequencies (value_counts : list (string * positive))
  : list Q :=
  let counts := Zpos <$> value_counts.*2 in
  (fun c => inject_Z c / inject_Z (Clamper.sum_counts counts)) <$> counts.

(** Their distances from 1/(number of categories), in exact arithmetic. *)
Definition exact_distances (value_counts : list (string * positive))
  : list Q :=
  (fun p => Qabs (p - 1 / Q_of_nat (length value_counts)))
    <$> exact_frequencies value_counts.

(** Cumulative reading: the shortest prefix of the frequency-ranked
    categories whose accumulated probability reaches the threshold. *)
Fixpoint crossing_cumulative (threshold acc : Q) (ps : list Q) : nat :=
  if Qle_bool threshold acc then 0%nat
  else match ps with
       | [] => 0%nat
       | p :: ps' => S (crossing_cumulative threshold (acc + p) ps')
       end.

(** Marginal reading: the prefix ends where the probability added by the
    next category falls below the threshold. *)
Fixpoint crossing_marginal (threshold : Q) (ps : list Q) : nat :=
  match ps with
  | [] => 0%nat
  | p :: ps' =>
      if Qltb p threshold then 0%nat
      else S (crossing_marginal threshold ps')
  end.

Definition spec_values_to_keep_cumulative
    (value_counts : list (string * positive)) : list string :=
  take (crossing_cumulative (1 / Q_of_nat (length value_counts)) 0
          (exact_frequencies value_counts))
       value_counts.*1.

Definition spec_values_to_keep_marginal
    (value_counts : list (string * positive)) : list string :=
  take (crossing_marginal (1 / Q_of_nat (length value_counts))
          (exact_frequencies value_counts))
       value_counts.*1.

(** A column with categories of frequencies 3/8, 3/8, 1/8, 1/8. *)
Definition example_column : list pd.cell :=
  [Some "a"; Some "b"; Some "a"; Some "c"; Some "b"; Some "a"; Some "d";
   Some "b"].

(** A one-column table over [example_column]. *)
Definition example_table : pd.table := [("vessel_type", example_column)].

(** A column with two categories of frequencies 4/5 and 1/5, both at the
    exact distance 3/10 from the threshold 1/2. *)
Definition tied_column : list pd.cell :=
  [Some "a"; Some "a"; Some "b"; Some "a"; Some "a"].

(** ** scikit-learn: the ROC AUC *)

Module sklearn.

(** Twice the credit of one positive score against the negative ones:
    2 for each negative ranked strictly below it, 1 for each tie. *)
Fixpoint credit2 (p : Q) (negs : list Q) : Z :=
  match negs with
  | [] => 0
  | n :: negs' =>
      ((if Qltb n p then 2 else if Qltb p n then 0 else 1)
       + credit2 p negs')%Z
  end.

Fixpoint concordance2 (poss negs : list Q) : Z :=
  match poss with
  | [] => 0
  | p :: poss' => (credit2 p negs + concordance2 poss' negs)%Z
  end.

(** The scores of the samples carrying a given label. *)
Definition scores_of (label : Z) (y_true : list Z) (scores : list Q)
  : list Q :=
  snd <$> filter (fun ys => ys.1 = label) (zip y_true scores).

(** [roc_auc_score(y_true, y_score)] for binary labels: the area under the
    ROC curve, which is the share of (positive, negative) pairs ranked in
    the right order, a tie counting for one half. The greater of the two
    labels is the positive one. Arrays of different lengths, a non-finite
    score, and a [y_true] that does not hold exactly two classes are all
    rejected with a [ValueError]. *)
Definition roc_auc_score (y_true : list Z) (y_score : list pyfloat)
  : result Q :=
  if decide (length y_true = length y_score) then
    match finite_values y_score with
    | None => Error ValueError
    | Some scores =>
        match np.unique y_true with
        | [neg_label; pos_label] =>
            let poss := scores_of pos_label y_true scores in
            let negs := scores_of neg_label y_true scores in
            let n_pairs := (Z.of_nat (length poss) * Z.of_nat (length negs))%Z in
            Ok (inject_Z (concordance2 poss negs) / inject_Z (2 * n_pairs))
        | _ => Error ValueError
        end
    end
  else Error ValueError.

End sklearn.

(** ** Python values and operators *)

(** What [strong_demographic_parity_score] computes with: a float, or a
    Python list of floats. *)
Inductive pyvalue : Type :=
  | PyNum (x : Q)
  | PyList (xs : list Q).

(** [max(a, b)]: the first argument unless the second is greater. *)
Definition py_max (a b : Q) : Q := if Qltb a b then b else a.

(** [n * v] for an int [n]: a product for a number, [n] copies in a row
    for a list. *)
Definition py_int_mul (n : nat) (v : pyvalue) : pyvalue :=
  match v with
  | PyNum x => PyNum (Q_of_nat n * x)
  | PyList xs => PyList (mjoin (replicate n xs))
  end.

(** [v - n] for an int [n]; a list has no subtraction. *)
Definition py_sub_int (v : pyvalue) (n : nat) : result pyvalue :=
  match v with
  | PyNum x => Ok (PyNum (x - Q_of_nat n))
  | PyList _ => Error TypeError
  end.

(** [abs(v)]; a list has no absolute value. *)
Definition py_abs (v : pyvalue) : result pyvalue :=
  match v with
  | PyNum x => Ok (PyNum (Qabs x))
  | PyList _ => Error TypeError
  end.

(** ** Fairness metric: strong demographic parity *)

(** The protected attributes as passed in: a one-dimensional array, or a
    two-dimensional one given by its columns [s[:, 0]], [s[:, 1]], ... *)
Inductive sensitive : Type :=
  | Array1D (values : list Z)
  | Array2D (columns : list (list Z)).

(** [s = s.reshape(-1,1)] when [s] has one dimension. *)
Definition as_columns (s : sensitive) : list (list Z) :=
  match s with
  | Array1D values => [values]
  | Array2D columns => columns
  end.

(** The loop over [np.unique(s[:, s_column])]. *)
Fixpoint sens_auc_loop (sens_auc : Q) (column : list Z)
    (y_prob : list pyfloat) (uniques : list Z) : result Q :=
  match uniques with
  | [] => Ok sens_auc
  | s_unique :: uniques' =>
      let s_bool := (fun v => Z.b2z (v =? s_unique)%Z) <$> column in
      auc ← sklearn.roc_auc_score s_bool y_prob;
      let auc := py_max (1 - auc) auc in
      sens_auc_loop (py_max sens_auc auc) column y_prob uniques'
  end.

(** The body of the loop over the columns: the entry appended to
    [sensitive_aucs]. *)
Definition column_auc (column : list Z) (y_prob : list pyfloat) : result Q :=
  if decide (length (np.unique column) = 1%nat) then Ok 1
  else sens_auc_loop 0 column y_prob (np.unique column).

Fixpoint sensitive_aucs_loop (columns : list (list Z))
    (y_prob : list pyfloat) : result (list Q) :=
  match columns with
  | [] => Ok []
  | column :: columns' =>
      auc ← column_auc column y_prob;
      aucs ← sensitive_aucs_loop columns' y_prob;
      Ok (auc :: aucs)
  end.

(** [strong_demographic_parity_score(s, y_prob)] *)
Definition strong_demographic_parity_score (s : sensitive)
    (y_prob : list pyfloat) : result pyvalue :=
  sensitive_aucs ← sensitive_aucs_loop (as_columns s) y_prob;
  let s_auc :=
    match sensitive_aucs with
    | [x] => PyNum x
    | _ => PyList sensitive_aucs
    end in
  d ← py_sub_int (py_int_mul 2 s_auc) 1;
  py_abs d.

(** Two protected columns over two samples. *)
Definition example_two_columns : sensitive := Array2D [[0; 1]; [1; 0]]%Z.
Definition example_y_prob : list pyfloat := [Fin (2 # 10); Fin (8 # 10)].

(** ** The cross-validated objective evaluator and the search objective *)

(** [y.astype(str) + s.astype(str)]: the stratification key of every row. *)
Definition splitter_labels (y s : list Z) : list string :=
  zip_with (fun a b => pretty a +:+ pretty b) y s.

(** [Z] values of a frame, in row order. *)
Definition values {A} (X : pd.frame A) : list A := X.*2.

(** Number of folds of the outer split, and the default of the inner one. *)
Definition K : nat := 10.

(** *** Fair adversarial learning ([setting_D/fal_model.py]) *)

Module fal.

(** The hyperparameters of one trial. *)
Record params : Type := mkParams {
  adversary_loss_weight : Q;
  num_epochs : nat;
  batch_size : nat;
  classifier_num_hidden_units : nat;
}.

(** The globals that [objective] reads. *)
Record globals (row : Type) : Type := mkGlobals {
  X_train_df : pd.frame row;
  y_train_df : pd.frame Z;
  theta : Q;
}.
Arguments mkGlobals {row} _ _ _.
Arguments X_train_df {row} _.
Arguments y_train_df {row} _.
Arguments theta {row} _.

Section Script.

Context {row : Type}.

(** [X[sensitive_col]] of one row, as an integer. *)
Variable sensitive_col : row -> Z.

Variable make_test_folds : nat -> list string -> result (list nat).

(** The classifier family, an external collaborator: drop the protected
    column, fit the column transformer on the training rows and apply
    it to both partitions, build [AdversarialDebiasing] from the
    parameters and [s_train], fit it, and return
    [predict_proba(X_test).T[1]]. *)
Variable AdversarialDebiasing_predict_proba :
  params -> pd.frame row -> list Z -> pd.frame Z -> pd.frame row ->
  result (list pyfloat).

(** The end of the loop body: what one fold appends to
    [auc_perf_list] and to [auc_fair_list]. *)
Definition fold_scores (y_true s_test : list Z)
    (y_pred_probs : list pyfloat) : result (Q * Q) :=
  let nan_inf_error_list := isfinite <$> y_pred_probs in
  if bool_decide (false ∈ nan_inf_error_list) then
    Ok (5 # 10, 5 # 10)
  else
    perf ← sklearn.roc_auc_score y_true y_pred_probs;
    fair ← sklearn.roc_auc_score s_test y_pred_probs;
    Ok (perf, (5 # 10) + Qabs ((5 # 10) - fair)).

(** The predicted probabilities of one fold. *)
Definition fold_predictions (p : params) (X : pd.frame row)
    (y : pd.frame Z) (fold : list nat * list nat)
  : result (list pyfloat) :=
  let '(trainset, testset) := fold in
  let X_train := pd.rows_isin X trainset in
  let y_train := pd.rows_isin y trainset in
  let X_test := pd.rows_isin X testset in
  let s_train := sensitive_col <$> values X_train in
  AdversarialDebiasing_predict_proba p X_train s_train y_train X_test.

(** The loop over the folds. *)
Fixpoint cv_loop (p : params) (X : pd.frame row) (y : pd.frame Z)
    (folds : list (list nat * list nat))
    (auc_perf_list auc_fair_list : list Q) : result (list Q * list Q) :=
  match folds with
  | [] => Ok (auc_perf_list, auc_fair_list)
  | fold :: folds' =>
      let X_test := pd.rows_isin X fold.2 in
      let y_test := pd.rows_isin y fold.2 in
      let s_test := sensitive_col <$> values X_test in
      y_pred_probs ← fold_predictions p X y fold;
      '(perf, fair) ← fold_scores (values y_test) s_test y_pred_probs;
      cv_loop p X y folds' (auc_perf_list ++ [perf])
              (auc_fair_list ++ [fair])
  end.

(** [cross_val_score_custom(params, X, y, cv)] *)
Definition cross_val_score_custom (p : params) (X : pd.frame row)
    (y : pd.frame Z) (cv : nat) : result (Q * Q) :=
  let s := sensitive_col <$> values X in
  let splitter_y := splitter_labels (values y) s in
  folds ← model_selection.split make_test_folds cv (length X) splitter_y;
  '(auc_perf_list, auc_fair_list) ← cv_loop p X y folds [] [];
  Ok (np.nanmean auc_perf_list, np.nanmean auc_fair_list).

(** [objective(params)] *)
Definition objective (g : globals row) (p : params)
  : result (Trial params) :=
  '(roc_auc_y, roc_auc_s) ←
    cross_val_score_custom p (X_train_df g) (y_train_df g) 10;
  let goal := (1 - theta g) * roc_auc_y - theta g * roc_auc_s in
  Ok (mkTrial (- goal) STATUS_OK p).

End Script.

End fal.

(** *** Fair random forest ([setting_D/frf_model.py]) *)

Module frf.

(** The hyperparameters of one trial; [theta] is one of them. *)
Record params : Type := mkParams {
  theta : Q;
  n_bins : nat;
  bootstrap : bool;
  max_depth : nat;
  max_features : Q;
  n_estimators : nat;
  min_samples_leaf : nat;
  min_samples_split : nat;
}.

(** The estimator object, as built by its constructor. *)
Record FairRandomForestClassifier : Type := mkModel {
  model_random_state : nat;
  model_params : params;
}.

Record globals (row : Type) : Type := mkGlobals {
  X_train_df : pd.frame row;
  y_train_df : pd.frame Z;
}.
Arguments mkGlobals {row} _ _.
Arguments X_train_df {row} _.
Arguments y_train_df {row} _.

Section Script.

Context {row : Type}.
Variable sensitive_col : row -> Z.
Variable make_test_folds : nat -> list string -> result (list nat).

(** The classifier family: drop the protected column, fit and apply
    the column transformer, fit a copy of the model on the training
    rows with [s_train], and return [predict_proba(X_test).T[1]]. *)
Variable FairRandomForest_predict_proba :
  FairRandomForestClassifier -> pd.frame row -> list Z -> pd.frame Z ->
  pd.frame row -> result (list pyfloat).

(** What one fold appends to [auc_list]. *)
Definition fold_scores (y_true : list Z) (y_pred_probs : list pyfloat)
  : result Q :=
  sklearn.roc_auc_score y_true y_pred_probs.

Definition fold_predictions (model : FairRandomForestClassifier)
    (X : pd.frame row) (y : pd.frame Z) (fold : list nat * list nat)
  : result (list pyfloat) :=
  let '(trainset, testset) := fold in
  let X_train := pd.rows_isin X trainset in
  let y_train := pd.rows_isin y trainset in
  let X_test := pd.rows_isin X testset in
  let s_train := sensitive_col <$> values X_train in
  FairRandomForest_predict_proba model X_train s_train y_train X_test.

Fixpoint cv_loop (model : FairRandomForestClassifier) (X : pd.frame row)
    (y : pd.frame Z) (folds : list (list nat * list nat))
    (auc_list : list Q) : result (list Q) :=
  match folds with
  | [] => Ok auc_list
  | fold :: folds' =>
      let y_test := pd.rows_isin y fold.2 in
      y_pred_probs ← fold_predictions model X y fold;
      auc ← fold_scores (values y_test) y_pred_probs;
      cv_loop model X y folds' (auc_list ++ [auc])
  end.

(** [cross_val_score_custom(model, X, y, cv)] *)
Definition cross_val_score_custom (model : FairRandomForestClassifier)
    (X : pd.frame row) (y : pd.frame Z) (cv : nat) : result Q :=
  let s := sensitive_col <$> values X in
  let splitter_y := splitter_labels (values y) s in
  folds ← model_selection.split make_test_folds cv (length X) splitter_y;
  auc_list ← cv_loop model X y folds [];
  Ok (np.nanmean auc_list).

(** [objective(params)] *)
Definition objective (g : globals row) (p : params)
  : result (Trial FairRandomForestClassifier) :=
  let model := mkModel 42 p in
  roc_auc ←
    cross_val_score_custom model (X_train_df g) (y_train_df g) K;
  Ok (mkTrial (- roc_auc) STATUS_OK model).

End Script.

End frf.

(** *** Logistic regression ([trad_setting_E/adult_lr_model.py]) *)

Module lr.

Record params : Type := mkParams {
  penalty : option string;
  tol : Q;
  C : Q;
  fit_intercept : bool;
  class_weight : option string;
  max_iter : nat;
  l1_ratio : Q;
}.

(** The estimator object, as built by its constructor. *)
Record LogisticRegression : Type := mkModel {
  model_params : params;
  model_random_state : nat;
  model_solver : string;
}.

(** [theta = 0.0], a constant of the script. *)
Definition theta : Q := 0.

(** The globals that [objective] reads; the protected column has been
    dropped from [X_train_df] and is kept in [s_train]. *)
Record globals (row : Type) : Type := mkGlobals {
  X_train_df : pd.frame row;
  y_train_df : pd.frame Z;
  s_train : pd.frame Z;
}.
Arguments mkGlobals {row} _ _ _.
Arguments X_train_df {row} _.
Arguments y_train_df {row} _.
Arguments s_train {row} _.

Section Script.

Context {row : Type}.
Variable make_test_folds : nat -> list string -> result (list nat).

(** The pipeline of the column transformer and the classifier: fit on
    the training rows, then [predict_proba(X_test_df).T[1]]. *)
Variable Pipeline_predict_proba :
  LogisticRegression -> pd.frame row -> pd.frame Z -> pd.frame row ->
  result (list pyfloat).

(** What one fold appends to [auc_perf_list] and to [auc_fair_list]. *)
Definition fold_scores (y_true s_test : list Z)
    (y_pred_probs : list pyfloat) : result (Q * Q) :=
  perf ← sklearn.roc_auc_score y_true y_pred_probs;
  fair ← sklearn.roc_auc_score s_test y_pred_probs;
  Ok (perf, (5 # 10) + Qabs ((5 # 10) - fair)).

Definition fold_predictions (model : LogisticRegression)
    (X : pd.frame row) (y : pd.frame Z) (fold : list nat * list nat)
  : result (list pyfloat) :=
  let '(trainset, testset) := fold in
  let X_train_df := pd.rows_isin X trainset in
  let y_train_df := pd.rows_isin y trainset in
  let X_test_df := pd.rows_isin X testset in
  Pipeline_predict_proba model X_train_df y_train_df X_test_df.

Fixpoint cv_loop (model : LogisticRegression) (X : pd.frame row)
    (y s : pd.frame Z) (folds : list (list nat * list nat))
    (auc_perf_list auc_fair_list : list Q) : result (list Q * list Q) :=
  match folds with
  | [] => Ok (auc_perf_list, auc_fair_list)
  | fold :: folds' =>
      let y_test_df := pd.rows_isin y fold.2 in
      let s_test := pd.rows_isin s fold.2 in
      y_pred_probs ← fold_predictions model X y fold;
      '(perf, fair) ←
        fold_scores (values y_test_df) (values s_test) y_pred_probs;
      cv_loop model X y s folds' (auc_perf_list ++ [perf])
              (auc_fair_list ++ [fair])
  end.

(** [cross_val_score_custom(model, X, y, s, cv)] *)
Definition cross_val_score_custom (model : LogisticRegression)
    (X : pd.frame row) (y s : pd.frame Z) (cv : nat) : result (Q * Q) :=
  let splitter_y := splitter_labels (values y) (values s) in
  folds ← model_selection.split make_test_folds cv (length X) splitter_y;
  '(auc_perf_list, auc_fair_list) ← cv_loop model X y s folds [] [];
  Ok (np.nanmean auc_perf_list, np.nanmean auc_fair_list).

(** [objective(params)] *)
Definition objective (g : globals row) (p : params)
  : result (Trial LogisticRegression) :=
  let model := mkModel p 42 "saga" in
  '(roc_auc_y, roc_auc_s) ←
    cross_val_score_custom model (X_train_df g) (y_train_df g)
                           (s_train g) K;
  let goal := (1 - theta) * roc_auc_y - theta * roc_auc_s in
  Ok (mkTrial (- goal) STATUS_OK model).

End Script.

End lr.

(** ** Example data for the evaluator *)

Module example.

(** A row: the label it will be given as [y], and the protected value. *)
Definition row : Type := (Z * Z)%type.

Definition sensitive_col (r : row) : Z := r.2.

(** Twenty rows; the first ten have target 0 and the last ten target 1,
    and the protected value alternates, shifted in the second half. *)
Definition rows : list row :=
  (fun i => if (i <? 10)%nat then (0, Z.of_nat (i mod 2))
            else (1, Z.of_nat (S i mod 2)))%Z <$> seq 0 20.

Definition X : pd.frame row := pd.reset_index rows.
Definition y : pd.frame Z := pd.reset_index (fst <$> rows).
Definition s : pd.frame Z := pd.reset_index (snd <$> rows).

(** A classifier that ranks every test row by its target. *)
Definition oracle (X_test : pd.frame row) : result (list pyfloat) :=
  Ok ((fun r => Fin (inject_Z r.1)) <$> values X_test).

(** A classifier whose network has diverged: every probability is NaN. *)
Definition diverged (X_test : pd.frame row) : result (list pyfloat) :=
  Ok ((fun _ => NaN) <$> values X_test).

Definition fal_params : fal.params := fal.mkParams (1 # 2) 50 16 40.
Definition frf_params : frf.params :=
  frf.mkParams (1 # 2) 256 true 5 (1 # 2) 100 1 2.
Definition lr_params : lr.params :=
  lr.mkParams (Some "l2") (1 # 1000) 1 true None 100 (1 # 2).

(** The training partition of the first outer fold of a twelve-row table
    with a fresh index: the rows labelled 1 to 9 and 11. *)
Definition outer_X : pd.frame nat := pd.reset_index (seq 100 12).

Definition outer_train : pd.frame nat :=
  match model_selection.split model_selection.round_robin K
          (length outer_X) (replicate 12 "00") with
  | Ok ((trainset, testset) :: _) => pd.rows_isin outer_X trainset
  | _ => []
  end.

End example.

(** ** Preprocessing: the numeric sub-pipeline *)

Module num.

(** A numeric cell, [None] for NaN; a matrix is given by its columns. *)
Definition column : Type := list (option Q).
Definition matrix : Type := list column.

Definition isnan (c : option Q) : bool :=
  match c with None => true | Some _ => false end.

(** The column holds a missing value. *)
Definition has_missing (col : column) : bool := existsb isnan col.

(** The column holds an observed value. *)
Definition has_observed (col : column) : bool :=
  existsb (fun c => negb (isnan c)) col.

(** The observed values of a column. *)
Definition observed (col : column) : list Q := omap id col.

Definition n_samples (X : matrix) : nat :=
  match X with
  | [] => 0
  | col :: _ => length col
  end.

(** Input validation of the scikit-learn estimators: at least one
    feature and one sample. *)
Definition check_array (X : matrix) : result unit :=
  if decide (X = []) then Error ValueError
  else if decide (n_samples X = 0%nat) then Error ValueError
  else Ok ().

(** Sorting the observed values, for the percentiles. *)
Fixpoint insert_sorted (x : Q) (l : list Q) : list Q :=
  match l with
  | [] => [x]
  | y :: l' =>
      if Qle_bool x y then x :: y :: l' else y :: insert_sorted x l'
  end.

Definition sort (l : list Q) : list Q := foldr insert_sorted [] l.

(** [np.nanpercentile(col, q)] with linear interpolation; NaN for a
    column without observed values. *)
Definition nanpercentile (q : Q) (col : column) : option Q :=
  match sort (observed col) with
  | [] => None
  | v0 :: v' =>
      let v := v0 :: v' in
      let h := Q_of_nat (length v') * q / 100 in
      let lo := Z.to_nat (Qfloor h) in
      let a := default v0 (v !! lo) in
      let b := default a (v !! S lo) in
      Some (a + (h - inject_Z (Qfloor h)) * (b - a))
  end.

(** A complete column, a column with a gap, and an empty one. *)
Definition complete_column : column := [Some 1; Some 2; Some 4; Some 9].
Definition gappy_column : column := [Some 3; None; Some 5; Some 7].
Definition empty_column : column := [None; None; None; None].

End num.

(** *** [RobustScaler()]: centring on the median, scaling by the
    interquartile range, both taken over the observed values *)

Module RobustScaler.

Record t : Type := mk {
  center_ : list (option Q);
  scale_ : list (option Q);
}.

(** A zero scale is replaced by 1. *)
Definition handle_zeros_in_scale (s : Q) : Q :=
  if Qle_bool s 0 then 1 else s.

Definition column_center (col : num.column) : option Q :=
  num.nanpercentile 50 col.

Definition column_scale (col : num.column) : option Q :=
  q75 ← num.nanpercentile 75 col;
  q25 ← num.nanpercentile 25 col;
  Some (handle_zeros_in_scale (q75 - q25)).

Definition fit (X : num.matrix) : result t :=
  _ ← num.check_array X;
  Ok (mk (column_center <$> X) (column_scale <$> X)).

(** [(x - center) / scale]; NaN wherever a NaN enters. *)
Definition scale_cell (c s x : option Q) : option Q :=
  match x, c, s with
  | Some x, Some c, Some s => Some ((x - c) / s)
  | _, _, _ => None
  end.

Definition transform (self : t) (X : num.matrix) : result num.matrix :=
  _ ← num.check_array X;
  if decide (length X = length (center_ self)) then
    Ok (zip_with (fun col cs => scale_cell cs.1 cs.2 <$> col)
                 X (zip (center_ self) (scale_ self)))
  else Error ValueError.

End RobustScaler.

(** *** [MissingIndicator(sparse=False, error_on_new=False)]

    The [features] parameter is left at its default, "missing-only": the
    mask has a column only for the features that held a missing value when
    the indicator was fitted. With [error_on_new=False] a feature that
    shows its first missing value at transform time raises nothing and gets
    no column. *)

Module MissingIndicator.

Record t : Type := mk {
  features_ : list nat;
  n_features_in_ : nat;
}.

(** The attributes that a fit sets. *)
Definition fitted (X : num.matrix) : t :=
  mk (filter (fun i => num.has_missing (default [] (X !! i)) = true)
             (seq 0 (length X)))
     (length X).

(** Both methods validate their input as the other estimators do. *)
Definition fit (X : num.matrix) : result t :=
  _ ← num.check_array X;
  Ok (fitted X).

Definition transform (self : t) (X : num.matrix) : result (list (list bool)) :=
  _ ← num.check_array X;
  if decide (length X = n_features_in_ self) then
    Ok ((fun i => num.isnan <$> default [] (X !! i)) <$> features_ self)
  else Error ValueError.

End MissingIndicator.

(** *** [MissIndicator], the class of the scripts *)

Module MissIndicator.

(** The state of a [MissIndicator] object. [self.mi] does not exist before
    the first fit ([None]); it is assigned before it is fitted, so it is
    an estimator without fitted attributes ([Some None]) when its fit has
    raised. *)
Record t : Type := mk {
  is_fit : bool;
  mi : option (option MissingIndicator.t);
}.

Definition __init__ : t := mk false None.

(** A boolean mask column as floats. *)
Definition mask_column (m : list bool) : num.column :=
  (fun b : bool => Some (if b then 1 else 0)) <$> m.

(** [np.concatenate([X, self.mi.transform(X)], axis=1)] *)
Definition concatenate_mask (self : t) (X : num.matrix) : result num.matrix :=
  match mi self with
  | None => Error AttributeError
  | Some None => Error NotFittedError
  | Some (Some m) =>
      mask ← MissingIndicator.transform m X;
      Ok (X ++ (mask_column <$> mask))
  end.

(** [self.mi = MissingIndicator(...); self.mi.fit(X)] *)
Definition fit (self : t) (X : num.matrix) : t * result unit :=
  match MissingIndicator.fit X with
  | Ok m => (mk (is_fit self) (Some (Some m)), Ok ())
  | Error e => (mk (is_fit self) (Some None), Error e)
  end.

Definition transform (self : t) (X : num.matrix) : result num.matrix :=
  concatenate_mask self X.

Definition fit_transform (self : t) (X : num.matrix) : t * result num.matrix :=
  match fit self X with
  | (self, Ok _) => (self, concatenate_mask self X)
  | (self, Error e) => (self, Error e)
  end.

End MissIndicator.

(** *** [SimpleImputer()]: mean imputation; a feature without observed
    values at fit time is dropped *)

Module SimpleImputer.

Record t : Type := mk {
  statistics_ : list (option Q);
}.

Definition column_mean (col : num.column) : option Q :=
  match num.observed col with
  | [] => None
  | v => Some (Qsum v / Q_of_nat (length v))
  end.

Definition fit (X : num.matrix) : t := mk (column_mean <$> X).

Definition impute_column (col : num.column) (statistic : option Q)
  : option num.column :=
  match statistic with
  | None => None
  | Some m => Some ((fun c => Some (default m c)) <$> col)
  end.

Definition transform (self : t) (X : num.matrix) : result num.matrix :=
  if decide (length X = length (statistics_ self)) then
    Ok (omap id (zip_with impute_column X (statistics_ self)))
  else Error ValueError.

End SimpleImputer.

(** *** [num_transformer], the pipeline of the three steps *)

Module num_transformer.

(** The fitted steps: [scaler], [mindic], [imputer]. *)
Record t : Type := mk {
  scaler : RobustScaler.t;
  mindic : MissIndicator.t;
  imputer : SimpleImputer.t;
}.

Definition fit_transform (X : num.matrix) : result (t * num.matrix) :=
  scaler ← RobustScaler.fit X;
  X1 ← RobustScaler.transform scaler X;
  let '(mindic, r) := MissIndicator.fit_transform MissIndicator.__init__ X1 in
  X2 ← r;
  let imputer := SimpleImputer.fit X2 in
  X3 ← SimpleImputer.transform imputer X2;
  Ok (mk scaler mindic imputer, X3).

Definition transform (self : t) (X : num.matrix) : result num.matrix :=
  X1 ← RobustScaler.transform (scaler self) X;
  X2 ← MissIndicator.transform (mindic self) X1;
  SimpleImputer.transform (imputer self) X2.

End num_transformer.

(** What the scaler makes of a column it was fitted on. *)
Definition scaled_column (col : num.column) : num.column :=
  RobustScaler.scale_cell (RobustScaler.column_center col)
                          (RobustScaler.column_scale col) <$> col.

(** What the imputer makes of a column it was fitted on: nothing when no
    value was observed. *)
Definition imputed_column (col : num.column) : option num.column :=
  SimpleImputer.impute_column col (SimpleImputer.column_mean col).

(** What [MissIndicator] makes of a matrix it was fitted on: the matrix,
    followed by one mask column for every column with a missing value. *)
Definition with_masks (X : num.matrix) : num.matrix :=
  X ++ ((fun col => MissIndicator.mask_column (num.isnan <$> col)) <$>
          filter (fun col => num.has_missing col = true) X).


(** ** Further definitions *)

(** The table with every cell rewritten to "other". *)
Definition all_other (X : pd.table) : pd.table :=
  (fun col : string * list pd.cell =>
     (col.1, (fun _ : pd.cell => Some "other") <$> col.2))
    <$> (X : list (string * list pd.cell)).

(** ** hyperopt: the search loop *)

(** Max number of evaluations for HPO. *)
Definition hyperopt_evals : nat := 100.

Section Search.

Context {P M : Type}.

(** [algo=tpe.suggest] over the search space: the next configuration,
    proposed from the trials recorded so far. *)
Variable suggest : list (Trial M) -> P.

(** The objective [fn]. *)
Variable fn : P -> result (Trial M).

(** [fmin(fn, space, algo, max_evals, trials)]: one proposal and one
    evaluation after the other, each result appended to the trial log; an
    exception of the objective is not caught and ends the search. *)
Fixpoint fmin (max_evals : nat) (trials : list (Trial M))
  : result (list (Trial M)) :=
  match max_evals with
  | O => Ok trials
  | S n =>
      t ← fn (suggest trials);
      fmin n (trials ++ [t])
  end.

(** The search of one outer fold:
    [trials = Trials(); fmin(...); best_model(trials)]. *)
Definition search (max_evals : nat) : result M :=
  trials ← fmin max_evals [];
  best_model trials.

End Search.

(** ** The final evaluation of an outer fold *)

(** The end of the outer loop's body in [fair_adversarial_learning_]: what
    one outer fold appends to [mean_roc_auc] and to [mean_strong_dp].
    [s_test] is a column of the test partition, a one-dimensional array. *)
Definition fal_final_scores (y_true s_test : list Z)
    (y_pred_probs : list pyfloat) : result (Q * pyvalue) :=
  let nan_inf_error_list := isfinite <$> y_pred_probs in
  if bool_decide (false ∈ nan_inf_error_list) then
    Ok (5 # 10, PyNum (5 # 10))
  else
    perf ← sklearn.roc_auc_score y_true y_pred_probs;
    sdp ← strong_demographic_parity_score (Array1D s_test) y_pred_probs;
    Ok (perf, sdp).

(** ** Data preparation and the outer split *)

Module outer.

(** The entries ["X"] and ["y"] of the dictionary that [data_prep]
    returns; its entry ["folds"] is the splitter. *)
Record data_prep_dict (row : Type) : Type := mkDict {
  X : pd.frame row;
  y : pd.frame Z;
}.
Arguments mkDict {row} _ _.
Arguments X {row} _.
Arguments y {row} _.

(** The partitions that one pass of the outer loop selects. *)
Record partitions (row : Type) : Type := mkPartitions {
  X_train_df : pd.frame row;
  y_train_df : pd.frame Z;
  X_test_df : pd.frame row;
  y_test_df : pd.frame Z;
}.
Arguments mkPartitions {row} _ _ _ _.
Arguments X_train_df {row} _.
Arguments y_train_df {row} _.
Arguments X_test_df {row} _.
Arguments y_test_df {row} _.

Section Script.

Context {A row : Type}.

(** [df[predictors]] and [df[target_col]] of one row of the data. *)
Variable predictors : A -> row.
Variable target_col : A -> Z.

Variable sensitive_col : row -> Z.

Variable make_test_folds : nat -> list string -> result (list nat).

(** [data_prep(df, K, predictors, target_col)] *)
Definition data_prep (df : pd.frame A) : data_prep_dict row :=
  let targets := pd.reset_index (target_col <$> values df) in
  let df := pd.reset_index (predictors <$> values df) in
  mkDict df targets.

(** The head of the outer loop's body. *)
Definition select (sloopschepen : data_prep_dict row)
    (fold : list nat * list nat) : partitions row :=
  let '(trainset, testset) := fold in
  mkPartitions (pd.rows_isin (X sloopschepen) trainset)
               (pd.rows_isin (y sloopschepen) trainset)
               (pd.rows_isin (X sloopschepen) testset)
               (pd.rows_isin (y sloopschepen) testset).

(** The partitions of all passes of the outer loop, in order. *)
Definition loop_partitions (sloopschepen : data_prep_dict row)
  : result (list (partitions row)) :=
  let y := y sloopschepen in
  let s := sensitive_col <$> values (X sloopschepen) in
  let splitter_y := splitter_labels (values y) s in
  folds ← model_selection.split make_test_folds K
            (length (X sloopschepen)) splitter_y;
  Ok (select sloopschepen <$> (folds : list (list nat * list nat))).

End Script.

End outer.

(** The twenty example rows as raw data, under an index that is not
    fresh: the labels 3, 8, 13, ... *)
Definition example_df : pd.frame example.row :=
  zip ((fun i => 5 * i + 3)%nat <$> seq 0 20) example.rows.

(** ** Preprocessing of the raw data ([data_pre_processing]) *)

Module preprocessing.

(** A cell of a raw column: a string, an integer, or NaN. The data frame
    is the map from column labels to columns. *)
Inductive value : Type :=
  | Str (s : string)
  | Int (z : Z)
  | Nan.

#[global] Instance value_eq_dec : EqDecision value.
Proof. solve_decision. Defined.

Definition EOL_FOC_list : list string :=
  ["KNA"; "COM"; "PLW"; "TUV"; "TGO"; "TZA"; "VCT"; "SLE"].

Definition flag_columns : list string :=
  ["country_current_flag"; "country_previous_flag"].

(** Specify which predictors are categorical. *)
Definition cat_columns : list string := ["vessel_type"; "port_of_registry"].

(** [Series.isin(values)] on one cell of a raw column. *)
Definition isin (values : list string) (v : value) : bool :=
  match v with
  | Str s => bool_decide (s ∈ values)
  | _ => false
  end.

(** A search for [pat] anywhere in [s], as [str.contains] does for a
    pattern without metacharacters. *)
Fixpoint contains (pat s : string) : bool :=
  String.prefix pat s
  || match s with
     | EmptyString => false
     | String _ s' => contains pat s'
     end.

(** [Series.str.contains("unknown|unspecified")] on one string. *)
Definition contains_unknown (s : string) : bool :=
  contains "unknown" s || contains "unspecified" s.

(** [Series.fillna(v)] *)
Definition fillna (v : value) (col : list value) : list value :=
  (fun c => match c with Nan => v | _ => c end) <$> col.

(** [sloopschepen[x]] *)
Definition getitem (df : gmap string (list value)) (x : string)
  : result (list value) :=
  match df !! x with
  | Some col => Ok col
  | None => Error KeyError
  end.

(** The cells under a boolean mask replaced by [v]. *)
Definition set_where (mask : list bool) (v : value) (col : list value)
  : list value :=
  zip_with (fun (m : bool) c => if m then v else c) mask col.

Section Script.

(** [pd.options.mode.copy_on_write]. Without it an assignment through
    [sloopschepen[x][mask]] writes into the column of the data frame; with
    it the assignment reaches a temporary only and the data frame stays as
    it is. *)
Variable copy_on_write : bool.

(** Python's [str.lower]. *)
Variable str_lower : string -> string.

(** [sloopschepen[x][mask] = v] *)
Definition chained_assign (df : gmap string (list value)) (x : string)
    (mask : list bool) (v : value) : result (gmap string (list value)) :=
  col ← getitem df x;
  Ok (if copy_on_write then df else <[x := set_where mask v col]> df).

(** [Series.apply(str.lower)]: [str.lower] accepts strings only. *)
Fixpoint apply_lower (col : list value) : result (list string) :=
  match col with
  | [] => Ok []
  | Str s :: col' =>
      lowered ← apply_lower col';
      Ok (str_lower s :: lowered)
  | _ :: _ => Error TypeError
  end.

(** The body of the loop over the two flag columns. *)
Definition flag_body (df : gmap string (list value)) (x : string)
  : result (gmap string (list value)) :=
  col ← getitem df x;
  df ← chained_assign df x ((fun c => negb (isin EOL_FOC_list c)) <$> col)
         (Int 0);
  col ← getitem df x;
  chained_assign df x (isin EOL_FOC_list <$> col) (Int 1).

(** The body of the loop over the categorical columns. *)
Definition cat_body (df : gmap string (list value)) (x : string)
  : result (gmap string (list value)) :=
  col ← getitem df x;
  let df : gmap string (list value) :=
    <[x := fillna (Str "missing") col]> df in
  col ← getitem df x;
  lowered ← apply_lower col;
  df ← chained_assign df x (contains_unknown <$> lowered) (Str "missing");
  col ← getitem df x;
  lowered ← apply_lower col;
  chained_assign df x ((fun s : string => bool_decide (s = "unk")) <$> lowered)
    (Str "missing").

(** A [for] loop over column labels. *)
Fixpoint for_each
    (body : gmap string (list value) -> string ->
            result (gmap string (list value)))
    (xs : list string) (df : gmap string (list value))
  : result (gmap string (list value)) :=
  match xs with
  | [] => Ok df
  | x :: xs' =>
      df ← body df x;
      for_each body xs' df
  end.

(** [data_pre_processing(sloopschepen)] *)
Definition data_pre_processing (sloopschepen : gmap string (list value))
  : result (gmap string (list value)) :=
  sloopschepen ← for_each flag_body flag_columns sloopschepen;
  for_each cat_body cat_columns sloopschepen.

End Script.

(** [str.lower] on the letters A to Z, for the examples. *)
Definition ascii_lower (s : string) : string :=
  string_rec (fun _ => string) EmptyString
    (fun c _ rest =>
       let n := Ascii.nat_of_ascii c in
       String (if (65 <=? n)%nat && (n <=? 90)%nat
               then Ascii.ascii_of_nat (n + 32) else c) rest) s.

(** A small raw data set: NaN and unknowns among the categories, a missing
    flag, and a column that the function does not touch. *)
Definition example_frame : gmap string (list value) :=
  <["country_current_flag" := [Str "KNA"; Str "NLD"; Nan; Str "SLE"]]>
  (<["country_previous_flag" := [Str "PAN"; Str "COM"; Str "NLD"; Nan]]>
  (<["vessel_type" := [Str "Tanker"; Str "UNKNOWN type"; Nan; Str "Unk"]]>
  (<["port_of_registry" := [Str "Monrovia"; Str "Not Unspecified"; Str "unk";
                            Str "Funky"]]>
  (<["speed" := [Int 12; Nan; Int 9; Int 14]]> ∅)))).

End preprocessing.

(** ** Preprocessing of the adult data ([trad_setting_E/adult_lr_model.py]) *)

Module adult.

(** Specify which predictors are categorical. *)
Definition cat_columns : list string :=
  ["workclass"; "marital-status"; "occupation"; "relationship";
   "native-country"].

(** [Series == s] on one cell of a raw column. *)
Definition eq_str (s : string) (v : preprocessing.value) : bool :=
  match v with
  | preprocessing.Str t => bool_decide (t = s)
  | _ => false
  end.

Section Script.

Variable copy_on_write : bool.

(** The two assignments to [adult["gender"]]. *)
Definition gender_body (adult : gmap string (list preprocessing.value))
  : result (gmap string (list preprocessing.value)) :=
  col ← preprocessing.getitem adult "gender";
  adult ← preprocessing.chained_assign copy_on_write adult "gender"
            (eq_str "Male" <$> col) (preprocessing.Int 0);
  col ← preprocessing.getitem adult "gender";
  preprocessing.chained_assign copy_on_write adult "gender"
    (eq_str "Female" <$> col) (preprocessing.Int 1).

(** The body of the loop over the categorical columns. *)
Definition cat_body (adult : gmap string (list preprocessing.value))
    (x : string) : result (gmap string (list preprocessing.value)) :=
  col ← preprocessing.getitem adult x;
  Ok (<[x := preprocessing.fillna (preprocessing.Str "missing") col]> adult).

(** [data_pre_processing(adult)] *)
Definition data_pre_processing
    (adult : gmap string (list preprocessing.value))
  : result (gmap string (list preprocessing.value)) :=
  adult ← gender_body adult;
  preprocessing.for_each cat_body cat_columns adult.

End Script.

(** A small raw data set with a gender that is neither of the two
    expected strings, and a missing one. *)
Definition example_frame : gmap string (list preprocessing.value) :=
  <["gender" := [preprocessing.Str "Male"; preprocessing.Str "Female";
                 preprocessing.Str "male"; preprocessing.Nan]]>
  (<["workclass" := [preprocessing.Str "Private"; preprocessing.Nan;
                     preprocessing.Str "State-gov"; preprocessing.Nan]]>
  (<["marital-status" := replicate 4 (preprocessing.Str "Divorced")]>
  (<["occupation" := replicate 4 preprocessing.Nan]>
  (<["relationship" := replicate 4 (preprocessing.Str "Husband")]>
  (<["native-country" := replicate 4 (preprocessing.Str "?")]>
  (<["fnlwgt" := replicate 4 (preprocessing.Int 7)]> ∅)))))).

End adult.
(* ===================================================================== *)
(** * Properties *)
(* ===================================================================== *)

Example argmin_example : np.argmin [3 # 10; - (1 # 10); 5 # 10] = Ok 1%nat.
Proof. reflexivity. Qed.

(** ** Helper facts *)

Lemma Qltb_lt (a b : Q) : Qltb a b = true <-> a < b.
Proof.
  unfold Qltb. rewrite negb_true_iff.
  destruct (Qle_bool b a) eqn:E.
  - apply Qle_bool_iff in E. split; [discriminate | intros H; exfalso; lra].
  - split; [intros _ | reflexivity].
    apply Qnot_le_lt. intros H. apply Qle_bool_iff in H. congruence.
Qed.

Lemma Qltb_ge (a b : Q) : Qltb a b = false <-> b <= a.
Proof.
  unfold Qltb. rewrite negb_false_iff. apply Qle_bool_iff.
Qed.

(** [argmin_from] keeps the running minimum and the place where it was
    first seen. *)
Lemma argmin_from_spec (l : list Q) :
  forall (best_i : nat) (best : Q) (i : nat),
    (np.argmin_from best_i best i l = best_i /\
     forall j x, l !! j = Some x -> best <= x)
    \/
    (exists j x, np.argmin_from best_i best i l = (i + j)%nat /\
       l !! j = Some x /\ x < best /\
       (forall j' x', l !! j' = Some x' -> x <= x') /\
       (forall j' x', (j' < j)%nat -> l !! j' = Some x' -> x < x')).
Proof.
  induction l as [|y l IH]; intros best_i best i; simpl.
  - left. split; [reflexivity | intros j x H; discriminate].
  - destruct (Qltb y best) eqn:E.
    + apply Qltb_lt in E. right.
      destruct (IH i y (S i)) as [[Hr Hmin] | (j & x & Hr & Hx & Hlt & Hmin & Hfirst)].
      * exists 0%nat, y. rewrite Hr. repeat split.
        -- lia.
        -- exact E.
        -- intros [|j'] x' Hj; simpl in Hj.
           ++ injection Hj as <-. lra.
           ++ eauto.
        -- intros j' x' Hj'. lia.
      * exists (S j), x. rewrite Hr. repeat split.
        -- lia.
        -- exact Hx.
        -- lra.
        -- intros [|j'] x' Hj; simpl in Hj.
           ++ injection Hj as <-. lra.
           ++ eauto.
        -- intros [|j'] x' Hlt' Hj; simpl in Hj.
           ++ injection Hj as <-. exact Hlt.
           ++ apply (Hfirst j'); [lia | exact Hj].
    + apply Qltb_ge in E.
      destruct (IH best_i best (S i)) as [[Hr Hmin] | (j & x & Hr & Hx & Hlt & Hmin & Hfirst)].
      * left. split; [exact Hr |].
        intros [|j] x Hj; simpl in Hj.
        -- injection Hj as <-. exact E.
        -- eauto.
      * right. exists (S j), x. rewrite Hr. repeat split.
        -- lia.
        -- exact Hx.
        -- exact Hlt.
        -- intros [|j'] x' Hj; simpl in Hj.
           ++ injection Hj as <-. lra.
           ++ eauto.
        -- intros [|j'] x' Hlt' Hj; simpl in Hj.
           ++ injection Hj as <-. lra.
           ++ apply (Hfirst j'); [lia | exact Hj].
Qed.

(** [np.argmin] returns the first index holding the minimum. *)
Lemma argmin_spec (l : list Q) (k : nat) :
  np.argmin l = Ok k ->
  exists x, l !! k = Some x /\
    (forall j y, l !! j = Some y -> x <= y) /\
    (forall j y, (j < k)%nat -> l !! j = Some y -> x < y).
Proof.
  destruct l as [|x0 l]; simpl; [discriminate |].
  intros [= <-].
  destruct (argmin_from_spec l 0%nat x0 1%nat)
    as [[Hr Hmin] | (j & x & Hr & Hx & Hlt & Hmin & Hfirst)]; rewrite Hr.
  - exists x0. repeat split.
    + intros [|j] y Hj; simpl in Hj.
      * injection Hj as <-. lra.
      * eauto.
    + intros j y Hj. lia.
  - exists x. repeat split.
    + exact Hx.
    + intros [|j'] y Hj; simpl in Hj.
      * injection Hj as <-. lra.
      * eauto.
    + intros [|j'] y Hlt' Hj; simpl in Hj.
      * injection Hj as <-. exact Hlt.
      * apply (Hfirst j'); [lia | exact Hj].
Qed.

Lemma argmin_nonempty (l : list Q) :
  l <> [] -> exists k, np.argmin l = Ok k /\ (k < length l)%nat.
Proof.
  destruct l as [|x0 l]; [congruence | intros _].
  simpl. eexists; split; [reflexivity |].
  destruct (argmin_from_spec l 0%nat x0 1%nat)
    as [[Hr _] | (j & x & Hr & Hx & _)]; rewrite Hr; simpl.
  - lia.
  - apply lookup_lt_Some in Hx. lia.
Qed.

(** Position bookkeeping for a list comprehension with a condition: the
    element at place [k] of the filtered list sits at some place [i] of
    the original, and the qualifying elements before [i] are exactly those
    before [k]. *)
Lemma filter_lookup_origin {A} (P : A -> Prop) `{!forall x, Decision (P x)}
    (l : list A) :
  forall (k : nat) (t : A),
    filter P l !! k = Some t ->
    exists i, l !! i = Some t /\ P t /\
      forall j u, (j < i)%nat -> l !! j = Some u -> P u ->
        exists k', (k' < k)%nat /\ filter P l !! k' = Some u.
Proof.
  induction l as [|a l IH]; intros k t Hk.
  - discriminate.
  - rewrite filter_cons in Hk. rewrite filter_cons.
    destruct (decide (P a)) as [Pa | nPa].
    + destruct k as [|k]; simpl in Hk.
      * injection Hk as <-. exists 0%nat. repeat split; [exact Pa |].
        intros j u Hj. lia.
      * destruct (IH k t Hk) as (i & Hi & Pt & Hbefore).
        exists (S i). repeat split; [exact Hi | exact Pt |].
        intros [|j] u Hlt Hj Pu; simpl in Hj.
        -- injection Hj as <-. exists 0%nat. split; [lia | reflexivity].
        -- destruct (Hbefore j u) as (k' & Hk' & Hf); [lia | exact Hj | exact Pu |].
           exists (S k'). split; [lia | exact Hf].
    + destruct (IH k t Hk) as (i & Hi & Pt & Hbefore).
      exists (S i). repeat split; [exact Hi | exact Pt |].
      intros [|j] u Hlt Hj Pu; simpl in Hj.
      * injection Hj as <-. contradiction.
      * apply (Hbefore j u); [lia | exact Hj | exact Pu].
Qed.

Lemma filter_lookup_member {A} (P : A -> Prop) `{!forall x, Decision (P x)}
    (l : list A) (j : nat) (u : A) :
  l !! j = Some u -> P u -> exists k, filter P l !! k = Some u.
Proof.
  intros Hj Pu. apply list_elem_of_lookup.
  apply list_elem_of_filter. split; [exact Pu |].
  apply list_elem_of_lookup. eauto.
Qed.

(** ** Search driver: selecting the best trial *)

(** C2. Whenever the trial log holds a successful trial, [best_model]
    returns the model of a successful trial whose loss is minimal among the
    successful ones, and it is the earliest such trial of the log; a trial
    that did not succeed is never the one selected. For the losses
    0.3, -0.1, 0.5 it is the trial at index 1. *)
Theorem best_model_first_minimum :
  (forall (M : Type) (trials : list (Trial M)),
     (exists t, t ∈ trials /\ trial_status t = STATUS_OK) ->
     exists (i : nat) (t : Trial M),
       trials !! i = Some t /\
       trial_status t = STATUS_OK /\
       best_model trials = Ok (trained_model t) /\
       (forall j u, trials !! j = Some u -> trial_status u = STATUS_OK ->
                    loss t <= loss u) /\
       (forall j u, (j < i)%nat -> trials !! j = Some u ->
                    trial_status u = STATUS_OK -> loss t < loss u))
  /\ (exists t, example_trials !! 1%nat = Some t /\
                 best_model example_trials = Ok (trained_model t)).
Proof.
  split; [| eexists; split; reflexivity].
  intros M trials (t0 & Hin & Hok).
  unfold best_model.
  set (valid := filter (fun trial => STATUS_OK = trial_status trial) trials).
  assert (Hne : loss <$> valid <> []).
  { intros Hnil. apply fmap_nil_inv in Hnil.
    assert (Hmem : t0 ∈ valid).
    { apply list_elem_of_filter. split; [symmetry; exact Hok | exact Hin]. }
    rewrite Hnil in Hmem. by apply not_elem_of_nil in Hmem. }
  destruct (argmin_nonempty _ Hne) as (k & Hk & Hlen).
  rewrite Hk. simpl.
  destruct (argmin_spec _ _ Hk) as (x & Hx & Hmin & Hfirst).
  rewrite list_lookup_fmap in Hx.
  destruct (valid !! k) as [t|] eqn:Hvk; [| discriminate].
  simpl in Hx. injection Hx as <-.
  destruct (filter_lookup_origin _ trials k t Hvk) as (i & Hi & Pt & Hbefore).
  exists i, t. repeat split.
  - exact Hi.
  - symmetry. exact Pt.
  - intros j u Hj Hu.
    destruct (filter_lookup_member (fun trial => STATUS_OK = trial_status trial)
                trials j u Hj (eq_sym Hu)) as (k' & Hk').
    apply (Hmin k'). rewrite list_lookup_fmap. unfold valid. rewrite Hk'. reflexivity.
  - intros j u Hlt Hj Hu.
    destruct (Hbefore j u Hlt Hj (eq_sym Hu)) as (k' & Hlt' & Hk').
    apply (Hfirst k' _ Hlt'). rewrite list_lookup_fmap. unfold valid.
    rewrite Hk'. reflexivity.
Qed.

Lemma best_model_first_minimum_witness :
  exists (i : nat) (t : Trial string),
    example_trials !! i = Some t /\
    trial_status t = STATUS_OK /\
    best_model example_trials = Ok (trained_model t) /\
    (forall j u, example_trials !! j = Some u -> trial_status u = STATUS_OK ->
                 loss t <= loss u) /\
    (forall j u, (j < i)%nat -> example_trials !! j = Some u ->
                 trial_status u = STATUS_OK -> loss t < loss u).
Proof.
  apply (proj1 best_model_first_minimum string example_trials).
  exists (mkTrial (3 # 10) STATUS_OK "model0"). split.
  - apply list_elem_of_here.
  - reflexivity.
Defined.

(** C3. When no trial of the log succeeded, [best_model] returns no model:
    [np.argmin] rejects the empty list of losses with a [ValueError]. *)
Theorem best_model_no_valid_trial :
  forall (M : Type) (trials : list (Trial M)),
    (forall t, t ∈ trials -> trial_status t <> STATUS_OK) ->
    best_model trials = Error ValueError.
Proof.
  intros M trials Hnone. unfold best_model.
  assert (Hnil : filter (fun trial => STATUS_OK = trial_status trial) trials = []).
  { apply elem_of_nil_inv. intros t Ht.
    apply list_elem_of_filter in Ht as [Hs Hin].
    apply (Hnone t Hin). symmetry. exact Hs. }
  rewrite Hnil. reflexivity.
Qed.

Lemma best_model_no_valid_trial_witness :
  best_model [ mkTrial (1 # 5) STATUS_FAIL "a"; mkTrial 0 STATUS_NEW "b" ]
  = Error ValueError.
Proof.
  apply best_model_no_valid_trial.
  intros t Ht.
  apply elem_of_cons in Ht as [-> | Ht]; [discriminate |].
  apply elem_of_cons in Ht as [-> | Ht]; [discriminate |].
  by apply not_elem_of_nil in Ht.
Defined.

Example value_counts_example :
  pd.value_counts example_column
  = [("a", 3%positive); ("b", 3%positive); ("c", 1%positive); ("d", 1%positive)].
Proof. reflexivity. Qed.

Example values_to_keep_example :
  Clamper._get_values_to_keep_from_value_counts (pd.value_counts example_column) = Ok []
  /\ Clamper._get_values_to_keep_from_value_counts
       [("a", 5%positive); ("b", 3%positive); ("c", 1%positive); ("d", 1%positive)]
     = Ok ["a"]
  /\ Clamper._get_values_to_keep_from_value_counts [] = Error ZeroDivisionError
  /\ spec_values_to_keep_cumulative (pd.value_counts example_column) = ["a"]
  /\ spec_values_to_keep_marginal (pd.value_counts example_column) = ["a"; "b"].
Proof. repeat split; vm_compute; reflexivity. Qed.

(** ** Preprocessing: the Clamper *)

Lemma clamp_cells_idempotent (keep : list string) (cells : list pd.cell) :
  Clamper.clamp_cells keep (Clamper.clamp_cells keep cells) = Clamper.clamp_cells keep cells.
Proof.
  unfold Clamper.clamp_cells. rewrite <- list_fmap_compose.
  apply list_fmap_ext. intros _ v _. simpl.
  destruct (pd.isin keep v) eqn:E.
  - rewrite E. reflexivity.
  - destruct (pd.isin keep (Some "other")); reflexivity.
Qed.

Lemma clamp_cells_pointwise (keep : list string) (cells : list pd.cell) :
  Forall2 (fun v v' => v' = if pd.isin keep v then v else Some "other")
          cells (Clamper.clamp_cells keep cells).
Proof.
  unfold Clamper.clamp_cells. induction cells as [|v cells IH]; simpl.
  - constructor.
  - constructor; [reflexivity | exact IH].
Qed.

(** Fitting touches only the entries of the columns of the table. *)
Lemma fit_columns_lookup_other (X : pd.table) :
  forall (self self' : Clamper.t) (r : result unit) (name : string),
    Clamper.fit_columns self X = (self', r) ->
    name ∉ X.*1 ->
    Clamper.values_to_keep self' !! name = Clamper.values_to_keep self !! name.
Proof.
  induction X as [|[column cells] X IH]; intros self self' r name Hfit Hnot;
    simpl in Hfit.
  - injection Hfit as <- _. reflexivity.
  - simpl in Hnot. apply not_elem_of_cons in Hnot as [Hne Hnot].
    destruct (Clamper._get_values_to_keep_from_value_counts (pd.value_counts cells))
      as [keep | e].
    + rewrite (IH _ _ _ name Hfit Hnot). simpl.
      apply lookup_insert_ne. congruence.
    + injection Hfit as <- _. reflexivity.
Qed.

(** After a fit that went through, every column of the table has its entry,
    and it is the one computed from that column. *)
Lemma fit_columns_lookup (X : pd.table) :
  forall (self self' : Clamper.t) (u : unit),
    NoDup X.*1 ->
    Clamper.fit_columns self X = (self', Ok u) ->
    forall column cells, (column, cells) ∈ X ->
      Ok <$> Clamper.values_to_keep self' !! column
      = Some (Clamper._get_values_to_keep_from_value_counts (pd.value_counts cells)).
Proof.
  induction X as [|[c0 cells0] X IH]; intros self self' u Hnd Hfit column cells Hin;
    simpl in Hfit.
  - by apply not_elem_of_nil in Hin.
  - simpl in Hnd. apply NoDup_cons in Hnd as [Hfresh Hnd].
    destruct (Clamper._get_values_to_keep_from_value_counts (pd.value_counts cells0))
      as [keep | e] eqn:Hkeep; [| discriminate].
    apply elem_of_cons in Hin as [Heq | Hin].
    + injection Heq as -> ->.
      rewrite (fit_columns_lookup_other _ _ _ _ c0 Hfit Hfresh). simpl.
      rewrite lookup_insert_eq. simpl. rewrite Hkeep. reflexivity.
    + exact (IH _ _ _ Hnd Hfit column cells Hin).
Qed.

Lemma Clamper_transform_set_is_fit (self : Clamper.t) (X : pd.table) :
  Clamper.transform (Clamper.set_is_fit self) X = Clamper.transform self X.
Proof.
  induction X as [|[column cells] X IH]; simpl; [reflexivity |].
  rewrite IH. reflexivity.
Qed.

(** The loop of [fit_transform] computes what the loop of [fit] followed by
    [transform] computes, state included. *)
Lemma fit_transform_columns_split (X : pd.table) :
  forall (self : Clamper.t),
    NoDup X.*1 ->
    Clamper.fit_transform_columns self X =
    match Clamper.fit_columns self X with
    | (self', Ok _) => (self', Clamper.transform self' X)
    | (self', Error e) => (self', Error e)
    end
    /\ (forall self' u, Clamper.fit_columns self X = (self', Ok u) ->
          exists T, Clamper.transform self' X = Ok T).
Proof.
  induction X as [|[column cells] X IH]; intros self Hnd; simpl.
  - split; [reflexivity | intros; eexists; reflexivity].
  - simpl in Hnd. apply NoDup_cons in Hnd as [Hfresh Hnd].
    destruct (Clamper._get_values_to_keep_from_value_counts (pd.value_counts cells))
      as [keep | e] eqn:Hkeep.
    + unfold Clamper.clamp_column at 1. simpl. rewrite lookup_insert_eq.
      destruct (IH (Clamper.set_values_to_keep self column keep) Hnd) as [-> Hok].
      destruct (Clamper.fit_columns (Clamper.set_values_to_keep self column keep) X)
        as [self' [u | e]] eqn:Hfit.
      * assert (Hcol : Clamper.values_to_keep self' !! column = Some keep).
        { rewrite (fit_columns_lookup_other _ _ _ _ column Hfit Hfresh).
          simpl. apply lookup_insert_eq. }
        unfold Clamper.clamp_column. rewrite Hcol.
        destruct (Hok self' u eq_refl) as [T HT]. rewrite HT. simpl.
        split; [reflexivity |].
        intros s' u' [= <- _]. rewrite Hcol, HT. simpl. eexists; reflexivity.
      * split; [reflexivity | intros s' u' [=]].
    + split; [reflexivity | intros s' u' [=]].
Qed.

(** C10. [Clamper.transform] is idempotent: transforming the output again
    changes nothing (and a table it rejects is rejected at the first
    application). On a table with distinct column labels, [fit] followed by
    [transform] leaves the same fitted state and the same output as
    [fit_transform]. *)
Theorem clamper_transform_idempotent :
  (forall (self : Clamper.t) (X : pd.table),
     Clamper.transform self X ≫= Clamper.transform self
     = Clamper.transform self X)
  /\
  (forall (self : Clamper.t) (X : pd.table),
     NoDup X.*1 ->
     Clamper.fit_then_transform self X = Clamper.fit_transform self X).
Proof.
  split.
  - intros self X. induction X as [|[column cells] X IH]; simpl; [reflexivity |].
    unfold Clamper.clamp_column.
    destruct (Clamper.values_to_keep self !! column) as [keep|] eqn:Hk; simpl;
      [| reflexivity].
    destruct (Clamper.transform self X) as [T | e] eqn:HT; simpl;
      [| reflexivity].
    unfold Clamper.clamp_column. rewrite Hk. simpl.
    rewrite clamp_cells_idempotent.
    simpl in IH. rewrite IH. reflexivity.
  - intros self X Hnd.
    unfold Clamper.fit_then_transform, Clamper.fit_transform, Clamper.fit.
    destruct (fit_transform_columns_split X self Hnd) as [-> Hok].
    destruct (Clamper.fit_columns self X) as [self' [u | e]] eqn:Hfit; [| reflexivity].
    rewrite Clamper_transform_set_is_fit.
    destruct (Hok self' u eq_refl) as [T ->]. reflexivity.
Qed.

Lemma clamper_transform_idempotent_witness :
  Clamper.fit_then_transform Clamper.__init__ example_table
  = Clamper.fit_transform Clamper.__init__ example_table.
Proof.
  apply (proj2 clamper_transform_idempotent).
  simpl. apply NoDup_singleton.
Defined.

(** ** Rounding to double precision *)

Lemma pow2_pos (k : Z) : 0 < float64.pow2 k.
Proof. unfold float64.pow2. apply Qpower_0_lt. reflexivity. Qed.

Lemma pow2_le (j k : Z) : (j <= k)%Z -> float64.pow2 j <= float64.pow2 k.
Proof.
  intros H. unfold float64.pow2. apply Qpower_le_compat_l; [exact H |].
  discriminate.
Qed.

Lemma pow2_lt_inv (j k : Z) :
  float64.pow2 j < float64.pow2 k -> (j < k)%Z.
Proof.
  unfold float64.pow2. intros H.
  apply (Qpower_lt_compat_l_inv 2 j k); [exact H | reflexivity].
Qed.

Lemma pow2_inject (k : Z) :
  (0 <= k)%Z -> float64.pow2 k == inject_Z (2 ^ k).
Proof.
  intros H. unfold float64.pow2. rewrite Zpower_Qpower by exact H.
  reflexivity.
Qed.

Lemma pow2_plus (j k : Z) :
  float64.pow2 (j + k) == float64.pow2 j * float64.pow2 k.
Proof. unfold float64.pow2. apply Qpower_plus. discriminate. Qed.

(** [ilog2] never overshoots. *)
Lemma ilog2_le (q : Q) : 0 < q -> float64.pow2 (float64.ilog2 q) <= q.
Proof.
  intros Hq. unfold float64.ilog2.
  destruct (Qle_bool _ q) eqn:E; [apply Qle_bool_iff; exact E |].
  destruct q as [n d]. cbn [Qnum Qden].
  assert (Hn : (0 < n)%Z).
  { unfold Qlt in Hq. simpl in Hq. lia. }
  pose proof (Z.log2_spec n Hn) as [Hln _].
  pose proof (Z.log2_spec (Zpos d) ltac:(lia)) as [_ Hld].
  pose proof (Z.log2_nonneg n) as Hln0.
  pose proof (Z.log2_nonneg (Zpos d)) as Hld0.
  set (ln := Z.log2 n) in *. set (ld := Z.log2 (Zpos d)) in *.
  replace (ln - ld - 1)%Z with (ln + - (ld + 1))%Z by lia.
  rewrite pow2_plus. unfold float64.pow2 at 2. rewrite Qpower_opp.
  fold (float64.pow2 (ld + 1)).
  rewrite (pow2_inject ln) by lia. rewrite (pow2_inject (ld + 1)) by lia.
  replace (Z.succ ld) with (ld + 1)%Z in Hld by lia.
  assert (Hpos : (0 < 2 ^ (ld + 1))%Z) by (apply Z.pow_pos_nonneg; lia).
  assert (Hpos' : (0 < 2 ^ ln)%Z) by (apply Z.pow_pos_nonneg; lia).
  destruct (2 ^ (ld + 1))%Z as [| b | b] eqn:Hb; try lia.
  unfold Qle, Qmult, Qinv, inject_Z. simpl.
  nia.
Qed.

(** The nearest integer is at most one half away. *)
Lemma round_half_even_error (m : Q) :
  Qabs (inject_Z (float64.round_half_even m) - m) <= 1 # 2.
Proof.
  unfold float64.round_half_even.
  pose proof (Qfloor_le m) as Hlo. pose proof (Qlt_floor m) as Hhi.
  rewrite inject_Z_plus in Hhi. change (inject_Z 1) with 1 in Hhi.
  set (f := Qfloor m) in *.
  destruct (Qltb (1 # 2) (m - inject_Z f)) eqn:E1.
  - apply Qltb_lt in E1. rewrite inject_Z_plus. change (inject_Z 1) with 1.
    apply Qabs_Qle_condition. split; lra.
  - apply Qltb_ge in E1.
    destruct (Qle_bool (1 # 2) (m - inject_Z f)) eqn:E2.
    + apply Qle_bool_iff in E2. destruct (Z.even f).
      * apply Qabs_Qle_condition. split; lra.
      * rewrite inject_Z_plus. change (inject_Z 1) with 1.
        apply Qabs_Qle_condition. split; lra.
    + apply Qabs_Qle_condition. split; lra.
Qed.

(** Rounding moves a number of magnitude below 2 by at most the unit
    roundoff. *)
Lemma round_error (q : Q) :
  Qabs q < 2 -> Qabs (float64.round q - q) <= float64.unit_roundoff.
Proof.
  intros Hq. unfold float64.round, float64.unit_roundoff.
  destruct (Qeq_bool q 0) eqn:E0.
  { apply Qeq_bool_iff in E0. rewrite E0.
    apply Qabs_Qle_condition.
    pose proof (pow2_pos (-53)). split; lra. }
  apply Qeq_bool_neq in E0.
  assert (Ha : 0 < Qabs q).
  { pose proof (Qabs_nonneg q) as H0. apply Qle_lteq in H0 as [H0 | H0];
      [exact H0 |].
    exfalso. apply E0. symmetry in H0.
    revert H0. apply Qabs_case; intros; lra. }
  set (a := Qabs q) in *.
  assert (He : (float64.ilog2 a < 1)%Z).
  { apply pow2_lt_inv. apply Qle_lt_trans with a; [apply ilog2_le; exact Ha |].
    exact Hq. }
  set (e := Z.max (float64.ilog2 a) (-1022)).
  assert (He' : (e - 52 <= -52)%Z) by (unfold e; lia).
  pose proof (pow2_pos (e - 52)) as Hulp.
  pose proof (pow2_le _ _ He') as Hsmall.
  set (ulp := float64.pow2 (e - 52)) in *.
  pose proof (round_half_even_error (a / ulp)) as Hn.
  set (n := inject_Z (float64.round_half_even (a / ulp))) in *.
  assert (Hhalf : float64.pow2 (-52) == 2 * float64.pow2 (-53)).
  { vm_compute. reflexivity. }
  assert (Hdiff : Qabs (n * ulp - a) <= ulp * (1 # 2)).
  { assert (Heq : n * ulp - a == (n - a / ulp) * ulp) by (field; lra).
    rewrite Heq, Qabs_Qmult, (Qabs_pos ulp) by lra.
    rewrite (Qmult_comm _ ulp). apply Qmult_le_l; [exact Hulp | exact Hn]. }
  apply Qabs_Qle_condition in Hdiff.
  destruct (Qltb q 0) eqn:Es.
  - apply Qltb_lt in Es. assert (Haq : a == - q).
    { unfold a. rewrite Qabs_neg by lra. reflexivity. }
    apply Qabs_Qle_condition. split; lra.
  - apply Qltb_ge in Es. assert (Haq : a == q).
    { unfold a. rewrite Qabs_pos by lra. reflexivity. }
    apply Qabs_Qle_condition. split; lra.
Qed.

(** An integer below [2^53] is a float64. *)
Lemma of_int_exact (z : Z) :
  (0 <= z < 2 ^ 53)%Z -> float64.of_int z == inject_Z z.
Proof.
  intros [Hz0 Hz]. unfold float64.of_int, float64.round.
  destruct (Qeq_bool (inject_Z z) 0) eqn:E0.
  { apply Qeq_bool_iff in E0. symmetry. exact E0. }
  apply Qeq_bool_neq in E0.
  assert (Hzpos : (0 < z)%Z).
  { destruct (Z.eq_dec z 0%Z) as [-> | ]; [exfalso; apply E0; reflexivity | lia]. }
  assert (Habs : Qabs (inject_Z z) = inject_Z z).
  { unfold Qabs, inject_Z. rewrite Z.abs_eq by lia. reflexivity. }
  rewrite Habs.
  assert (Hq : 0 < inject_Z z).
  { change 0 with (inject_Z 0). rewrite <- Zlt_Qlt. exact Hzpos. }
  assert (He : (float64.ilog2 (inject_Z z) < 53)%Z).
  { apply pow2_lt_inv.
    apply Qle_lt_trans with (inject_Z z); [apply ilog2_le; exact Hq |].
    rewrite (pow2_inject 53) by lia. rewrite <- Zlt_Qlt. exact Hz. }
  set (e := Z.max (float64.ilog2 (inject_Z z)) (-1022)).
  assert (He' : (0 <= 52 - e)%Z) by (unfold e; lia).
  assert (Hulp : float64.pow2 (e - 52) == / inject_Z (2 ^ (52 - e))).
  { replace (e - 52)%Z with (- (52 - e))%Z by lia.
    unfold float64.pow2. rewrite Qpower_opp.
    fold (float64.pow2 (52 - e)). rewrite pow2_inject by exact He'.
    reflexivity. }
  assert (Hk : (0 < 2 ^ (52 - e))%Z) by (apply Z.pow_pos_nonneg; lia).
  assert (Hkq : 0 < inject_Z (2 ^ (52 - e))).
  { change 0 with (inject_Z 0). rewrite <- Zlt_Qlt. exact Hk. }
  assert (Hm : inject_Z z / float64.pow2 (e - 52)
               == inject_Z (z * 2 ^ (52 - e))).
  { rewrite Hulp, inject_Z_mult. field. lra. }
  assert (Hr : float64.round_half_even (inject_Z z / float64.pow2 (e - 52))
               = (z * 2 ^ (52 - e))%Z).
  { unfold float64.round_half_even.
    assert (Hf : Qfloor (inject_Z z / float64.pow2 (e - 52))
                 = (z * 2 ^ (52 - e))%Z).
    { rewrite (Qfloor_comp _ _ Hm). apply Qfloor_Z. }
    rewrite Hf.
    assert (E1 : Qltb (1 # 2)
                   (inject_Z z / float64.pow2 (e - 52)
                    - inject_Z (z * 2 ^ (52 - e))) = false).
    { apply Qltb_ge. rewrite Hm. lra. }
    assert (E2 : Qle_bool (1 # 2)
                   (inject_Z z / float64.pow2 (e - 52)
                    - inject_Z (z * 2 ^ (52 - e))) = false).
    { destruct (Qle_bool _ _) eqn:E; [| reflexivity].
      apply Qle_bool_iff in E. rewrite Hm in E. lra. }
    rewrite E1, E2. reflexivity. }
  fold e. rewrite Hr.
  assert (Es : Qltb (inject_Z z) 0 = false) by (apply Qltb_ge; lra).
  rewrite Es, Hulp, inject_Z_mult. field. lra.
Qed.

Lemma Qdiv_proper_fraction (c d : Z) :
  (0 < c <= d)%Z -> 0 < inject_Z c / inject_Z d <= 1.
Proof.
  intros [Hc Hd].
  assert (Hcq : 0 < inject_Z c).
  { change 0 with (inject_Z 0). rewrite <- Zlt_Qlt. exact Hc. }
  assert (Hdq : 0 < inject_Z d).
  { change 0 with (inject_Z 0). rewrite <- Zlt_Qlt. lia. }
  split.
  - apply Qlt_shift_div_l; [exact Hdq |]. rewrite Qmult_0_l. exact Hcq.
  - apply Qle_shift_div_r; [exact Hdq |]. rewrite Qmult_1_l.
    rewrite <- Zle_Qle. exact Hd.
Qed.

(** One entry of [abs(count_p - min_p_increase)] against the exact
    distance: three roundings, each of a number of magnitude below 2. *)
Lemma distance_accuracy (c total : Z) (n : nat) :
  (0 < c <= total)%Z -> (total < 2 ^ 53)%Z -> (0 < n)%nat ->
  Qabs (Qabs (float64.sub
                (float64.div (float64.of_int c) (float64.of_int total))
                (float64.round (1 / Q_of_nat n)))
        - Qabs (inject_Z c / inject_Z total - 1 / Q_of_nat n))
  <= 3 * float64.unit_roundoff.
Proof.
  intros Hc Htotal Hn.
  assert (Hu : 0 < float64.unit_roundoff /\ float64.unit_roundoff <= 1 # 4).
  { split; [apply pow2_pos | vm_compute; discriminate]. }
  set (u := float64.unit_roundoff) in *.
  pose proof (of_int_exact c ltac:(lia)) as Hfc.
  pose proof (of_int_exact total ltac:(lia)) as Hft.
  pose proof (Qdiv_proper_fraction c total Hc) as Hx.
  assert (Hy : 0 < 1 / Q_of_nat n <= 1).
  { change 1 with (inject_Z 1) at 1 3. unfold Q_of_nat.
    apply Qdiv_proper_fraction. lia. }
  assert (Hxeq : float64.of_int c / float64.of_int total
                 == inject_Z c / inject_Z total).
  { rewrite Hfc, Hft. reflexivity. }
  set (x := float64.of_int c / float64.of_int total) in *.
  set (x0 := inject_Z c / inject_Z total) in *.
  set (y := 1 / Q_of_nat n) in *.
  assert (Hp : Qabs (float64.round x - x) <= u).
  { apply round_error. rewrite Hxeq, Qabs_pos by lra. lra. }
  assert (Ht : Qabs (float64.round y - y) <= u).
  { apply round_error. rewrite Qabs_pos by lra. lra. }
  unfold float64.div, float64.sub. fold x.
  set (p := float64.round x) in *. set (t := float64.round y) in *.
  apply Qabs_Qle_condition in Hp, Ht.
  assert (Hd : Qabs (float64.round (p - t) - (p - t)) <= u).
  { apply round_error. apply Qabs_Qlt_condition. split; lra. }
  set (d := float64.round (p - t)) in *.
  apply Qabs_Qle_condition in Hd.
  assert (Hdiff : Qabs (d - (x0 - y)) <= 3 * u).
  { apply Qabs_Qle_condition. split; lra. }
  apply Qabs_Qle_condition. split.
  - pose proof (Qabs_triangle_reverse (x0 - y) d) as Hrev.
    rewrite (Qabs_Qminus (x0 - y) d) in Hrev. lra.
  - pose proof (Qabs_triangle_reverse d (x0 - y)) as Hrev. lra.
Qed.

Lemma sum_counts_member (ps : list positive) (c : positive) :
  c ∈ ps -> (Zpos c <= Clamper.sum_counts (Zpos <$> ps))%Z.
Proof.
  induction ps as [|p ps IH]; intros Hc; [by apply not_elem_of_nil in Hc |].
  assert (Hnonneg : (0 <= Clamper.sum_counts (Zpos <$> ps))%Z).
  { clear. induction ps as [|q ps IH]; [reflexivity |].
    csimpl. unfold Clamper.sum_counts in *. simpl. lia. }
  csimpl. unfold Clamper.sum_counts in *. simpl.
  apply elem_of_cons in Hc as [-> | Hc]; [lia |].
  specialize (IH Hc). lia.
Qed.

(** The computed distances against the exact ones. *)
Lemma distances_accuracy (vc : list (string * positive)) :
  vc <> [] ->
  (Clamper.sum_counts (Zpos <$> vc.*2) < 2 ^ 53)%Z ->
  Forall2 (fun e x => Qabs (e - x) <= 3 * float64.unit_roundoff)
    ((fun p =>
        Qabs (float64.sub p (float64.round (1 / Q_of_nat (length vc)))))
       <$> Clamper.count_p vc)
    (exact_distances vc).
Proof.
  intros Hne Htotal. unfold exact_distances, exact_frequencies, Clamper.count_p.
  set (total := Clamper.sum_counts (Zpos <$> vc.*2)) in *.
  rewrite <- !list_fmap_compose.
  apply Forall2_fmap, Forall_Forall2_diag, Forall_forall.
  intros [name c] Hc. cbn [compose snd].
  apply distance_accuracy;
    [| exact Htotal | destruct vc; [congruence | simpl; lia]].
  split; [lia |]. unfold total. apply sum_counts_member.
  apply list_elem_of_fmap. exists (name, c). split; [reflexivity | exact Hc].
Qed.

(** C4, as the code has it. The values retained for a column are the
    categories that come, in [value_counts] order (most frequent first),
    before the first category that minimises the distance
    [|count/total - 1/n|] as the code computes it, in double precision
    ([n] the number of distinct categories); that category itself and all
    later ones are dropped. For a column of fewer than [2^53] rows every
    computed distance is within three unit roundoffs of the exact one, so
    the category at the cut is nearest to [1/n] up to six unit roundoffs,
    and between categories whose exact distances tie the rounding
    decides. A fit that goes through stores exactly this list for every
    column, and [transform] rewrites every cell that is not in the stored
    list to "other" and leaves the others as they are. *)
Theorem clamper_keeps_prefix_before_nearest :
  (forall (vc : list (string * positive)),
     vc <> [] ->
     let distance :=
       (fun p =>
          Qabs (float64.sub p (float64.round (1 / Q_of_nat (length vc)))))
         <$> Clamper.count_p vc in
     exists (k : nat) (d : Q),
       Clamper._get_values_to_keep_from_value_counts vc = Ok (take k vc.*1) /\
       distance !! k = Some d /\
       (forall j e, distance !! j = Some e -> d <= e) /\
       (forall j e, (j < k)%nat -> distance !! j = Some e -> d < e) /\
       ((Clamper.sum_counts (Zpos <$> vc.*2) < 2 ^ 53)%Z ->
        Forall2 (fun e x => Qabs (e - x) <= 3 * float64.unit_roundoff)
          distance (exact_distances vc)
        /\ exists x,
             exact_distances vc !! k = Some x /\
             forall j y, exact_distances vc !! j = Some y ->
                         x <= y + 6 * float64.unit_roundoff))
  /\
  (forall (self self' : Clamper.t) (X : pd.table),
     NoDup X.*1 ->
     Clamper.fit self X = (self', Ok ()) ->
     forall column cells, (column, cells) ∈ X ->
       exists keep,
         Clamper.values_to_keep self' !! column = Some keep /\
         Clamper._get_values_to_keep_from_value_counts (pd.value_counts cells)
         = Ok keep)
  /\
  (forall (self : Clamper.t) (X T : pd.table),
     Clamper.transform self X = Ok T ->
     Forall2 (fun c c' =>
                c'.1 = c.1 /\
                exists keep, Clamper.values_to_keep self !! c.1 = Some keep /\
                  Forall2 (fun v v' =>
                             v' = if pd.isin keep v then v else Some "other")
                          c.2 c'.2)
             X T).
Proof.
  split; [| split].
  - intros vc Hne distance.
    unfold Clamper._get_values_to_keep_from_value_counts.
    rewrite length_fmap.
    destruct (decide (length vc = 0%nat)) as [Hz | _].
    { destruct vc; [congruence | discriminate]. }
    fold distance.
    assert (Hd : distance <> []).
    { unfold distance, Clamper.count_p. intros Hnil.
      repeat apply fmap_nil_inv in Hnil. congruence. }
    destruct (argmin_nonempty _ Hd) as (k & Hk & _).
    destruct (argmin_spec _ _ Hk) as (d & Hkd & Hmin & Hfirst).
    exists k, d. rewrite Hk. simpl.
    split; [reflexivity |]. split; [exact Hkd |]. split; [exact Hmin |].
    split; [exact Hfirst |].
    intros Htotal.
    pose proof (distances_accuracy vc Hne Htotal) as Hacc.
    fold distance in Hacc. split; [exact Hacc |].
    destruct (Forall2_lookup_l _ _ _ _ _ Hacc Hkd) as (x & Hx & Hdx).
    exists x. split; [exact Hx |].
    intros j y Hy.
    destruct (Forall2_lookup_r _ _ _ _ _ Hacc Hy) as (e & He & Hey).
    specialize (Hmin j e He).
    apply Qabs_Qle_condition in Hdx, Hey. lra.
  - intros self self' X Hnd Hfit column cells Hin.
    unfold Clamper.fit in Hfit.
    destruct (Clamper.fit_columns self X) as [s [u | e]] eqn:Hcols;
      [| discriminate].
    injection Hfit as <-.
    pose proof (fit_columns_lookup X self s u Hnd Hcols column cells Hin) as H.
    simpl.
    destruct (Clamper.values_to_keep s !! column) as [keep|]; [| discriminate].
    exists keep. split; [reflexivity |].
    simpl in H. injection H as <-. reflexivity.
  - intros self X. induction X as [|[column cells] X IH]; intros T HT;
      simpl in HT.
    + injection HT as <-. constructor.
    + unfold Clamper.clamp_column in HT.
      destruct (Clamper.values_to_keep self !! column) as [keep|] eqn:Hk;
        [| discriminate].
      simpl in HT.
      destruct (Clamper.transform self X) as [T' | e]; [| discriminate].
      simpl in HT. injection HT as <-.
      constructor; [| apply IH; reflexivity].
      simpl. split; [reflexivity |].
      exists keep. split; [exact Hk | apply clamp_cells_pointwise].
Qed.

Lemma clamper_keeps_prefix_before_nearest_witness :
  (exists (k : nat) (d : Q),
     Clamper._get_values_to_keep_from_value_counts (pd.value_counts example_column)
     = Ok (take k (pd.value_counts example_column).*1) /\
     ((fun p => Qabs (float64.sub p (float64.round (1 / Q_of_nat 4)))) <$>
        Clamper.count_p (pd.value_counts example_column)) !! k = Some d)
  /\ Forall2 (fun c c' => c'.1 = c.1)
       example_table
       [("vessel_type", (fun _ => Some "other") <$> example_column)]
  /\ (exists x,
        exact_distances (pd.value_counts tied_column) = [x; x]
        /\ Clamper._get_values_to_keep_from_value_counts
             (pd.value_counts tied_column) = Ok ["a"]).
Proof.
  split; [| split].
  - destruct (proj1 clamper_keeps_prefix_before_nearest
                (pd.value_counts example_column))
      as (k & d & Hk & Hd & _).
    + vm_compute. discriminate.
    + exists k, d. split; [exact Hk | exact Hd].
  - assert (HT : Clamper.transform
                   (fst (Clamper.fit Clamper.__init__ example_table)) example_table
                 = Ok [("vessel_type", (fun _ => Some "other") <$> example_column)]).
    { vm_compute. reflexivity. }
    pose proof (proj2 (proj2 clamper_keeps_prefix_before_nearest) _ _ _ HT) as H.
    eapply Forall2_impl; [exact H |].
    intros c c' [Hname _]. exact Hname.
  - eexists. split; vm_compute; reflexivity.
Defined.

(** C4, as stated, fails. For a column whose four categories have
    frequencies 3/8, 3/8, 1/8, 1/8 all four are at the same distance from
    the threshold 1/4, so the code retains nothing and every cell becomes
    "other"; the shortest prefix crossing the threshold holds "a" under the
    cumulative reading and "a", "b" under the marginal one. *)
Lemma clamper_not_minimal_crossing_prefix :
  let vc := pd.value_counts example_column in
  Clamper._get_values_to_keep_from_value_counts vc = Ok []
  /\ Clamper._get_values_to_keep_from_value_counts vc
     <> Ok (spec_values_to_keep_cumulative vc)
  /\ Clamper._get_values_to_keep_from_value_counts vc
     <> Ok (spec_values_to_keep_marginal vc)
  /\ (Clamper.fit_transform Clamper.__init__ example_table).2
     = Ok [("vessel_type", (fun _ => Some "other") <$> example_column)].
Proof.
  vm_compute. repeat split; discriminate.
Qed.

Example sdp_examples :
  (exists x, strong_demographic_parity_score (Array1D [0; 1]%Z) example_y_prob
             = Ok (PyNum x) /\ x == 1)
  /\ (exists x, strong_demographic_parity_score (Array1D [0; 0]%Z) example_y_prob
                = Ok (PyNum x) /\ x == 1)
  /\ (exists x, strong_demographic_parity_score (Array1D [0; 1; 0; 1]%Z)
                  [Fin (1#2); Fin (1#2); Fin (1#2); Fin (1#2)] = Ok (PyNum x)
                /\ x == 0)
  /\ strong_demographic_parity_score example_two_columns example_y_prob
    = Error TypeError
  /\ (exists a b, sensitive_aucs_loop (as_columns example_two_columns)
                    example_y_prob = Ok [a; b] /\ a == 1 /\ b == 1).
Proof.
  repeat split; try (vm_compute; reflexivity);
    repeat eexists; try (vm_compute; reflexivity).
Qed.

(** ** The ROC AUC lies between 0 and 1 *)

Lemma credit2_bounds (p : Q) (negs : list Q) :
  (0 <= sklearn.credit2 p negs <= 2 * Z.of_nat (length negs))%Z.
Proof.
  induction negs as [|n negs IH]; simpl sklearn.credit2; simpl length.
  - lia.
  - destruct (Qltb n p); [| destruct (Qltb p n)]; lia.
Qed.

Lemma concordance2_bounds (poss negs : list Q) :
  (0 <= sklearn.concordance2 poss negs
     <= 2 * Z.of_nat (length poss) * Z.of_nat (length negs))%Z.
Proof.
  induction poss as [|p poss IH]; simpl sklearn.concordance2; simpl length.
  - lia.
  - pose proof (credit2_bounds p negs). nia.
Qed.

Lemma Qdiv_unit_interval (c d : Z) :
  (0 <= c <= d)%Z -> 0 <= inject_Z c / inject_Z d <= 1.
Proof.
  intros [Hc Hd].
  destruct (Z.eq_dec d 0%Z) as [-> | Hnz].
  - assert (c = 0%Z) as -> by lia. split; vm_compute; discriminate.
  - assert (Hpos : 0 < inject_Z d).
    { change 0 with (inject_Z 0). rewrite <- Zlt_Qlt. lia. }
    split.
    + apply Qle_shift_div_l; [exact Hpos |].
      rewrite Qmult_0_l. change 0 with (inject_Z 0). rewrite <- Zle_Qle. lia.
    + apply Qle_shift_div_r; [exact Hpos |].
      rewrite Qmult_1_l. rewrite <- Zle_Qle. lia.
Qed.

Lemma roc_auc_score_bounds (y_true : list Z) (y_score : list pyfloat) (auc : Q) :
  sklearn.roc_auc_score y_true y_score = Ok auc -> 0 <= auc <= 1.
Proof.
  unfold sklearn.roc_auc_score.
  destruct (decide (length y_true = length y_score)); [| discriminate].
  destruct (finite_values y_score) as [scores|]; [| discriminate].
  destruct (np.unique y_true) as [|a [|b [|c u]]]; try discriminate.
  intros [= <-]. apply Qdiv_unit_interval.
  pose proof (concordance2_bounds (sklearn.scores_of b y_true scores)
                (sklearn.scores_of a y_true scores)).
  lia.
Qed.

Lemma py_max_bounds (a b lo hi : Q) :
  lo <= a <= hi -> lo <= b <= hi -> lo <= py_max a b <= hi.
Proof.
  intros Ha Hb. unfold py_max. destruct (Qltb a b); assumption.
Qed.

Lemma sens_auc_loop_bounds (column : list Z) (y_prob : list pyfloat)
    (uniques : list Z) :
  forall (acc r : Q),
    0 <= acc <= 1 ->
    sens_auc_loop acc column y_prob uniques = Ok r ->
    0 <= r <= 1.
Proof.
  induction uniques as [|s_unique uniques IH]; intros acc r Hacc Hr;
    simpl in Hr.
  - injection Hr as <-. exact Hacc.
  - destruct (sklearn.roc_auc_score _ y_prob) as [auc | e] eqn:Hauc;
      [| discriminate].
    simpl in Hr. apply roc_auc_score_bounds in Hauc.
    assert (Hsym : 0 <= 1 - auc <= 1) by lra.
    pose proof (py_max_bounds _ _ 0 1 Hsym Hauc) as Hinner.
    exact (IH _ r (py_max_bounds _ _ 0 1 Hacc Hinner) Hr).
Qed.

Lemma column_auc_bounds (column : list Z) (y_prob : list pyfloat) (a : Q) :
  column_auc column y_prob = Ok a -> 0 <= a <= 1.
Proof.
  unfold column_auc. destruct (decide _).
  - intros [= <-]. lra.
  - apply sens_auc_loop_bounds. lra.
Qed.

Lemma Qabs_affine_unit (a : Q) :
  0 <= a <= 1 -> 0 <= Qabs (Q_of_nat 2 * a - Q_of_nat 1) <= 1.
Proof.
  intros Ha. change (Q_of_nat 2) with 2. change (Q_of_nat 1) with 1.
  split; [apply Qabs_nonneg |].
  apply Qabs_case; intros; lra.
Qed.

(** ** [np.unique]: the sorted distinct values *)

Lemma insert_unique_elem (x y : Z) (l : list Z) :
  y ∈ np.insert_unique x l <-> y = x \/ y ∈ l.
Proof.
  induction l as [|z l IH]; simpl.
  - rewrite list_elem_of_singleton. rewrite elem_of_nil. tauto.
  - destruct (x <? z)%Z eqn:Hlt; [| destruct (x =? z)%Z eqn:Heq].
    + rewrite elem_of_cons. tauto.
    + apply Z.eqb_eq in Heq. subst z. rewrite elem_of_cons. tauto.
    + rewrite !elem_of_cons, IH. tauto.
Qed.

Lemma unique_elem (x : Z) (l : list Z) : x ∈ np.unique l <-> x ∈ l.
Proof.
  unfold np.unique. induction l as [|z l IH]; simpl.
  - reflexivity.
  - rewrite insert_unique_elem, elem_of_cons, IH. reflexivity.
Qed.

Lemma insert_unique_sorted (x : Z) (l : list Z) :
  StronglySorted Z.lt l -> StronglySorted Z.lt (np.insert_unique x l).
Proof.
  induction l as [|z l IH]; intros Hs; simpl.
  - repeat constructor.
  - apply StronglySorted_inv in Hs as [Hl Hz].
    destruct (x <? z)%Z eqn:Hlt; [| destruct (x =? z)%Z eqn:Heq].
    + apply Z.ltb_lt in Hlt. constructor.
      * constructor; assumption.
      * constructor; [exact Hlt |].
        eapply Forall_impl; [exact Hz | intros w Hw; simpl in *; lia].
    + constructor; assumption.
    + apply Z.ltb_ge in Hlt. apply Z.eqb_neq in Heq.
      constructor; [apply IH; exact Hl |].
      apply Forall_forall. intros w Hw.
      apply insert_unique_elem in Hw as [-> | Hw].
      * lia.
      * rewrite Forall_forall in Hz. apply Hz. exact Hw.
Qed.

Lemma unique_sorted (l : list Z) : StronglySorted Z.lt (np.unique l).
Proof.
  unfold np.unique. induction l as [|z l IH]; simpl.
  - constructor.
  - apply insert_unique_sorted. exact IH.
Qed.

(** Zero-one labels holding both classes have [0; 1] as distinct values. *)
Lemma unique_binary (l : list Z) :
  (forall x, x ∈ l -> x = 0%Z \/ x = 1%Z) ->
  0%Z ∈ l -> 1%Z ∈ l ->
  np.unique l = [0%Z; 1%Z].
Proof.
  intros Hbin H0 H1.
  pose proof (unique_sorted l) as Hs.
  assert (Hb : forall x, x ∈ np.unique l -> x = 0%Z \/ x = 1%Z).
  { intros x Hx. apply Hbin. apply unique_elem. exact Hx. }
  apply (proj2 (unique_elem _ _)) in H0.
  apply (proj2 (unique_elem _ _)) in H1.
  destruct (np.unique l) as [|a u]; [by apply not_elem_of_nil in H0 |].
  apply StronglySorted_inv in Hs as [Hu Ha]. rewrite Forall_forall in Ha.
  assert (a = 0%Z) as ->.
  { destruct (Hb a) as [-> | ->]; [left | reflexivity |].
    apply elem_of_cons in H0 as [H0 | H0]; [discriminate |].
    specialize (Ha _ H0). lia. }
  apply elem_of_cons in H1 as [H1 | H1]; [discriminate |].
  destruct u as [|b u]; [by apply not_elem_of_nil in H1 |].
  apply StronglySorted_inv in Hu as [Hu' Hbs]. rewrite Forall_forall in Hbs.
  assert (b = 1%Z) as ->.
  { destruct (Hb b) as [-> | ->]; [right; left | | reflexivity].
    specialize (Ha 0%Z ltac:(left)). lia. }
  destruct u as [|c u]; [reflexivity |].
  exfalso. specialize (Hbs c ltac:(left)).
  destruct (Hb c) as [-> | ->]; [right; right; left | lia | lia].
Qed.

Lemma sorted_other_value (u : list Z) (x : Z) :
  StronglySorted Z.lt u -> x ∈ u -> length u <> 1%nat ->
  exists y, y ∈ u /\ y <> x.
Proof.
  intros Hs Hx Hlen.
  destruct u as [|a [|b u]]; [by apply not_elem_of_nil in Hx | done |].
  apply StronglySorted_inv in Hs as [_ Ha]. rewrite Forall_forall in Ha.
  specialize (Ha b ltac:(left)).
  destruct (decide (a = x)) as [-> | Hne].
  - exists b. split; [right; left | lia].
  - exists a. split; [left | exact Hne].
Qed.

(** The indicator of one value of a column that takes another value too
    holds both classes. *)
Lemma indicator_unique (column : list Z) (s_unique : Z) :
  s_unique ∈ np.unique column ->
  length (np.unique column) <> 1%nat ->
  np.unique ((fun v => Z.b2z (v =? s_unique)%Z) <$> column) = [0%Z; 1%Z].
Proof.
  intros Hin Hlen.
  destruct (sorted_other_value _ _ (unique_sorted column) Hin Hlen)
    as (y & Hy & Hne).
  apply (proj1 (unique_elem _ _)) in Hin.
  apply (proj1 (unique_elem _ _)) in Hy.
  apply unique_binary.
  - intros x Hx. apply list_elem_of_fmap in Hx as (v & -> & _).
    destruct (v =? s_unique)%Z; [right | left]; reflexivity.
  - apply list_elem_of_fmap. exists y. split; [| exact Hy].
    apply Z.eqb_neq in Hne. rewrite Hne. reflexivity.
  - apply list_elem_of_fmap. exists s_unique. split; [| exact Hin].
    rewrite Z.eqb_refl. reflexivity.
Qed.

Lemma sens_auc_loop_total (column : list Z) (y_prob : list pyfloat)
    (scores : list Q) (uniques : list Z) :
  finite_values y_prob = Some scores ->
  length column = length y_prob ->
  length (np.unique column) <> 1%nat ->
  (forall s_unique, s_unique ∈ uniques -> s_unique ∈ np.unique column) ->
  forall acc, exists r, sens_auc_loop acc column y_prob uniques = Ok r.
Proof.
  intros Hfin Hlen Hdeg.
  induction uniques as [|s_unique uniques IH]; intros Hsub acc; simpl.
  - eexists; reflexivity.
  - unfold sklearn.roc_auc_score.
    rewrite length_fmap.
    destruct (decide (length column = length y_prob)); [| contradiction].
    rewrite Hfin.
    rewrite (indicator_unique column s_unique (Hsub _ ltac:(left)) Hdeg).
    simpl. apply IH. intros s Hs. apply Hsub. right. exact Hs.
Qed.

Lemma column_auc_total (column : list Z) (y_prob : list pyfloat)
    (scores : list Q) :
  finite_values y_prob = Some scores ->
  length column = length y_prob ->
  exists a, column_auc column y_prob = Ok a.
Proof.
  intros Hfin Hlen. unfold column_auc.
  destruct (decide (length (np.unique column) = 1%nat)) as [|Hdeg].
  - eexists; reflexivity.
  - apply (sens_auc_loop_total column y_prob scores); auto.
Qed.

(** ** Fairness metric: strong demographic parity *)

Lemma sensitive_aucs_loop_length (columns : list (list Z))
    (y_prob : list pyfloat) :
  forall aucs, sensitive_aucs_loop columns y_prob = Ok aucs ->
               length aucs = length columns.
Proof.
  induction columns as [|column columns IH]; intros aucs H; simpl in H.
  - injection H as <-. reflexivity.
  - destruct (column_auc column y_prob) as [a | e]; [| discriminate].
    simpl in H.
    destruct (sensitive_aucs_loop columns y_prob) as [l | e]; [| discriminate].
    simpl in H. injection H as <-. simpl. rewrite (IH l eq_refl). reflexivity.
Qed.

(** With anything but one protected column the per-column scores stay a
    Python list, and [2*s_auc-1] has no meaning for a list. *)
Lemma sdp_not_one_column (s : sensitive) (y_prob : list pyfloat) :
  length (as_columns s) <> 1%nat ->
  strong_demographic_parity_score s y_prob =
  match sensitive_aucs_loop (as_columns s) y_prob with
  | Ok _ => Error TypeError
  | Error e => Error e
  end.
Proof.
  intros Hlen. unfold strong_demographic_parity_score.
  destruct (sensitive_aucs_loop (as_columns s) y_prob) as [aucs | e] eqn:H;
    [| reflexivity].
  apply sensitive_aucs_loop_length in H.
  destruct aucs as [|a [|b aucs]]; simpl; try reflexivity.
  simpl in H. congruence.
Qed.

(** With one protected column the result is [|2*a - 1|] for the score [a]
    of that column. *)
Lemma sdp_one_column (s : sensitive) (column : list Z) (y_prob : list pyfloat) :
  as_columns s = [column] ->
  strong_demographic_parity_score s y_prob =
  (a ← column_auc column y_prob;
   Ok (PyNum (Qabs (Q_of_nat 2 * a - Q_of_nat 1)))).
Proof.
  intros Hs. unfold strong_demographic_parity_score. rewrite Hs. simpl.
  destruct (column_auc column y_prob); reflexivity.
Qed.

(** C1. The code does not do what the claim describes: with two or more
    protected columns [strong_demographic_parity_score] never returns.
    Once the per-column scores are computed, [2*s_auc] repeats the Python
    list and subtracting 1 from it is a [TypeError]; no sequence of
    transformed scores comes back. *)
Theorem sdp_multi_column_type_error :
  forall (columns : list (list Z)) (y_prob : list pyfloat),
    (2 <= length columns)%nat ->
    (forall aucs, sensitive_aucs_loop columns y_prob = Ok aucs ->
       strong_demographic_parity_score (Array2D columns) y_prob
       = Error TypeError)
    /\ (forall v, strong_demographic_parity_score (Array2D columns) y_prob
                  <> Ok v).
Proof.
  intros columns y_prob Hlen.
  assert (H : strong_demographic_parity_score (Array2D columns) y_prob =
              match sensitive_aucs_loop columns y_prob with
              | Ok _ => Error TypeError
              | Error e => Error e
              end).
  { apply (sdp_not_one_column (Array2D columns)). simpl. lia. }
  split.
  - intros aucs Haucs. rewrite H, Haucs. reflexivity.
  - intros v. rewrite H.
    destruct (sensitive_aucs_loop columns y_prob); discriminate.
Qed.

Lemma sdp_multi_column_type_error_witness :
  strong_demographic_parity_score example_two_columns example_y_prob
  = Error TypeError.
Proof.
  eapply (proj1 (sdp_multi_column_type_error [[0; 1]; [1; 0]]%Z
                   example_y_prob ltac:(simpl; lia))).
  vm_compute. reflexivity.
Defined.

(** C9. For one protected column the score lies in the unit interval: it
    is returned for every finite [y_prob] of the column's length, and a
    column with a single distinct value scores 1. For several protected
    columns, which the claim includes, no value is returned at all: the
    call ends in a [TypeError]. *)
Theorem sdp_unit_interval_one_column_only :
  (forall (s : sensitive) (column : list Z) (y_prob : list pyfloat)
          (scores : list Q),
     as_columns s = [column] ->
     finite_values y_prob = Some scores ->
     length column = length y_prob ->
     exists x, strong_demographic_parity_score s y_prob = Ok (PyNum x)
               /\ 0 <= x <= 1)
  /\
  (forall (s : sensitive) (column : list Z) (y_prob : list pyfloat),
     as_columns s = [column] ->
     length (np.unique column) = 1%nat ->
     exists x, strong_demographic_parity_score s y_prob = Ok (PyNum x)
               /\ x == 1)
  /\
  (forall (s : sensitive) (y_prob : list pyfloat) (v : pyvalue),
     strong_demographic_parity_score s y_prob = Ok v ->
     exists column x, as_columns s = [column] /\ v = PyNum x /\ 0 <= x <= 1)
  /\
  strong_demographic_parity_score example_two_columns example_y_prob
  = Error TypeError.
Proof.
  split; [| split; [| split]].
  - intros s column y_prob scores Hs Hfin Hlen.
    rewrite (sdp_one_column s column y_prob Hs).
    destruct (column_auc_total column y_prob scores Hfin Hlen) as [a Ha].
    rewrite Ha. simpl. eexists. split; [reflexivity |].
    apply Qabs_affine_unit. apply (column_auc_bounds _ _ _ Ha).
  - intros s column y_prob Hs Hdeg.
    rewrite (sdp_one_column s column y_prob Hs).
    unfold column_auc. destruct (decide _); [| contradiction].
    simpl. eexists. split; [reflexivity |]. vm_compute. reflexivity.
  - intros s y_prob v Hv.
    destruct (decide (length (as_columns s) = 1%nat)) as [Hone | Hnot].
    + destruct (as_columns s) as [|column [|c cs]] eqn:Hs; try discriminate.
      rewrite (sdp_one_column s column y_prob Hs) in Hv.
      destruct (column_auc column y_prob) as [a | e] eqn:Ha; [| discriminate].
      simpl in Hv. injection Hv as <-.
      exists column. eexists. split; [reflexivity | split; [reflexivity |]].
      apply Qabs_affine_unit. apply (column_auc_bounds _ _ _ Ha).
    + rewrite (sdp_not_one_column s y_prob Hnot) in Hv.
      destruct (sensitive_aucs_loop (as_columns s) y_prob); discriminate.
  - vm_compute. reflexivity.
Qed.

Lemma sdp_unit_interval_one_column_only_witness :
  (exists x, strong_demographic_parity_score (Array1D [0; 1; 1; 0]%Z)
               [Fin (1 # 10); Fin (7 # 10); Fin (4 # 10); Fin (4 # 10)]
             = Ok (PyNum x) /\ 0 <= x <= 1)
  /\
  (exists x, strong_demographic_parity_score (Array1D [1; 1; 1]%Z)
               [Fin (1 # 10); NaN; PInf]
             = Ok (PyNum x) /\ x == 1).
Proof.
  split.
  - eapply (proj1 sdp_unit_interval_one_column_only (Array1D [0; 1; 1; 0]%Z)).
    + reflexivity.
    + reflexivity.
    + reflexivity.
  - eapply (proj1 (proj2 sdp_unit_interval_one_column_only)
              (Array1D [1; 1; 1]%Z)).
    + reflexivity.
    + reflexivity.
Defined.

Example outer_train_labels :
  example.outer_train.*1 = [1; 2; 3; 4; 5; 6; 7; 8; 9; 11]%nat.
Proof. vm_compute. reflexivity. Qed.

Example evaluator_examples :
  (exists a b,
     fal.cross_val_score_custom example.sensitive_col
       model_selection.round_robin
       (fun _ _ _ _ X_test => example.oracle X_test)
       example.fal_params example.X example.y 10 = Ok (a, b)
     /\ a == 1 /\ b == 1)
  /\ (exists a b,
     fal.cross_val_score_custom example.sensitive_col
       model_selection.round_robin
       (fun _ _ _ _ X_test => example.diverged X_test)
       example.fal_params example.X example.y 10 = Ok (a, b)
     /\ a == 1 # 2 /\ b == 1 # 2)
  /\ frf.cross_val_score_custom example.sensitive_col
       model_selection.round_robin
       (fun _ _ _ _ X_test => example.diverged X_test)
       (frf.mkModel 42 example.frf_params) example.X example.y K
     = Error ValueError
  /\ lr.cross_val_score_custom model_selection.round_robin
       (fun _ _ _ X_test => example.diverged X_test)
       (lr.mkModel example.lr_params 42 "saga") example.X example.y example.s K
     = Error ValueError.
Proof.
  repeat split; try (vm_compute; reflexivity);
    repeat eexists; try (vm_compute; reflexivity).
Qed.

(** ** The folds of the evaluator *)

Lemma rows_isin_elem {A} (X : pd.frame A) (idx : list nat) (r : nat * A) :
  r ∈ pd.rows_isin X idx <-> r.1 ∈ idx /\ r ∈ X.
Proof.
  unfold pd.rows_isin.
  apply (list_elem_of_filter (fun r : nat * A => r.1 ∈ idx) X r).
Qed.

(** Every fold of the splitter partitions the positions [0 .. n_samples-1]
    according to one assignment of test fold numbers. *)
Lemma split_fold_shape (make_test_folds : nat -> list string -> result (list nat))
    (n_splits n_samples : nat) (y : list string)
    (folds : list (list nat * list nat)) (fold : list nat * list nat) :
  model_selection.split make_test_folds n_splits n_samples y = Ok folds ->
  fold ∈ folds ->
  exists (test_folds : list nat) (i : nat),
    fold = (filter (fun p => test_folds !! p <> Some i) (seq 0 n_samples),
            filter (fun p => test_folds !! p = Some i) (seq 0 n_samples)).
Proof.
  unfold model_selection.split.
  destruct (decide (n_splits < 2)%nat); [discriminate |].
  destruct (decide (n_samples < n_splits)%nat); [discriminate |].
  destruct (make_test_folds n_splits y) as [test_folds | e]; [| discriminate].
  simpl. intros [= <-] Hin.
  apply list_elem_of_fmap in Hin as (i & -> & _).
  exists test_folds, i. reflexivity.
Qed.

Lemma split_fold_positions (make_test_folds : nat -> list string -> result (list nat))
    (n_splits n_samples : nat) (y : list string)
    (folds : list (list nat * list nat)) (fold : list nat * list nat) :
  model_selection.split make_test_folds n_splits n_samples y = Ok folds ->
  fold ∈ folds ->
  (forall p, p ∈ fold.1 -> (p < n_samples)%nat)
  /\ (forall p, p ∈ fold.2 -> (p < n_samples)%nat)
  /\ (forall p, p ∈ fold.1 -> p ∈ fold.2 -> False)
  /\ (forall p, (p < n_samples)%nat -> p ∈ fold.1 \/ p ∈ fold.2).
Proof.
  intros Hsplit Hin.
  destruct (split_fold_shape _ _ _ _ _ _ Hsplit Hin) as (tf & i & ->).
  simpl. repeat split.
  - intros p Hp. apply list_elem_of_filter in Hp as [_ Hp].
    apply elem_of_seq in Hp. lia.
  - intros p Hp. apply list_elem_of_filter in Hp as [_ Hp].
    apply elem_of_seq in Hp. lia.
  - intros p H1 H2. apply list_elem_of_filter in H1 as [H1 _].
    apply list_elem_of_filter in H2 as [H2 _]. contradiction.
  - intros p Hp.
    assert (Hseq : p ∈ seq 0 n_samples) by (apply elem_of_seq; lia).
    destruct (decide (tf !! p = Some i)) as [Heq | Hne].
    + right. apply list_elem_of_filter. split; assumption.
    + left. apply list_elem_of_filter. split; assumption.
Qed.

Lemma reset_index_labels {A} (rows : list A) (r : nat * A) :
  r ∈ pd.reset_index rows -> (r.1 < length (pd.reset_index rows))%nat.
Proof.
  unfold pd.reset_index. intros Hr.
  rewrite length_zip, length_seq, Nat.min_id.
  destruct r as [label a]. apply elem_of_zip_l in Hr.
  apply elem_of_seq in Hr. simpl. lia.
Qed.

(** C7. The two partitions of a fold never share a row, but they need not
    cover the table: rows are picked by index label while the splitter
    hands out positions, so a row whose label is not below the number of
    rows lands in neither partition. The table the objective passes in is
    a training partition of the outer split, which keeps the labels of the
    full table; only for a table with a fresh index (labels 0, 1, 2, ...)
    do the partitions cover every row. *)
Theorem cv_fold_partitions_miss_rows :
  forall (A : Type)
         (make_test_folds : nat -> list string -> result (list nat))
         (cv : nat) (X : pd.frame A) (splitter_y : list string)
         (folds : list (list nat * list nat)) (fold : list nat * list nat),
    model_selection.split make_test_folds cv (length X) splitter_y = Ok folds ->
    fold ∈ folds ->
    (forall r, r ∈ pd.rows_isin X fold.1 -> r ∈ pd.rows_isin X fold.2 -> False)
    /\ (forall r, r ∈ X -> (length X <= r.1)%nat ->
          (r ∉ pd.rows_isin X fold.1) /\ (r ∉ pd.rows_isin X fold.2))
    /\ (forall r, r ∈ X -> (r.1 < length X)%nat ->
          r ∈ pd.rows_isin X fold.1 \/ r ∈ pd.rows_isin X fold.2).
Proof.
  intros A mtf cv X splitter_y folds fold Hsplit Hin.
  destruct (split_fold_positions _ _ _ _ _ _ Hsplit Hin)
    as (Htrain & Htest & Hdisj & Hcover).
  repeat split.
  - intros r H1 H2. apply rows_isin_elem in H1 as [H1 _].
    apply rows_isin_elem in H2 as [H2 _]. exact (Hdisj _ H1 H2).
  - intros Hr. apply rows_isin_elem in Hr as [Hr _].
    apply Htrain in Hr. lia.
  - intros Hr. apply rows_isin_elem in Hr as [Hr _].
    apply Htest in Hr. lia.
  - intros r Hr Hlt. destruct (Hcover _ Hlt) as [Hp | Hp].
    + left. apply rows_isin_elem. split; assumption.
    + right. apply rows_isin_elem. split; assumption.
Qed.

Lemma cv_fold_partitions_miss_rows_witness :
  exists (folds : list (list nat * list nat)) (fold : list nat * list nat),
    model_selection.split model_selection.round_robin 10
      (length example.outer_train) (replicate 10 "00") = Ok folds
    /\ fold ∈ folds
    /\ (11%nat, 111%nat) ∈ example.outer_train
    /\ ((11%nat, 111%nat) ∉ pd.rows_isin example.outer_train fold.1)
    /\ ((11%nat, 111%nat) ∉ pd.rows_isin example.outer_train fold.2).
Proof.
  assert (Hsplit :
    exists folds fold rest,
      model_selection.split model_selection.round_robin 10
        (length example.outer_train) (replicate 10 "00") = Ok folds
      /\ folds = fold :: rest).
  { vm_compute. repeat eexists. }
  destruct Hsplit as (folds & fold & rest & Hsplit & Hfolds).
  assert (Hin : fold ∈ folds) by (rewrite Hfolds; left).
  assert (Hrow : (11%nat, 111%nat) ∈ example.outer_train).
  { vm_compute. repeat (first [left | right]). }
  exists folds, fold. split; [exact Hsplit |]. split; [exact Hin |].
  split; [exact Hrow |].
  apply (proj1 (proj2 (cv_fold_partitions_miss_rows nat
           model_selection.round_robin 10 example.outer_train
           (replicate 10 "00") folds fold Hsplit Hin))
         (11%nat, 111%nat) Hrow).
  vm_compute. lia.
Defined.

(** On a table with a fresh index the partitions of a fold do cover it. *)
Lemma cv_fold_partitions_fresh_index {A}
    (make_test_folds : nat -> list string -> result (list nat))
    (cv : nat) (rows : list A) (splitter_y : list string)
    (folds : list (list nat * list nat)) (fold : list nat * list nat) :
  model_selection.split make_test_folds cv (length (pd.reset_index rows))
    splitter_y = Ok folds ->
  fold ∈ folds ->
  forall r, r ∈ pd.reset_index rows ->
    r ∈ pd.rows_isin (pd.reset_index rows) fold.1
    \/ r ∈ pd.rows_isin (pd.reset_index rows) fold.2.
Proof.
  intros Hsplit Hin r Hr.
  destruct (split_fold_positions _ _ _ _ _ _ Hsplit Hin)
    as (_ & _ & _ & Hcover).
  destruct (Hcover r.1 (reset_index_labels rows r Hr)) as [Hp | Hp].
  - left. apply rows_isin_elem. split; assumption.
  - right. apply rows_isin_elem. split; assumption.
Qed.

Lemma reset_index_row {A} (rows : list A) (p : nat) :
  (p < length rows)%nat -> exists a, (p, a) ∈ pd.reset_index rows.
Proof.
  intros Hp. destruct (lookup_lt_is_Some_2 rows p Hp) as [a Ha].
  exists a. apply list_elem_of_lookup. exists p.
  unfold pd.reset_index, zip. apply lookup_zip_with_Some.
  exists p, a. split; [reflexivity |]. split; [| exact Ha].
  apply lookup_seq. split; [reflexivity | exact Hp].
Qed.

(** Where the evaluator's table comes from: the outer loop picks the
    training partition of a fold out of the full table, which has a fresh
    index, and passes it on with its labels. As the fold tests at least one
    row, a training row taken from the end of the full table carries a
    label that is not below the number of training rows. *)
Lemma outer_train_keeps_late_label {A}
    (make_test_folds : nat -> list string -> result (list nat))
    (rows : list A) (splitter_y : list string)
    (folds : list (list nat * list nat)) (fold : list nat * list nat)
    (r : nat * A) :
  model_selection.split make_test_folds K (length (pd.reset_index rows))
    splitter_y = Ok folds ->
  fold ∈ folds ->
  fold.2 <> [] ->
  r ∈ pd.reset_index rows ->
  S r.1 = length rows ->
  r.1 ∈ fold.1 ->
  let X_train_df := pd.rows_isin (pd.reset_index rows) fold.1 in
  r ∈ X_train_df /\ (length X_train_df <= r.1)%nat.
Proof.
  intros Hsplit Hin Htest Hr Hlast Htrain X_train_df.
  split; [apply rows_isin_elem; split; assumption |].
  destruct (split_fold_positions _ _ _ _ _ _ Hsplit Hin)
    as (_ & Hpos & Hdisj & _).
  destruct (fold.2) as [|p0 rest] eqn:Hf2; [congruence |].
  assert (Hlen : length (pd.reset_index rows) = length rows).
  { unfold pd.reset_index. rewrite length_zip, length_seq. lia. }
  assert (Hp0lt : (p0 < length rows)%nat).
  { rewrite <- Hlen. apply Hpos. left. }
  destruct (reset_index_row rows p0 Hp0lt) as [a Ha].
  assert (Hlt : (length X_train_df < length (pd.reset_index rows))%nat).
  { unfold X_train_df, pd.rows_isin.
    apply (length_filter_lt (fun r0 : nat * A => r0.1 ∈ fold.1) _ (p0, a) Ha).
    simpl. intros Hp. apply (Hdisj p0 Hp). left. }
  lia.
Qed.

(** ** The evaluator's guard against non-finite probabilities *)

Section FalLoop.

Context {row : Type}.
Variable sensitive_col : row -> Z.
Variable predict_proba :
  fal.params -> pd.frame row -> list Z -> pd.frame Z -> pd.frame row ->
  result (list pyfloat).

(** The loop appends one pair of scores per fold, in order. *)
Lemma fal_cv_loop_spec (p : fal.params) (X : pd.frame row) (y : pd.frame Z)
    (folds : list (list nat * list nat)) :
  forall (accP accF P F : list Q),
    fal.cv_loop sensitive_col predict_proba p X y folds accP accF
    = Ok (P, F) ->
    exists P' F',
      P = accP ++ P' /\ F = accF ++ F' /\
      forall i fold, folds !! i = Some fold ->
        exists probs perf fair,
          fal.fold_predictions sensitive_col predict_proba p X y fold
          = Ok probs /\
          fal.fold_scores (values (pd.rows_isin y fold.2))
            (sensitive_col <$> values (pd.rows_isin X fold.2)) probs
          = Ok (perf, fair) /\
          P' !! i = Some perf /\ F' !! i = Some fair.
Proof.
  induction folds as [|fold folds IH]; intros accP accF P F Hloop;
    simpl in Hloop.
  - injection Hloop as <- <-. exists [], [].
    rewrite !app_nil_r. repeat split. intros i fold Hi. discriminate.
  - destruct (fal.fold_predictions sensitive_col predict_proba p X y fold)
      as [probs | e] eqn:Hpred; [| discriminate].
    simpl in Hloop.
    destruct (fal.fold_scores _ _ probs) as [[perf fair] | e] eqn:Hsc;
      [| discriminate].
    simpl in Hloop.
    destruct (IH _ _ _ _ Hloop) as (P' & F' & -> & -> & Hfolds).
    exists (perf :: P'), (fair :: F').
    rewrite <- !app_assoc. repeat split.
    intros [|i] fold' Hi; simpl in Hi.
    + injection Hi as <-. exists probs, perf, fair.
      repeat split; assumption.
    + exact (Hfolds i fold' Hi).
Qed.

End FalLoop.

(** C5, as the code has it. In the adversarial-learning script a fold whose
    predicted probabilities hold a non-finite value is scored 0.5 for
    performance and 0.5 for fairness, with no call to the AUC and no error;
    these are the entries the fold leaves in the two score lists. *)
Theorem fal_non_finite_fold_sentinel :
  (forall (y_true s_test : list Z) (y_pred_probs : list pyfloat),
     (exists x, x ∈ y_pred_probs /\ isfinite x = false) ->
     fal.fold_scores y_true s_test y_pred_probs = Ok (5 # 10, 5 # 10))
  /\
  (forall (row : Type) (sensitive_col : row -> Z)
          (predict_proba : fal.params -> pd.frame row -> list Z ->
                           pd.frame Z -> pd.frame row -> result (list pyfloat))
          (p : fal.params) (X : pd.frame row) (y : pd.frame Z)
          (folds : list (list nat * list nat)) (P F : list Q)
          (i : nat) (fold : list nat * list nat) (probs : list pyfloat),
     fal.cv_loop sensitive_col predict_proba p X y folds [] [] = Ok (P, F) ->
     folds !! i = Some fold ->
     fal.fold_predictions sensitive_col predict_proba p X y fold = Ok probs ->
     (exists x, x ∈ probs /\ isfinite x = false) ->
     P !! i = Some (5 # 10) /\ F !! i = Some (5 # 10)).
Proof.
  assert (Hfold : forall (y_true s_test : list Z) (y_pred_probs : list pyfloat),
     (exists x, x ∈ y_pred_probs /\ isfinite x = false) ->
     fal.fold_scores y_true s_test y_pred_probs = Ok (5 # 10, 5 # 10)).
  { intros y_true s_test probs (x & Hx & Hnf). unfold fal.fold_scores.
    rewrite bool_decide_eq_true_2; [reflexivity |].
    apply list_elem_of_fmap. exists x. split; [symmetry; exact Hnf | exact Hx]. }
  split; [exact Hfold |].
  intros row sensitive_col predict_proba p X y folds P F i fold probs
         Hloop Hi Hpred Hnf.
  destruct (fal_cv_loop_spec sensitive_col predict_proba p X y folds
              [] [] P F Hloop) as (P' & F' & -> & -> & Hfolds).
  destruct (Hfolds i fold Hi) as (probs' & perf & fair & Hpred' & Hsc & HP & HF).
  rewrite Hpred in Hpred'. injection Hpred' as <-.
  rewrite (Hfold _ _ probs Hnf) in Hsc. injection Hsc as <- <-.
  simpl. split; assumption.
Qed.

Lemma fal_non_finite_fold_sentinel_witness :
  fal.fold_scores [0; 1]%Z [1; 0]%Z [Fin (1 # 2); NaN] = Ok (5 # 10, 5 # 10)
  /\ fal.fold_scores [0; 1]%Z [1; 0]%Z [PInf; Fin (1 # 4)] = Ok (5 # 10, 5 # 10).
Proof.
  split.
  - apply (proj1 fal_non_finite_fold_sentinel).
    exists NaN. split; [right; left | reflexivity].
  - apply (proj1 fal_non_finite_fold_sentinel).
    exists PInf. split; [left | reflexivity].
Defined.

(** C5, as stated, fails for two of the three scripts. The random-forest
    and logistic-regression evaluators have no guard: a fold with a NaN
    probability goes to [roc_auc_score], which raises, and the whole
    evaluation ends in that error; the random-forest evaluator records no
    fairness score in any case. *)
Lemma guard_absent_in_frf_and_lr :
  lr.fold_scores [0; 1]%Z [1; 0]%Z [Fin (1 # 2); NaN] = Error ValueError
  /\ frf.fold_scores [0; 1]%Z [Fin (1 # 2); NaN] = Error ValueError
  /\ lr.cross_val_score_custom model_selection.round_robin
       (fun _ _ _ X_test => example.diverged X_test)
       (lr.mkModel example.lr_params 42 "saga")
       example.X example.y example.s K
     = Error ValueError
  /\ frf.cross_val_score_custom example.sensitive_col
       model_selection.round_robin
       (fun _ _ _ _ X_test => example.diverged X_test)
       (frf.mkModel 42 example.frf_params) example.X example.y K
     = Error ValueError.
Proof.
  repeat split; vm_compute; reflexivity.
Qed.

(** ** The search objective *)

(** C6, as the code has it. In the adversarial-learning script the loss of
    a trial is [-((1-theta)*performance - theta*fairness)] for the two
    scores the evaluator returns on the current training partition, and so
    it is in the logistic-regression script, whose [theta] is the constant
    0. In the random-forest script the loss is [-performance]: [theta] goes
    to the classifier as a hyperparameter and the evaluator returns no
    fairness score. Every trial is recorded as successful; an error of the
    evaluator is not turned into a trial. *)
Theorem objective_loss :
  (forall (row : Type) (sensitive_col : row -> Z)
          (make_test_folds : nat -> list string -> result (list nat))
          (predict_proba : fal.params -> pd.frame row -> list Z ->
                           pd.frame Z -> pd.frame row -> result (list pyfloat))
          (g : fal.globals row) (p : fal.params) (performance fairness : Q),
     fal.cross_val_score_custom sensitive_col make_test_folds predict_proba
       p (fal.X_train_df g) (fal.y_train_df g) 10
     = Ok (performance, fairness) ->
     fal.objective sensitive_col make_test_folds predict_proba g p
     = Ok (mkTrial (- ((1 - fal.theta g) * performance
                       - fal.theta g * fairness)) STATUS_OK p))
  /\
  (forall (row : Type)
          (make_test_folds : nat -> list string -> result (list nat))
          (predict_proba : lr.LogisticRegression -> pd.frame row ->
                           pd.frame Z -> pd.frame row -> result (list pyfloat))
          (g : lr.globals row) (p : lr.params) (performance fairness : Q),
     lr.cross_val_score_custom make_test_folds predict_proba
       (lr.mkModel p 42 "saga") (lr.X_train_df g) (lr.y_train_df g)
       (lr.s_train g) K
     = Ok (performance, fairness) ->
     exists t,
       lr.objective make_test_folds predict_proba g p = Ok t /\
       loss t = - ((1 - lr.theta) * performance - lr.theta * fairness) /\
       loss t == - performance /\
       trial_status t = STATUS_OK /\
       trained_model t = lr.mkModel p 42 "saga")
  /\
  (forall (row : Type) (sensitive_col : row -> Z)
          (make_test_folds : nat -> list string -> result (list nat))
          (predict_proba : frf.FairRandomForestClassifier -> pd.frame row ->
                           list Z -> pd.frame Z -> pd.frame row ->
                           result (list pyfloat))
          (g : frf.globals row) (p : frf.params) (performance : Q),
     frf.cross_val_score_custom sensitive_col make_test_folds predict_proba
       (frf.mkModel 42 p) (frf.X_train_df g) (frf.y_train_df g) K
     = Ok performance ->
     frf.objective sensitive_col make_test_folds predict_proba g p
     = Ok (mkTrial (- performance) STATUS_OK (frf.mkModel 42 p))).
Proof.
  split; [| split].
  - intros row sc mtf clf g p perf fair Hcv.
    unfold fal.objective. rewrite Hcv. reflexivity.
  - intros row mtf clf g p perf fair Hcv.
    unfold lr.objective. rewrite Hcv. simpl.
    eexists. split; [reflexivity |]. simpl.
    split; [reflexivity |]. split; [| split; reflexivity].
    unfold lr.theta. ring.
  - intros row sc mtf clf g p perf Hcv.
    unfold frf.objective. rewrite Hcv. reflexivity.
Qed.

Lemma objective_loss_witness :
  exists performance fairness,
    fal.objective example.sensitive_col model_selection.round_robin
      (fun _ _ _ _ X_test => example.oracle X_test)
      (fal.mkGlobals example.X example.y (3 # 10)) example.fal_params
    = Ok (mkTrial (- ((1 - (3 # 10)) * performance - (3 # 10) * fairness))
                  STATUS_OK example.fal_params)
    /\ performance == 1 /\ fairness == 1.
Proof.
  assert (Hcv : exists performance fairness,
    fal.cross_val_score_custom example.sensitive_col
      model_selection.round_robin
      (fun _ _ _ _ X_test => example.oracle X_test)
      example.fal_params example.X example.y 10 = Ok (performance, fairness)
    /\ performance == 1 /\ fairness == 1).
  { repeat eexists; vm_compute; reflexivity. }
  destruct Hcv as (performance & fairness & Hcv & Hp & Hf).
  exists performance, fairness. split; [| split; assumption].
  exact (proj1 objective_loss example.row example.sensitive_col
           model_selection.round_robin
           (fun _ _ _ _ X_test => example.oracle X_test)
           (fal.mkGlobals example.X example.y (3 # 10)) example.fal_params
           performance fairness Hcv).
Defined.

(** C6, as stated, fails for the random-forest script. With theta = 1/2 and
    a classifier that ranks every fold perfectly the evaluator returns
    performance 1 and the recorded loss is -1; the weighted formula would
    give [-(1/2 - fairness/2)], which is -1 for no fairness score that is
    not negative. *)
Lemma frf_loss_is_not_weighted :
  exists (performance : Q) (t : Trial frf.FairRandomForestClassifier),
    frf.cross_val_score_custom example.sensitive_col
      model_selection.round_robin
      (fun _ _ _ _ X_test => example.oracle X_test)
      (frf.mkModel 42 example.frf_params) example.X example.y K
    = Ok performance
    /\ frf.objective example.sensitive_col model_selection.round_robin
         (fun _ _ _ _ X_test => example.oracle X_test)
         (frf.mkGlobals example.X example.y) example.frf_params
       = Ok t
    /\ performance == 1
    /\ loss t == - (1)
    /\ forall fairness : Q, 0 <= fairness ->
         ~ loss t == - ((1 - frf.theta example.frf_params) * performance
                        - frf.theta example.frf_params * fairness).
Proof.
  eexists. eexists.
  split; [vm_compute; reflexivity |].
  split; [vm_compute; reflexivity |].
  split; [vm_compute; reflexivity |].
  split; [vm_compute; reflexivity |].
  intros fairness Hpos. simpl. unfold Qeq. simpl.
  intros H. unfold Qle in Hpos. simpl in Hpos.
  destruct fairness as [n d]. simpl in *. lia.
Qed.

Example num_transformer_examples :
  (exists f c X3, num_transformer.fit_transform [num.complete_column]
                   = Ok (f, X3)
                   /\ RobustScaler.center_ (num_transformer.scaler f) = [Some c] /\ c == 3
                   /\ length X3 = 1%nat)
  /\ (exists f X3, num_transformer.fit_transform
                     [num.complete_column; num.gappy_column; num.empty_column]
                   = Ok (f, X3) /\ length X3 = 4%nat)
  /\ (exists f X3, num_transformer.fit_transform
                     [num.gappy_column; num.empty_column]
                   = Ok (f, X3) /\
                   map (map num.isnan) X3
                   = [[false; false; false; false]; [false; false; false; false];
                      [false; false; false; false]]).
Proof.
  repeat split; repeat eexists; vm_compute; reflexivity.
Qed.

(** ** Preprocessing: the numeric sub-pipeline *)

Lemma zip_with_fitted {A B C} (f : A -> B -> C) (g : A -> B) (l : list A) :
  zip_with f l (g <$> l) = (fun a => f a (g a)) <$> l.
Proof.
  induction l as [|a l IH]; csimpl; [reflexivity |].
  rewrite IH. reflexivity.
Qed.

Lemma zip_fitted {A B C} (g : A -> B) (h : A -> C) (l : list A) :
  zip (g <$> l) (h <$> l) = (fun a => (g a, h a)) <$> l.
Proof.
  induction l as [|a l IH]; csimpl; [reflexivity |].
  rewrite IH. reflexivity.
Qed.

(** Positions picked by a property of the element, against the elements
    picked directly. *)
Lemma filter_positions {A B} (P : A -> Prop) `{!forall x, Decision (P x)}
    (f : A -> B) (d : A) (l : list A) :
  forall pre : list A,
    (fun i => f (default d ((pre ++ l) !! i))) <$>
      filter (fun i => P (default d ((pre ++ l) !! i)))
             (seq (length pre) (length l))
    = f <$> filter P l.
Proof.
  induction l as [|a l IH]; intros pre; simpl; [reflexivity |].
  rewrite !filter_cons.
  rewrite (list_lookup_middle pre l a (length pre) eq_refl). simpl.
  specialize (IH (pre ++ [a])).
  rewrite <- app_assoc in IH. simpl in IH.
  rewrite length_app in IH. simpl in IH.
  replace (length pre + 1)%nat with (S (length pre)) in IH by lia.
  destruct (decide (P a)); csimpl; rewrite IH; [| reflexivity].
  rewrite (list_lookup_middle pre l a (length pre) eq_refl). reflexivity.
Qed.

Lemma insert_sorted_nonempty (x : Q) (l : list Q) : num.insert_sorted x l <> [].
Proof. destruct l as [|y l]; simpl; [| destruct (Qle_bool x y)]; discriminate. Qed.

Lemma nanpercentile_observed (q : Q) (col : num.column) (x : Q) :
  Some x ∈ col -> is_Some (num.nanpercentile q col).
Proof.
  intros Hx. unfold num.nanpercentile.
  assert (Hne : num.observed col <> []).
  { unfold num.observed. intros Hnil.
    assert (Hin : x ∈ omap id col).
    { apply list_elem_of_omap. exists (Some x). split; [exact Hx | reflexivity]. }
    rewrite Hnil in Hin. by apply not_elem_of_nil in Hin. }
  destruct (num.observed col) as [|v0 v]; [congruence |].
  unfold num.sort. simpl.
  destruct (num.insert_sorted v0 _) eqn:E.
  - by apply insert_sorted_nonempty in E.
  - eexists; reflexivity.
Qed.

(** Scaling keeps the pattern of missing cells of the column it was fitted
    on. *)
Lemma scaled_column_isnan (col : num.column) :
  num.isnan <$> scaled_column col = num.isnan <$> col.
Proof.
  unfold scaled_column. rewrite <- list_fmap_compose.
  apply list_fmap_ext. intros i c Hc. simpl.
  destruct c as [x|]; [| reflexivity].
  apply list_elem_of_lookup_2 in Hc.
  unfold RobustScaler.column_center, RobustScaler.column_scale.
  destruct (nanpercentile_observed 50 col x Hc) as [c50 ->].
  destruct (nanpercentile_observed 75 col x Hc) as [c75 ->].
  destruct (nanpercentile_observed 25 col x Hc) as [c25 ->].
  reflexivity.
Qed.

Lemma has_missing_fmap (col : num.column) :
  num.has_missing col = existsb id (num.isnan <$> col).
Proof.
  unfold num.has_missing. induction col as [|c col IH]; simpl; [reflexivity |].
  rewrite IH. reflexivity.
Qed.

Lemma has_observed_fmap (col : num.column) :
  num.has_observed col = existsb negb (num.isnan <$> col).
Proof.
  unfold num.has_observed. induction col as [|c col IH]; simpl; [reflexivity |].
  rewrite IH. reflexivity.
Qed.

Lemma scaled_column_has_missing (col : num.column) :
  num.has_missing (scaled_column col) = num.has_missing col.
Proof. rewrite !has_missing_fmap, scaled_column_isnan. reflexivity. Qed.

Lemma scaled_column_has_observed (col : num.column) :
  num.has_observed (scaled_column col) = num.has_observed col.
Proof. rewrite !has_observed_fmap, scaled_column_isnan. reflexivity. Qed.

(** A mask column of a column that holds a missing value holds an observed
    value: it is not empty and all its cells are numbers. *)
Lemma mask_column_has_observed (col : num.column) :
  num.has_missing col = true ->
  num.has_observed (MissIndicator.mask_column (num.isnan <$> col)) = true.
Proof.
  destruct col as [|c col]; simpl; [discriminate |].
  intros _. reflexivity.
Qed.

Lemma observed_nil (col : num.column) :
  num.observed col = [] <-> num.has_observed col = false.
Proof.
  unfold num.observed, num.has_observed.
  induction col as [|c col IH]; csimpl; [tauto |].
  destruct c as [x|]; csimpl.
  - split; discriminate.
  - exact IH.
Qed.

Lemma column_mean_observed (col : num.column) :
  is_Some (imputed_column col) <-> num.has_observed col = true.
Proof.
  unfold imputed_column, SimpleImputer.impute_column, SimpleImputer.column_mean.
  pose proof (observed_nil col) as Hnil.
  destruct (num.observed col) as [|v0 v].
  - rewrite (proj1 Hnil eq_refl). split; [intros [? [=]] | discriminate].
  - split; [| intros _; eexists; reflexivity].
    intros _. destruct (num.has_observed col); [reflexivity |].
    discriminate (proj2 Hnil eq_refl).
Qed.

Lemma column_mean_is_Some (col : num.column) :
  is_Some (SimpleImputer.column_mean col) <-> num.has_observed col = true.
Proof.
  rewrite <- column_mean_observed. unfold imputed_column, SimpleImputer.impute_column.
  destruct (SimpleImputer.column_mean col); split; intros [? [=]]; eexists; reflexivity.
Qed.

Lemma length_filter_fmap {A B} (P : B -> Prop) (R : A -> Prop)
    `{!forall y, Decision (P y)} `{!forall x, Decision (R x)}
    (f : A -> B) (l : list A) :
  (forall x, x ∈ l -> P (f x) <-> R x) ->
  length (filter P (f <$> l)) = length (filter R l).
Proof.
  induction l as [|a l IH]; intros Hext; csimpl; [reflexivity |].
  rewrite !filter_cons.
  assert (Ha : P (f a) <-> R a) by (apply Hext; left).
  assert (Hl : forall x, x ∈ l -> P (f x) <-> R x)
    by (intros x Hx; apply Hext; right; exact Hx).
  destruct (decide (P (f a))), (decide (R a)); simpl; rewrite (IH Hl); tauto.
Qed.

Lemma length_filter_all {A} (P : A -> Prop) `{!forall x, Decision (P x)}
    (l : list A) :
  (forall x, x ∈ l -> P x) -> length (filter P l) = length l.
Proof.
  induction l as [|a l IH]; intros Hall; [reflexivity |].
  rewrite filter_cons_True by (apply Hall; left).
  simpl. rewrite IH; [reflexivity |].
  intros x Hx. apply Hall. right. exact Hx.
Qed.

(** The imputer keeps exactly the columns whose statistic is defined. *)
Lemma length_imputed (stats : list (option Q)) :
  forall Y : num.matrix,
    length Y = length stats ->
    length (omap id (zip_with SimpleImputer.impute_column Y stats))
    = length (filter is_Some stats).
Proof.
  induction stats as [|st stats IH]; intros Y Hlen.
  - destruct Y; [reflexivity | discriminate].
  - destruct Y as [|col Y]; [discriminate |].
    simpl in Hlen. injection Hlen as Hlen.
    csimpl. rewrite filter_cons.
    destruct st as [m|]; csimpl.
    + destruct (decide (is_Some (Some m))) as [_ | Hn];
        [| destruct Hn; eexists; reflexivity].
      simpl. rewrite (IH Y Hlen). reflexivity.
    + destruct (decide (is_Some (@None Q))) as [[? [=]] | _].
      exact (IH Y Hlen).
Qed.

Lemma scaler_fit_transform (X : num.matrix) :
  num.check_array X = Ok () ->
  RobustScaler.fit X
  = Ok (RobustScaler.mk (RobustScaler.column_center <$> X) (RobustScaler.column_scale <$> X))
  /\ RobustScaler.transform
       (RobustScaler.mk (RobustScaler.column_center <$> X) (RobustScaler.column_scale <$> X)) X
     = Ok (scaled_column <$> X).
Proof.
  intros Hchk. unfold RobustScaler.fit, RobustScaler.transform.
  rewrite Hchk. simpl. split; [reflexivity |].
  rewrite length_fmap.
  destruct (decide (length X = length X)); [| contradiction].
  rewrite zip_fitted, zip_with_fitted. reflexivity.
Qed.

Lemma check_array_scaled (X : num.matrix) :
  num.check_array X = Ok () ->
  num.check_array (scaled_column <$> X) = Ok ().
Proof.
  unfold num.check_array. destruct X as [|col X]; [discriminate |].
  csimpl. destruct (decide (col :: X = [])); [discriminate |].
  destruct (decide (scaled_column col :: (scaled_column <$> X) = []));
    [discriminate |].
  assert (Hlen : length (scaled_column col) = length col)
    by (unfold scaled_column; apply length_fmap).
  rewrite Hlen. auto.
Qed.

Lemma mindic_fit_transform (X1 : num.matrix) :
  num.check_array X1 = Ok () ->
  MissIndicator.fit_transform MissIndicator.__init__ X1
  = (MissIndicator.mk false (Some (Some (MissingIndicator.fitted X1))),
     Ok (X1 ++ ((fun col => MissIndicator.mask_column (num.isnan <$> col)) <$>
                  filter (fun col => num.has_missing col = true) X1))).
Proof.
  intros Hchk.
  unfold MissIndicator.fit_transform, MissIndicator.fit,
    MissIndicator.concatenate_mask, MissingIndicator.transform,
    MissingIndicator.fit.
  rewrite Hchk. cbn [mbind result_bind MissIndicator.mi MissIndicator.is_fit
                     MissIndicator.__init__].
  unfold MissingIndicator.fitted.
  cbn [MissingIndicator.n_features_in_ MissingIndicator.features_].
  destruct (decide (length X1 = length X1)); [| contradiction].
  cbn [mbind result_bind]. do 3 f_equal.
  rewrite <- list_fmap_compose.
  exact (filter_positions (fun col => num.has_missing col = true)
           (fun col => MissIndicator.mask_column (num.isnan <$> col)) [] X1 []).
Qed.

(** The width of the fitted pipeline's output, from the statistics of the
    imputer. *)
Lemma num_fit_transform_shape (X : num.matrix) (f : num_transformer.t)
    (X3 : num.matrix) :
  num_transformer.fit_transform X = Ok (f, X3) ->
  f = num_transformer.mk
        (RobustScaler.mk (RobustScaler.column_center <$> X) (RobustScaler.column_scale <$> X))
        (MissIndicator.mk false
           (Some (Some (MissingIndicator.fitted (scaled_column <$> X)))))
        (SimpleImputer.fit (with_masks (scaled_column <$> X)))
  /\ X3 = omap id (zip_with SimpleImputer.impute_column
                     (with_masks (scaled_column <$> X))
                     (SimpleImputer.column_mean <$>
                        with_masks (scaled_column <$> X)))
  /\ length X3
     = length (filter is_Some
                 (SimpleImputer.column_mean <$> with_masks (scaled_column <$> X))).
Proof.
  intros H. unfold num_transformer.fit_transform in H.
  destruct (num.check_array X) as [[]|e] eqn:Hchk.
  2:{ unfold RobustScaler.fit in H. rewrite Hchk in H. discriminate. }
  destruct (scaler_fit_transform X Hchk) as [Hfit Htr].
  rewrite Hfit in H. cbn [mbind result_bind] in H.
  rewrite Htr in H. cbn [mbind result_bind] in H.
  rewrite (mindic_fit_transform _ (check_array_scaled X Hchk)) in H.
  cbn [mbind result_bind] in H.
  fold (with_masks (scaled_column <$> X)) in H.
  unfold SimpleImputer.transform, SimpleImputer.fit in H.
  cbn [SimpleImputer.statistics_] in H. rewrite length_fmap in H.
  destruct (decide (length (with_masks (scaled_column <$> X))
                    = length (with_masks (scaled_column <$> X))));
    [| contradiction].
  cbn [mbind result_bind] in H. injection H as <- <-.
  split; [reflexivity |]. split; [reflexivity |].
  apply length_imputed. rewrite length_fmap. reflexivity.
Qed.

Lemma count_scaled_missing (X : num.matrix) :
  length (filter (fun col => num.has_missing col = true) (scaled_column <$> X))
  = length (filter (fun col => num.has_missing col = true) X).
Proof.
  apply length_filter_fmap. intros col _.
  rewrite scaled_column_has_missing. reflexivity.
Qed.

(** The columns that survive the imputer: the value columns with an
    observed value, and every mask column. *)
Lemma count_statistics (X : num.matrix) :
  length (filter is_Some (SimpleImputer.column_mean <$> with_masks (scaled_column <$> X)))
  = (length (filter (fun col => num.has_observed col = true) X)
     + length (filter (fun col => num.has_missing col = true) X))%nat.
Proof.
  unfold with_masks. rewrite fmap_app, filter_app, length_app. f_equal.
  - rewrite <- list_fmap_compose.
    apply length_filter_fmap. intros col _. simpl.
    rewrite column_mean_is_Some, scaled_column_has_observed. reflexivity.
  - rewrite <- count_scaled_missing.
    rewrite length_filter_all.
    + rewrite !length_fmap. reflexivity.
    + intros st Hst.
      apply list_elem_of_fmap in Hst as (m & -> & Hm).
      apply list_elem_of_fmap in Hm as (col & -> & Hcol).
      apply list_elem_of_filter in Hcol as [Hmiss _].
      apply column_mean_is_Some. apply mask_column_has_observed. exact Hmiss.
Qed.

Lemma omap_id_fmap {A B} (f : A -> option B) (l : list A) :
  omap id (f <$> l) = omap f l.
Proof.
  induction l as [|a l IH]; csimpl; [reflexivity |].
  rewrite IH. reflexivity.
Qed.

(** The masks are those of the columns as they came in. *)
Lemma masks_of_scaled (X : num.matrix) :
  (fun col => MissIndicator.mask_column (num.isnan <$> col)) <$>
    filter (fun col => num.has_missing col = true) (scaled_column <$> X)
  = (fun col => MissIndicator.mask_column (num.isnan <$> col)) <$>
      filter (fun col => num.has_missing col = true) X.
Proof.
  induction X as [|col X IH]; csimpl; [reflexivity |].
  destruct (decide (num.has_missing col = true)) as [Hm | Hm].
  - rewrite (filter_cons_True _ (scaled_column col))
      by (rewrite scaled_column_has_missing; exact Hm).
    rewrite (filter_cons_True _ col) by exact Hm.
    csimpl. rewrite scaled_column_isnan, IH. reflexivity.
  - rewrite (filter_cons_False _ (scaled_column col))
      by (rewrite scaled_column_has_missing; exact Hm).
    rewrite (filter_cons_False _ col) by exact Hm.
    exact IH.
Qed.

(** The imputer leaves a mask column as it is. *)
Lemma imputed_mask_column (col : num.column) :
  num.has_missing col = true ->
  imputed_column (MissIndicator.mask_column (num.isnan <$> col))
  = Some (MissIndicator.mask_column (num.isnan <$> col)).
Proof.
  intros Hmiss.
  pose proof (mask_column_has_observed col Hmiss) as Hobs.
  apply column_mean_is_Some in Hobs as [m Hm].
  unfold imputed_column. rewrite Hm. simpl. f_equal.
  unfold MissIndicator.mask_column. rewrite <- !list_fmap_compose.
  apply list_fmap_ext. intros i c _. reflexivity.
Qed.

Lemma imputed_masks (F : list num.column) :
  (forall col, col ∈ F -> num.has_missing col = true) ->
  omap imputed_column
    ((fun col => MissIndicator.mask_column (num.isnan <$> col)) <$> F)
  = (fun col => MissIndicator.mask_column (num.isnan <$> col)) <$> F.
Proof.
  induction F as [|col F IH]; intros Hall; csimpl; [reflexivity |].
  rewrite imputed_mask_column by (apply Hall; left).
  csimpl. rewrite IH; [reflexivity |].
  intros c Hc. apply Hall. right. exact Hc.
Qed.

(** The output of the fitted pipeline, column by column: the scaled and
    imputed value columns of the columns with an observed value, then the
    masks of the columns with a missing value. *)
Lemma num_fit_transform_columns (X : num.matrix) (f : num_transformer.t)
    (X3 : num.matrix) :
  num_transformer.fit_transform X = Ok (f, X3) ->
  X3 = omap imputed_column (scaled_column <$> X)
       ++ ((fun col => MissIndicator.mask_column (num.isnan <$> col)) <$>
             filter (fun col => num.has_missing col = true) X).
Proof.
  intros H. destruct (num_fit_transform_shape X f X3 H) as (_ & -> & _).
  rewrite zip_with_fitted.
  change (fun a => SimpleImputer.impute_column a (SimpleImputer.column_mean a))
    with imputed_column.
  rewrite omap_id_fmap. unfold with_masks. rewrite omap_app. f_equal.
  rewrite imputed_masks.
  - apply masks_of_scaled.
  - intros col Hcol. apply list_elem_of_filter in Hcol as [Hm _]. exact Hm.
Qed.

(** C8, as the code has it. The numeric sub-pipeline yields, for a numeric
    column, one scaled and imputed value column if the column holds an
    observed value in the training partition, and one missingness
    indicator column if it holds a missing value there: the indicator is
    built for the features with missing values only, and the imputer drops
    a feature without observed values. A column without missing values
    contributes a single output column. Transforming another table yields
    the width fixed at fit time. *)
Theorem num_transformer_width :
  (forall X : num.matrix,
     num.check_array X = Ok () ->
     exists f X3, num_transformer.fit_transform X = Ok (f, X3))
  /\
  (forall (X : num.matrix) (f : num_transformer.t) (X3 : num.matrix),
     num_transformer.fit_transform X = Ok (f, X3) ->
     X3 = omap imputed_column (scaled_column <$> X)
          ++ ((fun col => MissIndicator.mask_column (num.isnan <$> col)) <$>
                filter (fun col => num.has_missing col = true) X)
     /\ length X3
        = (length (filter (fun col => num.has_observed col = true) X)
           + length (filter (fun col => num.has_missing col = true) X))%nat)
  /\
  (forall (X : num.matrix) (f : num_transformer.t) (X3 Xt out : num.matrix),
     num_transformer.fit_transform X = Ok (f, X3) ->
     num_transformer.transform f Xt = Ok out ->
     length out = length X3).
Proof.
  split; [| split].
  - intros X Hchk. unfold num_transformer.fit_transform.
    destruct (scaler_fit_transform X Hchk) as [-> Htr].
    cbn [mbind result_bind]. rewrite Htr. cbn [mbind result_bind].
    rewrite (mindic_fit_transform _ (check_array_scaled X Hchk)).
    cbn [mbind result_bind].
    unfold SimpleImputer.transform, SimpleImputer.fit.
    cbn [SimpleImputer.statistics_]. rewrite length_fmap.
    destruct (decide _); [| contradiction].
    cbn [mbind result_bind]. eexists. eexists. reflexivity.
  - intros X f X3 H. split; [exact (num_fit_transform_columns X f X3 H) |].
    destruct (num_fit_transform_shape X f X3 H) as (_ & _ & ->).
    apply count_statistics.
  - intros X f X3 Xt out H Ht.
    destruct (num_fit_transform_shape X f X3 H) as (-> & _ & ->).
    unfold num_transformer.transform in Ht.
    cbn [num_transformer.scaler num_transformer.mindic num_transformer.imputer] in Ht.
    unfold RobustScaler.transform in Ht.
    destruct (num.check_array Xt) as [[]|e]; [| discriminate].
    cbn [mbind result_bind RobustScaler.center_ RobustScaler.scale_] in Ht.
    rewrite length_fmap in Ht.
    destruct (decide (length Xt = length X)) as [Hlen | _]; [| discriminate].
    cbn [mbind result_bind] in Ht.
    unfold MissIndicator.transform, MissIndicator.concatenate_mask in Ht.
    cbn [MissIndicator.mi] in Ht.
    unfold MissingIndicator.transform in Ht.
    destruct (num.check_array _) as [[]|e] in Ht; [| discriminate].
    cbn [mbind result_bind] in Ht.
    change (MissingIndicator.n_features_in_
              (MissingIndicator.fitted (scaled_column <$> X)))
      with (length (scaled_column <$> X)) in Ht.
    rewrite length_fmap in Ht.
    destruct (decide _) as [_ | _] in Ht; [| discriminate].
    cbn [mbind result_bind] in Ht.
    unfold SimpleImputer.transform, SimpleImputer.fit in Ht.
    cbn [SimpleImputer.statistics_] in Ht.
    destruct (decide _) as [Hlen2 | _] in Ht; [| discriminate].
    injection Ht as <-.
    apply length_imputed. exact Hlen2.
Qed.

Lemma num_transformer_width_witness :
  exists f X3,
    num_transformer.fit_transform
      [num.complete_column; num.gappy_column; num.empty_column] = Ok (f, X3)
    /\ length X3 = 4%nat.
Proof.
  destruct (proj1 num_transformer_width
              [num.complete_column; num.gappy_column; num.empty_column]
              eq_refl) as (f & X3 & H).
  exists f, X3. split; [exact H |].
  rewrite (proj2 (proj1 (proj2 num_transformer_width) _ f X3 H)).
  reflexivity.
Defined.

(** C8, as stated, fails. A numeric column without missing values in the
    training partition yields one output column, not two, and a test
    table with a missing value in that column is still transformed to one
    column; a column that is entirely missing yields its indicator only. *)
Lemma num_transformer_one_column_without_missing :
  exists f X3 out X3',
    num_transformer.fit_transform [num.complete_column] = Ok (f, X3)
    /\ length X3 = 1%nat
    /\ num_transformer.transform f [num.gappy_column] = Ok out
    /\ length out = 1%nat
    /\ (snd <$> num_transformer.fit_transform [num.empty_column]) = Ok X3'
    /\ length X3' = 1%nat.
Proof.
  do 4 eexists.
  split; [vm_compute; reflexivity |].
  split; [reflexivity |].
  split; [vm_compute; reflexivity |].
  split; [reflexivity |].
  split; [vm_compute; reflexivity |].
  reflexivity.
Qed.

(* ===================================================================== *)
(** * Further properties of the scripts *)
(* ===================================================================== *)

(** ** The Clamper: what it keeps, when it fails *)

Lemma get_values_to_keep_take (vc : list (string * positive)) :
  vc <> [] ->
  exists k, (k < length vc)%nat /\
    Clamper._get_values_to_keep_from_value_counts vc = Ok (take k vc.*1).
Proof.
  intros Hne. unfold Clamper._get_values_to_keep_from_value_counts.
  rewrite length_fmap.
  destruct (decide (length vc = 0%nat)) as [Hz | _].
  { destruct vc; [congruence | discriminate]. }
  set (distance := _ <$> Clamper.count_p vc).
  assert (Hlen : length distance = length vc).
  { unfold distance, Clamper.count_p. rewrite !length_fmap. reflexivity. }
  assert (Hd : distance <> []).
  { intros Hnil. rewrite Hnil in Hlen. destruct vc; [congruence | discriminate]. }
  destruct (argmin_nonempty _ Hd) as (k & Hk & Hlt).
  exists k. rewrite Hk. simpl. split; [lia | reflexivity].
Qed.

(** X1. Whatever the frequencies, the Clamper never retains every category
    of a column: the retained values are a prefix of the categories in
    [value_counts] order and at least one category (the last one, at
    least) is left out and will be rewritten to "other". *)
Theorem clamper_drops_a_category :
  forall (vc : list (string * positive)),
    vc <> [] ->
    exists keep dropped,
      Clamper._get_values_to_keep_from_value_counts vc = Ok keep /\
      vc.*1 = keep ++ dropped /\
      dropped <> [] /\
      (length keep < length vc)%nat.
Proof.
  intros vc Hne.
  destruct (get_values_to_keep_take vc Hne) as (k & Hk & ->).
  exists (take k vc.*1), (drop k vc.*1).
  split; [reflexivity |]. split; [symmetry; apply take_drop |].
  split.
  - intros Hnil. apply (f_equal length) in Hnil.
    rewrite length_drop, length_fmap in Hnil. simpl in Hnil. lia.
  - rewrite length_take, length_fmap. lia.
Qed.

Lemma clamper_drops_a_category_witness :
  exists keep dropped,
    Clamper._get_values_to_keep_from_value_counts
      [("a", 5%positive); ("b", 3%positive); ("c", 1%positive)] = Ok keep /\
    ["a"; "b"; "c"] = keep ++ dropped /\ dropped <> [].
Proof.
  destruct (clamper_drops_a_category
              [("a", 5%positive); ("b", 3%positive); ("c", 1%positive)])
    as (keep & dropped & H1 & H2 & H3 & _); [discriminate |].
  exists keep, dropped. repeat split; assumption.
Defined.

Lemma argmin_constant (d : Q) (n : nat) :
  np.argmin (replicate (S n) d) = Ok 0%nat.
Proof.
  destruct (argmin_nonempty (replicate (S n) d)) as (k & Hk & _);
    [discriminate |].
  destruct (argmin_spec _ _ Hk) as (x & Hx & _ & Hfirst).
  destruct k as [|k]; [exact Hk |].
  exfalso.
  apply lookup_replicate in Hx as [-> _].
  specialize (Hfirst 0%nat d ltac:(lia) eq_refl). lra.
Qed.

Lemma fmap_constant {A B} (f : A -> B) (l : list A) (b : B) :
  (forall x, x ∈ l -> f x = b) -> f <$> l = replicate (length l) b.
Proof.
  induction l as [|x l IH]; intros Hall; csimpl; [reflexivity |].
  rewrite (Hall x) by left.
  rewrite IH; [reflexivity |].
  intros y Hy. apply Hall. right. exact Hy.
Qed.

Lemma get_values_to_keep_uniform (vc : list (string * positive)) (c : positive) :
  vc <> [] ->
  (forall e, e ∈ vc -> e.2 = c) ->
  Clamper._get_values_to_keep_from_value_counts vc = Ok [].
Proof.
  intros Hne Hall. unfold Clamper._get_values_to_keep_from_value_counts.
  rewrite length_fmap.
  destruct (decide (length vc = 0%nat)) as [Hz | _].
  { destruct vc; [congruence | discriminate]. }
  unfold Clamper.count_p.
  assert (Hc : vc.*2 = replicate (length vc) c).
  { apply fmap_constant. exact Hall. }
  rewrite Hc. rewrite !fmap_replicate.
  destruct (length vc) as [|n] eqn:Hlen.
  { destruct vc; [congruence | discriminate]. }
  rewrite argmin_constant. reflexivity.
Qed.

Lemma clamp_cells_nil (cells : list pd.cell) :
  Clamper.clamp_cells [] cells = (fun _ => Some "other") <$> cells.
Proof.
  unfold Clamper.clamp_cells. apply list_fmap_ext. intros i v _.
  destruct v as [s|]; [| reflexivity].
  unfold pd.isin. case_bool_decide as H; [| reflexivity].
  by apply not_elem_of_nil in H.
Qed.

Lemma fit_transform_columns_uniform (X : pd.table) :
  (forall col, col ∈ X ->
     exists c, pd.value_counts col.2 <> [] /\
               forall e, e ∈ pd.value_counts col.2 -> e.2 = c) ->
  forall self : Clamper.t,
    (Clamper.fit_transform_columns self X).2
    = Ok (all_other X).
Proof.
  induction X as [|[column cells] X IH]; intros Hall self; simpl;
    [reflexivity |].
  destruct (Hall (column, cells) ltac:(left)) as (c & Hne & Hc).
  simpl in Hne, Hc.
  rewrite (get_values_to_keep_uniform _ c Hne Hc).
  unfold Clamper.clamp_column. simpl. rewrite lookup_insert_eq.
  specialize (IH (fun col Hcol => Hall col ltac:(right; exact Hcol))
                 (Clamper.set_values_to_keep self column [])).
  destruct (Clamper.fit_transform_columns
              (Clamper.set_values_to_keep self column []) X) as [self' r].
  simpl in IH. rewrite IH. simpl. rewrite clamp_cells_nil. reflexivity.
Qed.

(** X2. A column whose categories are all equally frequent (a column with
    a single category, for one) has every category at distance zero from
    the threshold, so nothing is retained: [fit_transform] rewrites every
    cell of such a column to "other". *)
Theorem clamper_uniform_column_all_other :
  forall (self : Clamper.t) (X : pd.table),
    (forall col, col ∈ X ->
       exists c, pd.value_counts col.2 <> [] /\
                 forall e, e ∈ pd.value_counts col.2 -> e.2 = c) ->
    (forall col, col ∈ X ->
       Clamper._get_values_to_keep_from_value_counts (pd.value_counts col.2)
       = Ok [])
    /\ (Clamper.fit_transform self X).2
       = Ok (all_other X).
Proof.
  intros self X Hall. split.
  - intros col Hcol. destruct (Hall col Hcol) as (c & Hne & Hc).
    exact (get_values_to_keep_uniform _ c Hne Hc).
  - unfold Clamper.fit_transform.
    pose proof (fit_transform_columns_uniform X Hall self) as H.
    destruct (Clamper.fit_transform_columns self X) as [self' r].
    simpl in H. rewrite H. reflexivity.
Qed.

Lemma clamper_uniform_column_all_other_witness :
  (Clamper.fit_transform Clamper.__init__
     [("flag", [Some "NL"; Some "NL"; None; Some "NL"]);
      ("type", [Some "tanker"; Some "bulk"; Some "bulk"; Some "tanker"])]).2
  = Ok [("flag", [Some "other"; Some "other"; Some "other"; Some "other"]);
        ("type", [Some "other"; Some "other"; Some "other"; Some "other"])].
Proof.
  apply (proj2 (clamper_uniform_column_all_other Clamper.__init__
    [("flag", [Some "NL"; Some "NL"; None; Some "NL"]);
     ("type", [Some "tanker"; Some "bulk"; Some "bulk"; Some "tanker"])]
    ltac:(intros col Hcol;
          apply elem_of_cons in Hcol as [-> | Hcol];
          [exists 3%positive; split; [vm_compute; discriminate |];
           intros e He; vm_compute in He;
           apply elem_of_cons in He as [-> | He];
           [reflexivity | by apply not_elem_of_nil in He]
          |apply elem_of_cons in Hcol as [-> | Hcol];
           [exists 2%positive; split; [vm_compute; discriminate |];
            intros e He; vm_compute in He;
            apply elem_of_cons in He as [-> | He]; [reflexivity |];
            apply elem_of_cons in He as [-> | He];
            [reflexivity | by apply not_elem_of_nil in He]
           | by apply not_elem_of_nil in Hcol]]))).
Defined.

(** X3. [Clamper.transform] goes through exactly when every column of the
    table has an entry in the fitted state; the output then has the same
    column labels and as many cells per column, none of them NaN. A column
    that was never fitted is a [KeyError]; this is the only way
    [transform] fails (an object that was never fitted rejects any table
    with a column). *)
Theorem clamper_transform_key_error :
  forall (self : Clamper.t) (X : pd.table),
    ((forall name, name ∈ X.*1 ->
        is_Some (Clamper.values_to_keep self !! name)) ->
     exists T, Clamper.transform self X = Ok T /\
       T.*1 = X.*1 /\
       Forall2 (fun c c' => length c'.2 = length c.2 /\
                            forall v, v ∈ c'.2 -> is_Some v) X T)
    /\
    ((exists name, name ∈ X.*1 /\
        Clamper.values_to_keep self !! name = None) ->
     Clamper.transform self X = Error KeyError).
Proof.
  intros self X. split.
  - induction X as [|[column cells] X IH]; intros Hall; simpl.
    + exists []. repeat split. constructor.
    + destruct (Hall column ltac:(left)) as [keep Hk].
      unfold Clamper.clamp_column. rewrite Hk. simpl.
      destruct IH as (T & -> & Hnames & Hcells).
      { intros name Hname. apply Hall. right. exact Hname. }
      simpl. eexists. split; [reflexivity |]. split.
      * csimpl. f_equal. exact Hnames.
      * constructor; [| exact Hcells]. simpl. split.
        -- unfold Clamper.clamp_cells. apply length_fmap.
        -- intros v Hv. unfold Clamper.clamp_cells in Hv.
           apply list_elem_of_fmap in Hv as (w & -> & _).
           destruct (pd.isin keep w) eqn:E.
           ++ destruct w; [eexists; reflexivity | discriminate].
           ++ eexists; reflexivity.
  - intros (name & Hname & Hnone).
    induction X as [|[column cells] X IH]; simpl.
    + by apply not_elem_of_nil in Hname.
    + unfold Clamper.clamp_column.
      destruct (Clamper.values_to_keep self !! column) as [keep|] eqn:Hk;
        [| reflexivity].
      simpl. apply elem_of_cons in Hname as [-> | Hname];
        [simpl in Hnone; congruence |].
      rewrite (IH Hname). reflexivity.
Qed.

Lemma clamper_transform_key_error_witness :
  (exists T, Clamper.transform
               (Clamper.fit Clamper.__init__ example_table).1 example_table
             = Ok T /\ T.*1 = ["vessel_type"])
  /\ Clamper.transform Clamper.__init__ example_table = Error KeyError.
Proof.
  split.
  - destruct (proj1 (clamper_transform_key_error
                       (Clamper.fit Clamper.__init__ example_table).1
                       example_table)) as (T & HT & Hn & _).
    + intros name Hname. simpl in Hname.
      apply list_elem_of_singleton in Hname as ->.
      vm_compute. eexists; reflexivity.
    + exists T. split; assumption.
  - apply (proj2 (clamper_transform_key_error Clamper.__init__ example_table)).
    exists "vessel_type". split; [left | reflexivity].
Defined.

Lemma tally_add_nonempty (v : string) (acc : list (string * positive)) :
  pd.tally_add v acc <> [].
Proof.
  destruct acc as [|[w c] acc]; simpl; [discriminate |].
  destruct (decide (v = w)); discriminate.
Qed.

Lemma tally_nonempty (l : list string) :
  forall acc, (l <> [] \/ acc <> []) ->
    foldl (fun acc v => pd.tally_add v acc) acc l <> [].
Proof.
  induction l as [|v l IH]; intros acc Hne; simpl.
  - destruct Hne as [? | ?]; [congruence | assumption].
  - apply IH. right. apply tally_add_nonempty.
Qed.

Lemma insert_by_count_nonempty (e : string * positive)
    (l : list (string * positive)) :
  pd.insert_by_count e l <> [].
Proof.
  destruct l as [|e' l]; simpl; [discriminate |].
  destruct (e'.2 <=? e.2)%positive; discriminate.
Qed.

(** A column has an empty value count exactly when it has no non-null
    cell. *)
Lemma value_counts_nil (cells : list pd.cell) :
  pd.value_counts cells = [] <-> (forall v, v ∈ cells -> v = None).
Proof.
  unfold pd.value_counts. split.
  - intros Hnil v Hv. destruct v as [s|]; [| reflexivity]. exfalso.
    assert (Hne : omap id cells <> []).
    { intros Ho. assert (Hs : s ∈ omap id cells).
      { apply list_elem_of_omap. exists (Some s). split; [exact Hv | reflexivity]. }
      rewrite Ho in Hs. by apply not_elem_of_nil in Hs. }
    pose proof (tally_nonempty (omap id cells) [] (or_introl Hne)) as Ht.
    destruct (foldl _ [] (omap id cells)) as [|e t]; [congruence |].
    simpl in Hnil. by apply insert_by_count_nonempty in Hnil.
  - intros Hall.
    assert (Ho : omap id cells = []).
    { apply elem_of_nil_inv. intros s Hs.
      apply list_elem_of_omap in Hs as (v & Hv & Hvs).
      rewrite (Hall v Hv) in Hvs. discriminate. }
    rewrite Ho. reflexivity.
Qed.

Lemma get_values_to_keep_error (vc : list (string * positive)) :
  (vc = [] ->
   Clamper._get_values_to_keep_from_value_counts vc = Error ZeroDivisionError)
  /\ (vc <> [] ->
      exists keep, Clamper._get_values_to_keep_from_value_counts vc = Ok keep).
Proof.
  split.
  - intros ->. reflexivity.
  - intros Hne. destruct (get_values_to_keep_take vc Hne) as (k & _ & Hk).
    eexists. exact Hk.
Qed.

Lemma fit_columns_keeps_entries (X : pd.table) :
  forall (self self' : Clamper.t) (r : result unit) (name : string),
    Clamper.fit_columns self X = (self', r) ->
    is_Some (Clamper.values_to_keep self !! name) ->
    is_Some (Clamper.values_to_keep self' !! name).
Proof.
  induction X as [|[column cells] X IH]; intros self self' r name Hfit Hs;
    simpl in Hfit.
  - injection Hfit as <- _. exact Hs.
  - destruct (Clamper._get_values_to_keep_from_value_counts _) as [keep | e].
    + apply (IH _ _ _ name Hfit). simpl.
      destruct (decide (column = name)) as [-> | Hne].
      * rewrite lookup_insert_eq. eexists; reflexivity.
      * rewrite lookup_insert_ne by exact Hne. exact Hs.
    + injection Hfit as <- _. exact Hs.
Qed.

Lemma fit_columns_outcome (X : pd.table) :
  forall (self : Clamper.t),
    exists self', Clamper.is_fit self' = Clamper.is_fit self /\
      ((forall col, col ∈ X -> exists v, Some v ∈ col.2) ->
         Clamper.fit_columns self X = (self', Ok ()) /\
         forall name, name ∈ X.*1 ->
           is_Some (Clamper.values_to_keep self' !! name))
      /\ ((exists col, col ∈ X /\ forall v, v ∈ col.2 -> v = None) ->
         Clamper.fit_columns self X = (self', Error ZeroDivisionError)).
Proof.
  induction X as [|[column cells] X IH]; intros self.
  - exists self. split; [reflexivity |]. split.
    + intros _. split; [reflexivity |].
      intros name Hname. by apply not_elem_of_nil in Hname.
    + intros (col & Hcol & _). by apply not_elem_of_nil in Hcol.
  - simpl.
    destruct (decide (pd.value_counts cells = [])) as [Hnil | Hne].
    + rewrite (proj1 (get_values_to_keep_error _) Hnil).
      exists self. split; [reflexivity |]. split.
      * intros Hall. exfalso.
        destruct (Hall (column, cells) ltac:(left)) as [v Hv].
        apply (proj1 (value_counts_nil cells) Hnil) in Hv. discriminate.
      * intros _. reflexivity.
    + destruct (proj2 (get_values_to_keep_error _) Hne) as [keep ->].
      destruct (IH (Clamper.set_values_to_keep self column keep))
        as (self' & Hfit & Hgood & Hbad).
      exists self'. split; [exact Hfit |]. split.
      * intros Hall.
        destruct Hgood as [Hrun Hdom].
        { intros col Hcol. apply Hall. right. exact Hcol. }
        split; [exact Hrun |].
        intros name Hname. simpl in Hname.
        apply elem_of_cons in Hname as [-> | Hname]; [| apply Hdom; exact Hname].
        apply (fit_columns_keeps_entries X _ _ _ column Hrun).
        simpl. rewrite lookup_insert_eq. eexists; reflexivity.
      * intros (col & Hcol & Hnone).
        apply elem_of_cons in Hcol as [-> | Hcol].
        -- exfalso. apply Hne. apply value_counts_nil. exact Hnone.
        -- apply Hbad. exists col. split; assumption.
Qed.

(** X4. [Clamper.fit] goes through exactly when every column of the table
    holds at least one non-null cell; it then marks the object as fitted
    and leaves an entry for every column. A column without any non-null
    cell (a table without rows, for one) makes it fail with a
    [ZeroDivisionError], and the object is not marked as fitted. *)
Theorem clamper_fit_zero_division :
  forall (self : Clamper.t) (X : pd.table),
    ((forall col, col ∈ X -> exists v, Some v ∈ col.2) ->
     exists self',
       Clamper.fit self X = (self', Ok ()) /\
       Clamper.is_fit self' = true /\
       forall name, name ∈ X.*1 ->
         is_Some (Clamper.values_to_keep self' !! name))
    /\
    ((exists col, col ∈ X /\ forall v, v ∈ col.2 -> v = None) ->
     exists self',
       Clamper.fit self X = (self', Error ZeroDivisionError) /\
       Clamper.is_fit self' = Clamper.is_fit self).
Proof.
  intros self X.
  destruct (fit_columns_outcome X self) as (self' & Hfit & Hgood & Hbad).
  unfold Clamper.fit. split.
  - intros Hall. destruct (Hgood Hall) as [-> Hdom].
    eexists. split; [reflexivity |]. split; [reflexivity |]. exact Hdom.
  - intros Hex. rewrite (Hbad Hex).
    exists self'. split; [reflexivity | exact Hfit].
Qed.

Lemma clamper_fit_zero_division_witness :
  (exists self', Clamper.fit Clamper.__init__ example_table = (self', Ok ())
                 /\ Clamper.is_fit self' = true)
  /\ (exists self',
        Clamper.fit Clamper.__init__ [("port_of_registry", [None; None])]
        = (self', Error ZeroDivisionError)
        /\ Clamper.is_fit self' = false).
Proof.
  split.
  - destruct (proj1 (clamper_fit_zero_division Clamper.__init__ example_table))
      as (self' & H1 & H2 & _).
    + intros col Hcol. apply list_elem_of_singleton in Hcol as ->.
      exists "a". left.
    + exists self'. split; assumption.
  - destruct (proj2 (clamper_fit_zero_division Clamper.__init__
                       [("port_of_registry", [None; None])]))
      as (self' & H1 & H2).
    + eexists. split; [left |]. simpl. intros v Hv.
      apply elem_of_cons in Hv as [-> | Hv]; [reflexivity |].
      apply list_elem_of_singleton in Hv. exact Hv.
    + exists self'. split; assumption.
Defined.

Lemma fit_transform_columns_lookup_other (X : pd.table) :
  forall (self self' : Clamper.t) (r : result pd.table) (name : string),
    Clamper.fit_transform_columns self X = (self', r) ->
    name ∉ X.*1 ->
    Clamper.values_to_keep self' !! name = Clamper.values_to_keep self !! name.
Proof.
  induction X as [|[column cells] X IH]; intros self self' r name Hfit Hnot;
    simpl in Hfit.
  - injection Hfit as <- _. reflexivity.
  - simpl in Hnot. apply not_elem_of_cons in Hnot as [Hne Hnot].
    destruct (Clamper._get_values_to_keep_from_value_counts _) as [keep | e].
    + destruct (Clamper.clamp_column _ column cells) as [cells' | e].
      * destruct (Clamper.fit_transform_columns _ X) as [s1 r1] eqn:Hrest.
        injection Hfit as <- _.
        rewrite (IH _ _ _ name Hrest Hnot). simpl.
        apply lookup_insert_ne. congruence.
      * injection Hfit as <- _. simpl. apply lookup_insert_ne. congruence.
    + injection Hfit as <- _. reflexivity.
Qed.

(** X5. Fitting never clears the fitted state: [fit] and [fit_transform]
    write the entries of the columns of the table they are given and leave
    every other entry of [values_to_keep] as it was, whether they end
    normally or in an exception. An object that is fitted again on a table
    with other columns still transforms the old columns with the old
    values. *)
Theorem clamper_fit_keeps_other_entries :
  forall (self : Clamper.t) (X : pd.table) (name : string),
    name ∉ X.*1 ->
    Clamper.values_to_keep (Clamper.fit self X).1 !! name
    = Clamper.values_to_keep self !! name
    /\ Clamper.values_to_keep (Clamper.fit_transform self X).1 !! name
       = Clamper.values_to_keep self !! name.
Proof.
  intros self X name Hnot. split.
  - unfold Clamper.fit.
    destruct (Clamper.fit_columns self X) as [s [u | e]] eqn:Hfit; simpl;
      exact (fit_columns_lookup_other X self s _ name Hfit Hnot).
  - unfold Clamper.fit_transform.
    destruct (Clamper.fit_transform_columns self X) as [s [T | e]] eqn:Hfit;
      simpl;
      exact (fit_transform_columns_lookup_other X self s _ name Hfit Hnot).
Qed.

Lemma clamper_fit_keeps_other_entries_witness :
  Clamper.values_to_keep
    (Clamper.fit (Clamper.fit Clamper.__init__ example_table).1
       [("port_of_registry", [Some "x"; Some "y"; Some "x"])]).1
    !! "vessel_type"
  = Clamper.values_to_keep (Clamper.fit Clamper.__init__ example_table).1
      !! "vessel_type".
Proof.
  apply (proj1 (clamper_fit_keeps_other_entries
                  (Clamper.fit Clamper.__init__ example_table).1
                  [("port_of_registry", [Some "x"; Some "y"; Some "x"])]
                  "vessel_type" ltac:(simpl; intros H;
                     apply list_elem_of_singleton in H; discriminate))).
Defined.

(** ** The numeric sub-pipeline: what comes out *)

Lemma impute_column_cells (col col' : num.column) (st : option Q) :
  SimpleImputer.impute_column col st = Some col' ->
  length col' = length col /\ forall c, c ∈ col' -> is_Some c.
Proof.
  unfold SimpleImputer.impute_column. destruct st as [m|]; [| discriminate].
  intros [= <-]. split; [apply length_fmap |].
  intros c Hc. apply list_elem_of_fmap in Hc as (c0 & -> & _).
  eexists; reflexivity.
Qed.

Lemma mask_column_cells (m : list bool) :
  length (MissIndicator.mask_column m) = length m
  /\ forall c, c ∈ MissIndicator.mask_column m -> is_Some c.
Proof.
  unfold MissIndicator.mask_column. split; [apply length_fmap |].
  intros c Hc. apply list_elem_of_fmap in Hc as (b & -> & _).
  eexists; reflexivity.
Qed.

Lemma imputed_zip_cells (stats : list (option Q)) :
  forall (Y : num.matrix) (col' : num.column),
    col' ∈ omap id (zip_with SimpleImputer.impute_column Y stats) ->
    (forall c, c ∈ col' -> is_Some c)
    /\ exists col, col ∈ Y /\ length col' = length col.
Proof.
  induction stats as [|st stats IH]; intros Y col' Hin.
  - destruct Y; simpl in Hin; by apply not_elem_of_nil in Hin.
  - destruct Y as [|col Y]; [by apply not_elem_of_nil in Hin |].
    csimpl in Hin.
    destruct (SimpleImputer.impute_column col st) as [c1|] eqn:Hc1;
      csimpl in Hin.
    + apply elem_of_cons in Hin as [-> | Hin].
      * destruct (impute_column_cells col c1 st Hc1) as [Hlen Hsome].
        split; [exact Hsome |]. exists col. split; [left | exact Hlen].
      * destruct (IH Y col' Hin) as (Hsome & c0 & Hc0 & Hlen).
        split; [exact Hsome |]. exists c0. split; [right; exact Hc0 | exact Hlen].
    + destruct (IH Y col' Hin) as (Hsome & c0 & Hc0 & Hlen).
      split; [exact Hsome |]. exists c0. split; [right; exact Hc0 | exact Hlen].
Qed.

(** X6. The output of the numeric sub-pipeline holds no missing value, and
    every output column has the number of rows of the input: this holds
    for the matrix returned by [fit_transform] and for every matrix
    returned by [transform] afterwards. *)
Theorem num_transformer_output_complete :
  forall (X : num.matrix) (f : num_transformer.t) (X3 : num.matrix) (n : nat),
    num_transformer.fit_transform X = Ok (f, X3) ->
    (forall col, col ∈ X -> length col = n) ->
    (forall col, col ∈ X3 ->
       length col = n /\ forall c, c ∈ col -> is_Some c)
    /\
    (forall (Xt out : num.matrix) (nt : nat),
       num_transformer.transform f Xt = Ok out ->
       (forall col, col ∈ Xt -> length col = nt) ->
       forall col, col ∈ out ->
         length col = nt /\ forall c, c ∈ col -> is_Some c).
Proof.
  intros X f X3 n H Hrows.
  destruct (num_fit_transform_shape X f X3 H) as (Hf & HX3 & _).
  assert (Hscaled : forall (Z : num.matrix) m cs (col : num.column),
            (forall c0, c0 ∈ Z -> length c0 = m) ->
            col ∈ zip_with (fun (col : list (option Q)) (cs : option Q * option Q) =>
                              RobustScaler.scale_cell cs.1 cs.2 <$> col) Z cs ->
            length col = m).
  { intros Z m cs col HZ Hcol.
    apply elem_of_lookup_zip_with in Hcol as (i & c0 & pr & -> & Hc0 & _).
    rewrite length_fmap. apply HZ. apply list_elem_of_lookup. eauto. }
  split.
  - intros col Hcol. rewrite HX3 in Hcol.
    destruct (imputed_zip_cells _ _ col Hcol) as (Hsome & c0 & Hc0 & Hlen).
    split; [| exact Hsome]. rewrite Hlen.
    unfold with_masks in Hc0. apply elem_of_app in Hc0 as [Hc0 | Hc0].
    + apply list_elem_of_fmap in Hc0 as (c1 & -> & Hc1).
      unfold scaled_column. rewrite length_fmap. apply Hrows. exact Hc1.
    + apply list_elem_of_fmap in Hc0 as (c1 & -> & Hc1).
      apply list_elem_of_filter in Hc1 as [_ Hc1].
      apply list_elem_of_fmap in Hc1 as (c2 & -> & Hc2).
      rewrite (proj1 (mask_column_cells _)), length_fmap.
      unfold scaled_column. rewrite length_fmap. apply Hrows. exact Hc2.
  - intros Xt out nt Ht Hrowst col Hcol.
    rewrite Hf in Ht. unfold num_transformer.transform in Ht.
    cbn [num_transformer.scaler num_transformer.mindic
         num_transformer.imputer] in Ht.
    unfold RobustScaler.transform in Ht.
    destruct (num.check_array Xt) as [[]|e]; [| discriminate].
    cbn [mbind result_bind] in Ht.
    destruct (decide _) as [Hlen | _] in Ht; [| discriminate].
    cbn [mbind result_bind] in Ht.
    match type of Ht with
    | context [MissIndicator.transform _ ?Z] => set (X1t := Z) in Ht
    end.
    assert (HX1t : forall c0, c0 ∈ X1t -> length c0 = nt).
    { intros c0 Hc0. exact (Hscaled Xt nt _ c0 Hrowst Hc0). }
    unfold MissIndicator.transform, MissIndicator.concatenate_mask in Ht.
    cbn [MissIndicator.mi] in Ht.
    unfold MissingIndicator.transform in Ht.
    destruct (num.check_array X1t) as [[]|e] in Ht; [| discriminate].
    cbn [mbind result_bind] in Ht.
    destruct (decide _) as [Hlen1 | _] in Ht; [| discriminate].
    cbn [mbind result_bind] in Ht.
    unfold SimpleImputer.transform in Ht.
    destruct (decide _) as [Hlen2 | _] in Ht; [| discriminate].
    injection Ht as <-.
    destruct (imputed_zip_cells _ _ col Hcol) as (Hsome & c0 & Hc0 & Hl).
    split; [| exact Hsome]. rewrite Hl.
    apply elem_of_app in Hc0 as [Hc0 | Hc0]; [apply HX1t; exact Hc0 |].
    apply list_elem_of_fmap in Hc0 as (m & -> & Hm).
    apply list_elem_of_fmap in Hm as (i & -> & Hi).
    rewrite (proj1 (mask_column_cells _)), length_fmap.
    apply list_elem_of_filter in Hi as [_ Hi]. apply elem_of_seq in Hi.
    change (MissingIndicator.n_features_in_
              (MissingIndicator.fitted (scaled_column <$> X)))
      with (length (scaled_column <$> X)) in Hlen1.
    unfold num.matrix, num.column in *.
    destruct (X1t !! i) as [c1|] eqn:Hc1.
    { simpl. apply HX1t. apply list_elem_of_lookup. exists i. exact Hc1. }
    apply lookup_ge_None in Hc1.
    rewrite length_fmap in Hi, Hlen1.
    unfold num.matrix, num.column in *. lia.
Qed.

Lemma num_transformer_output_complete_witness :
  exists f X3,
    num_transformer.fit_transform [num.complete_column; num.gappy_column]
    = Ok (f, X3)
    /\ forall col, col ∈ X3 ->
         length col = 4%nat /\ forall c, c ∈ col -> is_Some c.
Proof.
  assert (H : exists f X3,
    num_transformer.fit_transform [num.complete_column; num.gappy_column]
    = Ok (f, X3)).
  { vm_compute. eexists. eexists. reflexivity. }
  destruct H as (f & X3 & H). exists f, X3. split; [exact H |].
  apply (proj1 (num_transformer_output_complete _ f X3 4%nat H
    ltac:(intros col Hcol;
          apply elem_of_cons in Hcol as [-> | Hcol]; [reflexivity |];
          apply list_elem_of_singleton in Hcol as ->; reflexivity))).
Defined.

Lemma features_count (X0 : num.matrix) :
  length (MissingIndicator.features_ (MissingIndicator.fitted X0))
  = length (filter (fun col => num.has_missing col = true) X0).
Proof.
  unfold MissingIndicator.fitted. simpl.
  pose proof (filter_positions (fun col => num.has_missing col = true)
                (fun col : num.column => col) [] X0 []) as H.
  simpl in H. apply (f_equal length) in H.
  rewrite !length_fmap in H. exact H.
Qed.

Lemma check_array_outcome (X : num.matrix) :
  num.check_array X = Ok () \/ num.check_array X = Error ValueError.
Proof.
  unfold num.check_array.
  destruct (decide (X = [])); [right; reflexivity |].
  destruct (decide (num.n_samples X = 0%nat)); [right | left]; reflexivity.
Qed.

(** X7. A [MissIndicator] that was never fitted cannot transform: [self.mi]
    does not exist and the call ends in an [AttributeError]. Fitted on a
    matrix with at least one column and one row, it returns every matrix
    of that width with at least one row unchanged, followed by mask
    columns of zeros and ones whose number was fixed by the fit (one per
    column that held a missing value then), and it rejects every other
    matrix with a [ValueError]. A fit on a matrix without a column or
    without a row raises [ValueError] and leaves an estimator behind that
    was assigned but not fitted, so that [transform] then fails with
    [NotFittedError]. Fitting never sets the [is_fit] flag. *)
Theorem miss_indicator_transform_shape :
  (forall X : num.matrix,
     MissIndicator.transform MissIndicator.__init__ X = Error AttributeError)
  /\
  (forall (self : MissIndicator.t) (X0 : num.matrix),
     num.check_array X0 = Ok () ->
     (MissIndicator.fit self X0).2 = Ok ()
     /\ (forall X : num.matrix,
           num.check_array X = Ok () ->
           length X = length X0 ->
           exists masks,
             MissIndicator.transform (MissIndicator.fit self X0).1 X
             = Ok (X ++ masks)
             /\ length masks
                = length (filter (fun col => num.has_missing col = true) X0)
             /\ (forall m c, m ∈ masks -> c ∈ m -> c = Some 0 \/ c = Some 1))
     /\ (forall X : num.matrix,
           num.check_array X = Error ValueError \/ length X <> length X0 ->
           MissIndicator.transform (MissIndicator.fit self X0).1 X
           = Error ValueError))
  /\
  (forall (self : MissIndicator.t) (X0 : num.matrix),
     num.check_array X0 = Error ValueError ->
     (MissIndicator.fit self X0).2 = Error ValueError
     /\ (MissIndicator.fit_transform self X0).2 = Error ValueError
     /\ forall X : num.matrix,
          MissIndicator.transform (MissIndicator.fit self X0).1 X
          = Error NotFittedError)
  /\
  (forall (self : MissIndicator.t) (X0 : num.matrix),
     MissIndicator.is_fit (MissIndicator.fit self X0).1
     = MissIndicator.is_fit self
     /\ MissIndicator.is_fit (MissIndicator.fit_transform self X0).1
        = MissIndicator.is_fit self).
Proof.
  split; [reflexivity |]. split; [| split].
  - intros self X0 Hchk0.
    assert (Hfit : MissIndicator.fit self X0
                   = (MissIndicator.mk (MissIndicator.is_fit self)
                        (Some (Some (MissingIndicator.fitted X0))), Ok ())).
    { unfold MissIndicator.fit, MissingIndicator.fit. rewrite Hchk0.
      reflexivity. }
    rewrite Hfit. cbn [fst snd]. split; [reflexivity |]. split.
    + intros X Hchk Hlen.
      unfold MissIndicator.transform, MissIndicator.concatenate_mask.
      cbn [MissIndicator.mi]. unfold MissingIndicator.transform.
      rewrite Hchk. cbn [mbind result_bind].
      change (MissingIndicator.n_features_in_ (MissingIndicator.fitted X0))
        with (length X0).
      destruct (decide (length X = length X0)); [| contradiction].
      cbn [mbind result_bind]. eexists. split; [reflexivity |]. split.
      * rewrite !length_fmap. apply features_count.
      * intros m c Hm Hc.
        apply list_elem_of_fmap in Hm as (bs & -> & _).
        unfold MissIndicator.mask_column in Hc.
        apply list_elem_of_fmap in Hc as (b & -> & _).
        destruct b; [right | left]; reflexivity.
    + intros X Hbad.
      unfold MissIndicator.transform, MissIndicator.concatenate_mask.
      cbn [MissIndicator.mi]. unfold MissingIndicator.transform.
      destruct (check_array_outcome X) as [Hchk | Hchk]; rewrite Hchk;
        [| reflexivity].
      cbn [mbind result_bind].
      change (MissingIndicator.n_features_in_ (MissingIndicator.fitted X0))
        with (length X0).
      destruct Hbad as [Hbad | Hbad]; [congruence |].
      destruct (decide (length X = length X0)); [contradiction | reflexivity].
  - intros self X0 Hchk0.
    assert (Hfit : MissIndicator.fit self X0
                   = (MissIndicator.mk (MissIndicator.is_fit self) (Some None),
                      Error ValueError)).
    { unfold MissIndicator.fit, MissingIndicator.fit. rewrite Hchk0.
      reflexivity. }
    unfold MissIndicator.fit_transform. rewrite Hfit.
    repeat split; reflexivity.
  - intros self X0. unfold MissIndicator.fit_transform, MissIndicator.fit.
    destruct (MissingIndicator.fit X0); split; reflexivity.
Qed.

Lemma miss_indicator_transform_shape_witness :
  (exists masks,
     MissIndicator.transform
       (MissIndicator.fit MissIndicator.__init__
          [num.complete_column; num.gappy_column]).1
       [num.gappy_column; num.complete_column]
     = Ok ([num.gappy_column; num.complete_column] ++ masks)
     /\ length masks = 1%nat)
  /\ MissIndicator.transform
       (MissIndicator.fit MissIndicator.__init__
          [num.complete_column; num.gappy_column]).1
       [[]; []]
     = Error ValueError
  /\ MissIndicator.transform
       (MissIndicator.fit MissIndicator.__init__ []).1
       [num.gappy_column]
     = Error NotFittedError.
Proof.
  split; [| split].
  - destruct (proj1 (proj2 (proj1 (proj2 miss_indicator_transform_shape)
                              MissIndicator.__init__
                              [num.complete_column; num.gappy_column]
                              eq_refl))
                [num.gappy_column; num.complete_column] eq_refl eq_refl)
      as (masks & H & Hlen & _).
    exists masks. split; [exact H |]. rewrite Hlen. reflexivity.
  - apply (proj2 (proj2 (proj1 (proj2 miss_indicator_transform_shape)
                           MissIndicator.__init__
                           [num.complete_column; num.gappy_column]
                           eq_refl))).
    left. reflexivity.
  - apply (proj2 (proj2 (proj1 (proj2 (proj2 miss_indicator_transform_shape))
                           MissIndicator.__init__ [] eq_refl))).
Defined.

(** ** The fairness metric on constant and on unusable predictions *)

Lemma Qltb_irrefl (c : Q) : Qltb c c = false.
Proof. apply Qltb_ge. lra. Qed.

Lemma credit2_constant (c : Q) (n : nat) :
  sklearn.credit2 c (replicate n c) = Z.of_nat n.
Proof.
  induction n as [|n IH]; [reflexivity |].
  cbn [replicate sklearn.credit2]. rewrite Qltb_irrefl, IH. lia.
Qed.

Lemma concordance2_constant (c : Q) (m n : nat) :
  sklearn.concordance2 (replicate m c) (replicate n c)
  = (Z.of_nat m * Z.of_nat n)%Z.
Proof.
  induction m as [|m IH]; [reflexivity |].
  cbn [replicate sklearn.concordance2]. rewrite credit2_constant, IH. lia.
Qed.

Lemma scores_of_constant (label : Z) (y_true : list Z) (c : Q) (n : nat) :
  sklearn.scores_of label y_true (replicate n c)
  = replicate (length (sklearn.scores_of label y_true (replicate n c))) c.
Proof.
  unfold sklearn.scores_of. rewrite length_fmap.
  apply fmap_constant. intros [yv sv] Hx.
  apply list_elem_of_filter in Hx as [_ Hx].
  apply elem_of_zip_r in Hx. apply elem_of_replicate in Hx as [-> _].
  reflexivity.
Qed.

Lemma scores_of_nonempty (label : Z) (y_true : list Z) (scores : list Q) :
  label ∈ y_true -> length y_true = length scores ->
  (0 < length (sklearn.scores_of label y_true scores))%nat.
Proof.
  intros Hin Hlen. unfold sklearn.scores_of. rewrite length_fmap.
  apply list_elem_of_lookup in Hin as [i Hi].
  destruct (lookup_lt_is_Some_2 scores i) as [sv Hsv].
  { rewrite <- Hlen. apply lookup_lt_Some in Hi. exact Hi. }
  assert (Hz : (label, sv) ∈ filter (fun ys : Z * Q => ys.1 = label)
                                    (zip y_true scores)).
  { apply list_elem_of_filter. split; [reflexivity |].
    apply list_elem_of_lookup. exists i.
    unfold zip. apply lookup_zip_with_Some. exists label, sv. auto. }
  destruct (filter _ (zip y_true scores)); [by apply not_elem_of_nil in Hz |].
  simpl. lia.
Qed.

Lemma finite_values_constant (c : Q) (n : nat) :
  finite_values (replicate n (Fin c)) = Some (replicate n c).
Proof.
  induction n as [|n IH]; [reflexivity |].
  cbn [replicate finite_values]. rewrite IH. reflexivity.
Qed.

Lemma Qhalf_of_pairs (z : Z) :
  (0 < z)%Z -> inject_Z z / inject_Z (2 * z) == 1 # 2.
Proof.
  intros Hz. destruct z as [|p|p]; try lia.
  unfold Qeq, Qdiv, Qmult, Qinv. simpl. lia.
Qed.

(** The AUC of a constant score against two classes is one half. *)
Lemma roc_auc_score_constant (y_true : list Z) (c : Q) :
  np.unique y_true = [0%Z; 1%Z] ->
  exists auc,
    sklearn.roc_auc_score y_true (replicate (length y_true) (Fin c)) = Ok auc
    /\ auc == 1 # 2.
Proof.
  intros Hu. unfold sklearn.roc_auc_score.
  rewrite length_replicate.
  destruct (decide (length y_true = length y_true)); [| contradiction].
  rewrite finite_values_constant, Hu.
  eexists. split; [reflexivity |].
  assert (H1 : (1%Z) ∈ y_true) by (apply unique_elem; rewrite Hu; right; left).
  assert (H0 : (0%Z) ∈ y_true) by (apply unique_elem; rewrite Hu; left).
  pose proof (scores_of_nonempty 1 y_true (replicate (length y_true) c) H1
                ltac:(rewrite length_replicate; reflexivity)) as Hp.
  pose proof (scores_of_nonempty 0 y_true (replicate (length y_true) c) H0
                ltac:(rewrite length_replicate; reflexivity)) as Hn.
  cbv zeta.
  rewrite (scores_of_constant 1 y_true c (length y_true)) at 1.
  rewrite (scores_of_constant 0 y_true c (length y_true)) at 1.
  rewrite concordance2_constant.
  apply Qhalf_of_pairs. nia.
Qed.

Lemma sens_auc_loop_constant (column : list Z) (c : Q) (uniques : list Z) :
  length (np.unique column) <> 1%nat ->
  (forall s_unique, s_unique ∈ uniques -> s_unique ∈ np.unique column) ->
  forall acc, acc <= 1 # 2 ->
    exists r,
      sens_auc_loop acc column (replicate (length column) (Fin c)) uniques
      = Ok r
      /\ r <= 1 # 2 /\ (uniques <> [] -> r == 1 # 2).
Proof.
  intros Hdeg.
  induction uniques as [|s_unique uniques IH]; intros Hsub acc Hacc; simpl.
  - exists acc. split; [reflexivity |]. split; [exact Hacc | congruence].
  - pose proof (indicator_unique column s_unique (Hsub _ ltac:(left)) Hdeg)
      as Hu.
    destruct (roc_auc_score_constant _ c Hu) as (auc & Hauc & Hhalf).
    rewrite length_fmap in Hauc. rewrite Hauc. simpl.
    set (acc' := py_max acc (py_max (1 - auc) auc)).
    assert (Hacc' : acc' == 1 # 2).
    { unfold acc', py_max.
      destruct (Qltb (1 - auc) auc) eqn:E1;
        destruct (Qltb acc _) eqn:E2;
        try (apply Qltb_lt in E2); try (apply Qltb_ge in E2); lra. }
    destruct (IH (fun s Hs => Hsub s ltac:(right; exact Hs)) acc'
                 ltac:(lra)) as (r & Hr & Hle & Hne).
    exists r. split; [exact Hr |]. split; [exact Hle |].
    intros _. destruct uniques as [|u us].
    + simpl in Hr. injection Hr as <-. exact Hacc'.
    + apply Hne. discriminate.
Qed.

(** X8. A classifier that gives every sample the same probability is
    perfectly fair under the metric: for one protected column with at
    least two distinct values, [strong_demographic_parity_score] returns 0
    on constant predictions (each group indicator has AUC one half). *)
Theorem sdp_constant_predictions :
  forall (s : sensitive) (column : list Z) (c : Q),
    as_columns s = [column] ->
    (2 <= length (np.unique column))%nat ->
    exists x,
      strong_demographic_parity_score s (replicate (length column) (Fin c))
      = Ok (PyNum x)
      /\ x == 0.
Proof.
  intros s column c Hs Hdeg.
  rewrite (sdp_one_column s column _ Hs). unfold column_auc.
  destruct (decide (length (np.unique column) = 1%nat)) as [H1 | Hne]; [lia |].
  destruct (sens_auc_loop_constant column c (np.unique column) Hne
              (fun _ H => H) 0 ltac:(lra)) as (r & Hr & _ & Hhalf).
  rewrite Hr. cbn [mbind result_bind]. eexists. split; [reflexivity |].
  assert (Hr2 : r == 1 # 2).
  { apply Hhalf. intros Hnil. rewrite Hnil in Hdeg. simpl in Hdeg. lia. }
  change (Q_of_nat 2) with 2. change (Q_of_nat 1) with 1.
  apply Qabs_case; intros; lra.
Qed.

Lemma sdp_constant_predictions_witness :
  exists x,
    strong_demographic_parity_score (Array1D [0; 1; 1; 0; 2]%Z)
      (replicate 5 (Fin (1 # 2))) = Ok (PyNum x)
    /\ x == 0.
Proof.
  apply (sdp_constant_predictions (Array1D [0; 1; 1; 0; 2]%Z)
           [0; 1; 1; 0; 2]%Z (1 # 2) eq_refl).
  simpl. lia.
Defined.

Lemma finite_values_none (y_prob : list pyfloat) :
  (exists p, p ∈ y_prob /\ isfinite p = false) -> finite_values y_prob = None.
Proof.
  intros (p & Hp & Hnf).
  induction y_prob as [|q y_prob IH]; [by apply not_elem_of_nil in Hp |].
  apply elem_of_cons in Hp as [<- | Hp].
  - destruct p; [discriminate | reflexivity | reflexivity | reflexivity].
  - destruct q; try reflexivity. simpl. rewrite (IH Hp). reflexivity.
Qed.

(** X9. Outside the evaluator's guard the metric does not tolerate
    unusable predictions: for a protected column with at least two
    distinct values, a [y_prob] of another length than the column, or one
    holding a NaN or an infinity, ends in a [ValueError] from
    [roc_auc_score]. An empty protected column, on the other hand, is
    scored 1 without looking at [y_prob]. *)
Theorem sdp_value_error :
  (forall (s : sensitive) (column : list Z) (y_prob : list pyfloat),
     as_columns s = [column] ->
     (2 <= length (np.unique column))%nat ->
     length y_prob <> length column \/
       (exists p, p ∈ y_prob /\ isfinite p = false) ->
     strong_demographic_parity_score s y_prob = Error ValueError)
  /\
  (forall (s : sensitive) (y_prob : list pyfloat),
     as_columns s = [[]] ->
     exists x, strong_demographic_parity_score s y_prob = Ok (PyNum x)
               /\ x == 1).
Proof.
  split.
  - intros s column y_prob Hs Hdeg Hbad.
    rewrite (sdp_one_column s column _ Hs). unfold column_auc.
    destruct (decide (length (np.unique column) = 1%nat)) as [H1 | _]; [lia |].
    destruct (np.unique column) as [|s_unique uniques]; [simpl in Hdeg; lia |].
    simpl. unfold sklearn.roc_auc_score. rewrite length_fmap.
    destruct (decide (length column = length y_prob)) as [Hlen | _];
      [| reflexivity].
    destruct Hbad as [Hbad | Hbad]; [congruence |].
    rewrite (finite_values_none y_prob Hbad). reflexivity.
  - intros s y_prob Hs.
    rewrite (sdp_one_column s [] _ Hs). simpl.
    eexists. split; [reflexivity |]. vm_compute. reflexivity.
Qed.

Lemma sdp_value_error_witness :
  strong_demographic_parity_score (Array1D [0; 1; 1]%Z)
    [Fin (1 # 2); NaN; Fin (1 # 4)] = Error ValueError
  /\ strong_demographic_parity_score (Array1D [0; 1; 1]%Z)
       [Fin (1 # 2); Fin (1 # 4)] = Error ValueError.
Proof.
  split.
  - apply (proj1 sdp_value_error (Array1D [0; 1; 1]%Z) [0; 1; 1]%Z _ eq_refl).
    + simpl. lia.
    + right. exists NaN. split; [right; left | reflexivity].
  - apply (proj1 sdp_value_error (Array1D [0; 1; 1]%Z) [0; 1; 1]%Z _ eq_refl).
    + simpl. lia.
    + left. simpl. lia.
Defined.

(** ** The evaluator: the range of what it returns *)

Lemma Q_of_nat_S (n : nat) : Q_of_nat (S n) == Q_of_nat n + 1.
Proof.
  unfold Q_of_nat. rewrite Nat2Z.inj_succ. unfold Z.succ.
  rewrite inject_Z_plus. reflexivity.
Qed.

Lemma Qsum_bounds (lo hi : Q) (l : list Q) :
  (forall x, x ∈ l -> lo <= x <= hi) ->
  lo * Q_of_nat (length l) <= Qsum l <= hi * Q_of_nat (length l).
Proof.
  induction l as [|x l IH]; intros Hall.
  - change (Qsum []) with 0. change (Q_of_nat (length (@nil Q))) with 0.
    lra.
  - cbn [length]. rewrite Q_of_nat_S.
    change (Qsum (x :: l)) with (x + Qsum l).
    pose proof (Hall x ltac:(left)) as Hx.
    pose proof (IH (fun y Hy => Hall y ltac:(right; exact Hy))) as Hl.
    lra.
Qed.

(** The mean of a non-empty list lies where its entries lie. *)
Lemma nanmean_bounds (lo hi : Q) (l : list Q) :
  l <> [] ->
  (forall x, x ∈ l -> lo <= x <= hi) ->
  lo <= np.nanmean l <= hi.
Proof.
  intros Hne Hall. unfold np.nanmean.
  pose proof (Qsum_bounds lo hi l Hall) as Hs.
  assert (Hpos : 0 < Q_of_nat (length l)).
  { destruct l as [|x l]; [congruence |].
    unfold Q_of_nat. change 0 with (inject_Z 0). rewrite <- Zlt_Qlt.
    simpl. lia. }
  split.
  - apply Qle_shift_div_l; [exact Hpos | lra].
  - apply Qle_shift_div_r; [exact Hpos | lra].
Qed.

Lemma split_length (make_test_folds : nat -> list string -> result (list nat))
    (n_splits n_samples : nat) (y : list string)
    (folds : list (list nat * list nat)) :
  model_selection.split make_test_folds n_splits n_samples y = Ok folds ->
  length folds = n_splits /\ (2 <= n_splits <= n_samples)%nat.
Proof.
  unfold model_selection.split.
  destruct (decide (n_splits < 2)%nat); [discriminate |].
  destruct (decide (n_samples < n_splits)%nat); [discriminate |].
  destruct (make_test_folds n_splits y) as [tf | e]; [| discriminate].
  simpl. intros [= <-]. rewrite length_fmap, length_seq. lia.
Qed.

Lemma fairness_proxy_bounds (auc : Q) :
  0 <= auc <= 1 -> 1 # 2 <= (5 # 10) + Qabs ((5 # 10) - auc) <= 1.
Proof.
  intros Ha. apply Qabs_case; intros; lra.
Qed.

Lemma fal_fold_scores_bounds (y_true s_test : list Z)
    (y_pred_probs : list pyfloat) (perf fair : Q) :
  fal.fold_scores y_true s_test y_pred_probs = Ok (perf, fair) ->
  0 <= perf <= 1 /\ 1 # 2 <= fair <= 1.
Proof.
  unfold fal.fold_scores. case_bool_decide.
  - intros [= <- <-]. lra.
  - destruct (sklearn.roc_auc_score y_true _) as [a | e] eqn:Ha;
      [| discriminate].
    cbn [mbind result_bind].
    destruct (sklearn.roc_auc_score s_test _) as [b | e] eqn:Hb;
      [| discriminate].
    cbn [mbind result_bind]. intros [= <- <-].
    apply roc_auc_score_bounds in Ha. apply roc_auc_score_bounds in Hb.
    split; [exact Ha | apply fairness_proxy_bounds; exact Hb].
Qed.

Lemma lr_fold_scores_bounds (y_true s_test : list Z)
    (y_pred_probs : list pyfloat) (perf fair : Q) :
  lr.fold_scores y_true s_test y_pred_probs = Ok (perf, fair) ->
  0 <= perf <= 1 /\ 1 # 2 <= fair <= 1.
Proof.
  unfold lr.fold_scores.
  destruct (sklearn.roc_auc_score y_true _) as [a | e] eqn:Ha;
    [| discriminate].
  cbn [mbind result_bind].
  destruct (sklearn.roc_auc_score s_test _) as [b | e] eqn:Hb;
    [| discriminate].
  cbn [mbind result_bind]. intros [= <- <-].
  apply roc_auc_score_bounds in Ha. apply roc_auc_score_bounds in Hb.
  split; [exact Ha | apply fairness_proxy_bounds; exact Hb].
Qed.

Lemma Forall_snoc {A} (P : A -> Prop) (l : list A) (x : A) :
  Forall P l -> P x -> Forall P (l ++ [x]).
Proof. intros Hl Hx. apply Forall_app. split; [exact Hl | by constructor]. Qed.

Section LoopRanges.

Context {row : Type}.
Variable sensitive_col : row -> Z.

Lemma fal_cv_loop_ranges
    (predict_proba : fal.params -> pd.frame row -> list Z -> pd.frame Z ->
                     pd.frame row -> result (list pyfloat))
    (p : fal.params) (X : pd.frame row) (y : pd.frame Z)
    (folds : list (list nat * list nat)) :
  forall accP accF P F,
    fal.cv_loop sensitive_col predict_proba p X y folds accP accF
    = Ok (P, F) ->
    Forall (fun x => 0 <= x <= 1) accP ->
    Forall (fun x => 1 # 2 <= x <= 1) accF ->
    Forall (fun x => 0 <= x <= 1) P /\ Forall (fun x => 1 # 2 <= x <= 1) F
    /\ length P = (length accP + length folds)%nat
    /\ length F = (length accF + length folds)%nat.
Proof.
  induction folds as [|fold folds IH]; intros accP accF P F Hloop HP HF;
    simpl in Hloop.
  - injection Hloop as <- <-. repeat split; [assumption | assumption | |];
      simpl; lia.
  - destruct (fal.fold_predictions _ _ p X y fold) as [probs | e];
      [| discriminate].
    cbn [mbind result_bind] in Hloop.
    destruct (fal.fold_scores _ _ probs) as [[perf fair] | e] eqn:Hsc;
      [| discriminate].
    cbn [mbind result_bind] in Hloop.
    apply fal_fold_scores_bounds in Hsc as [Hp Hf].
    destruct (IH _ _ _ _ Hloop (Forall_snoc _ _ _ HP Hp)
                 (Forall_snoc _ _ _ HF Hf)) as (H1 & H2 & H3 & H4).
    rewrite length_app in H3, H4. simpl in *.
    repeat split; [assumption | assumption | lia | lia].
Qed.

Lemma frf_cv_loop_ranges
    (predict_proba : frf.FairRandomForestClassifier -> pd.frame row ->
                     list Z -> pd.frame Z -> pd.frame row ->
                     result (list pyfloat))
    (model : frf.FairRandomForestClassifier) (X : pd.frame row)
    (y : pd.frame Z) (folds : list (list nat * list nat)) :
  forall acc L,
    frf.cv_loop sensitive_col predict_proba model X y folds acc = Ok L ->
    Forall (fun x => 0 <= x <= 1) acc ->
    Forall (fun x => 0 <= x <= 1) L
    /\ length L = (length acc + length folds)%nat.
Proof.
  induction folds as [|fold folds IH]; intros acc L Hloop Hacc;
    simpl in Hloop.
  - injection Hloop as <-. split; [assumption | simpl; lia].
  - destruct (frf.fold_predictions _ _ model X y fold) as [probs | e];
      [| discriminate].
    cbn [mbind result_bind] in Hloop.
    destruct (frf.fold_scores _ probs) as [auc | e] eqn:Hsc; [| discriminate].
    cbn [mbind result_bind] in Hloop.
    apply roc_auc_score_bounds in Hsc.
    destruct (IH _ _ Hloop (Forall_snoc _ _ _ Hacc Hsc)) as (H1 & H2).
    rewrite length_app in H2. simpl in *. split; [assumption | lia].
Qed.

Lemma lr_cv_loop_ranges
    (predict_proba : lr.LogisticRegression -> pd.frame row -> pd.frame Z ->
                     pd.frame row -> result (list pyfloat))
    (model : lr.LogisticRegression) (X : pd.frame row) (y s : pd.frame Z)
    (folds : list (list nat * list nat)) :
  forall accP accF P F,
    lr.cv_loop predict_proba model X y s folds accP accF = Ok (P, F) ->
    Forall (fun x => 0 <= x <= 1) accP ->
    Forall (fun x => 1 # 2 <= x <= 1) accF ->
    Forall (fun x => 0 <= x <= 1) P /\ Forall (fun x => 1 # 2 <= x <= 1) F
    /\ length P = (length accP + length folds)%nat
    /\ length F = (length accF + length folds)%nat.
Proof.
  induction folds as [|fold folds IH]; intros accP accF P F Hloop HP HF;
    simpl in Hloop.
  - injection Hloop as <- <-. repeat split; [assumption | assumption | |];
      simpl; lia.
  - destruct (lr.fold_predictions _ model X y fold) as [probs | e];
      [| discriminate].
    cbn [mbind result_bind] in Hloop.
    destruct (lr.fold_scores _ _ probs) as [[perf fair] | e] eqn:Hsc;
      [| discriminate].
    cbn [mbind result_bind] in Hloop.
    apply lr_fold_scores_bounds in Hsc as [Hp Hf].
    destruct (IH _ _ _ _ Hloop (Forall_snoc _ _ _ HP Hp)
                 (Forall_snoc _ _ _ HF Hf)) as (H1 & H2 & H3 & H4).
    rewrite length_app in H3, H4. simpl in *.
    repeat split; [assumption | assumption | lia | lia].
Qed.

End LoopRanges.

Lemma mean_of_folds (lo hi : Q) (l : list Q) (n : nat) :
  Forall (fun x => lo <= x <= hi) l -> length l = n -> (2 <= n)%nat ->
  lo <= np.nanmean l <= hi.
Proof.
  intros Hall Hlen Hn. apply nanmean_bounds.
  - intros ->. simpl in Hlen. lia.
  - apply Forall_forall. exact Hall.
Qed.

Lemma fal_evaluator_ranges {row : Type} (sensitive_col : row -> Z)
    (make_test_folds : nat -> list string -> result (list nat))
    (predict_proba : fal.params -> pd.frame row -> list Z ->
                     pd.frame Z -> pd.frame row -> result (list pyfloat))
    (p : fal.params) (X : pd.frame row) (y : pd.frame Z) (cv : nat)
    (auc_perf auc_fair : Q) :
  fal.cross_val_score_custom sensitive_col make_test_folds predict_proba
    p X y cv = Ok (auc_perf, auc_fair) ->
  0 <= auc_perf <= 1 /\ 1 # 2 <= auc_fair <= 1.
Proof.
  intros H. unfold fal.cross_val_score_custom in H.
  destruct (model_selection.split make_test_folds cv (length X) _)
    as [folds | e] eqn:Hs; [| discriminate].
  cbn [mbind result_bind] in H.
  destruct (fal.cv_loop sensitive_col predict_proba p X y folds [] [])
    as [[P F] | e] eqn:Hl; [| discriminate].
  cbn [mbind result_bind] in H. injection H as <- <-.
  apply split_length in Hs as [Hlen Hcv].
  destruct (fal_cv_loop_ranges sensitive_col predict_proba p X y folds
              [] [] P F Hl (Forall_nil_2 _) (Forall_nil_2 _))
    as (HP & HF & HlP & HlF).
  simpl in HlP, HlF. split.
  - apply (mean_of_folds 0 1 P cv HP); lia.
  - apply (mean_of_folds (1 # 2) 1 F cv HF); lia.
Qed.

Lemma lr_evaluator_ranges {row : Type}
    (make_test_folds : nat -> list string -> result (list nat))
    (predict_proba : lr.LogisticRegression -> pd.frame row ->
                     pd.frame Z -> pd.frame row -> result (list pyfloat))
    (model : lr.LogisticRegression) (X : pd.frame row)
    (y s : pd.frame Z) (cv : nat) (auc_perf auc_fair : Q) :
  lr.cross_val_score_custom make_test_folds predict_proba model X y s cv
  = Ok (auc_perf, auc_fair) ->
  0 <= auc_perf <= 1 /\ 1 # 2 <= auc_fair <= 1.
Proof.
  intros H. unfold lr.cross_val_score_custom in H.
  destruct (model_selection.split make_test_folds cv (length X) _)
    as [folds | e] eqn:Hs; [| discriminate].
  cbn [mbind result_bind] in H.
  destruct (lr.cv_loop predict_proba model X y s folds [] [])
    as [[P F] | e] eqn:Hl; [| discriminate].
  cbn [mbind result_bind] in H. injection H as <- <-.
  apply split_length in Hs as [Hlen Hcv].
  destruct (lr_cv_loop_ranges predict_proba model X y s folds [] [] P F Hl
              (Forall_nil_2 _) (Forall_nil_2 _)) as (HP & HF & HlP & HlF).
  simpl in HlP, HlF. split.
  - apply (mean_of_folds 0 1 P cv HP); lia.
  - apply (mean_of_folds (1 # 2) 1 F cv HF); lia.
Qed.

Lemma frf_evaluator_ranges {row : Type} (sensitive_col : row -> Z)
    (make_test_folds : nat -> list string -> result (list nat))
    (predict_proba : frf.FairRandomForestClassifier -> pd.frame row ->
                     list Z -> pd.frame Z -> pd.frame row ->
                     result (list pyfloat))
    (model : frf.FairRandomForestClassifier) (X : pd.frame row)
    (y : pd.frame Z) (cv : nat) (roc_auc : Q) :
  frf.cross_val_score_custom sensitive_col make_test_folds predict_proba
    model X y cv = Ok roc_auc ->
  0 <= roc_auc <= 1.
Proof.
  intros H. unfold frf.cross_val_score_custom in H.
  destruct (model_selection.split make_test_folds cv (length X) _)
    as [folds | e] eqn:Hs; [| discriminate].
  cbn [mbind result_bind] in H.
  destruct (frf.cv_loop sensitive_col predict_proba model X y folds [])
    as [L | e] eqn:Hl; [| discriminate].
  cbn [mbind result_bind] in H. injection H as <-.
  apply split_length in Hs as [Hlen Hcv].
  destruct (frf_cv_loop_ranges sensitive_col predict_proba model X y folds
              [] L Hl (Forall_nil_2 _)) as (HL & HlL).
  simpl in HlL. apply (mean_of_folds 0 1 L cv HL); lia.
Qed.

(** X10. Whatever the classifier, the data and the fold assignment, the
    scores the evaluator returns are means of per-fold scores over at least
    two folds and lie in fixed ranges: the performance score between 0 and
    1 in all three scripts, and the fairness score of the
    adversarial-learning and logistic-regression scripts between 1/2 and 1
    (it is [0.5 + |0.5 - AUC|], never below one half). *)
Theorem evaluator_score_ranges :
  (forall (row : Type) (sensitive_col : row -> Z)
          (make_test_folds : nat -> list string -> result (list nat))
          (predict_proba : fal.params -> pd.frame row -> list Z ->
                           pd.frame Z -> pd.frame row -> result (list pyfloat))
          (p : fal.params) (X : pd.frame row) (y : pd.frame Z) (cv : nat)
          (auc_perf auc_fair : Q),
     fal.cross_val_score_custom sensitive_col make_test_folds predict_proba
       p X y cv = Ok (auc_perf, auc_fair) ->
     0 <= auc_perf <= 1 /\ 1 # 2 <= auc_fair <= 1)
  /\
  (forall (row : Type)
          (make_test_folds : nat -> list string -> result (list nat))
          (predict_proba : lr.LogisticRegression -> pd.frame row ->
                           pd.frame Z -> pd.frame row -> result (list pyfloat))
          (model : lr.LogisticRegression) (X : pd.frame row)
          (y s : pd.frame Z) (cv : nat) (auc_perf auc_fair : Q),
     lr.cross_val_score_custom make_test_folds predict_proba model X y s cv
     = Ok (auc_perf, auc_fair) ->
     0 <= auc_perf <= 1 /\ 1 # 2 <= auc_fair <= 1)
  /\
  (forall (row : Type) (sensitive_col : row -> Z)
          (make_test_folds : nat -> list string -> result (list nat))
          (predict_proba : frf.FairRandomForestClassifier -> pd.frame row ->
                           list Z -> pd.frame Z -> pd.frame row ->
                           result (list pyfloat))
          (model : frf.FairRandomForestClassifier) (X : pd.frame row)
          (y : pd.frame Z) (cv : nat) (roc_auc : Q),
     frf.cross_val_score_custom sensitive_col make_test_folds predict_proba
       model X y cv = Ok roc_auc ->
     0 <= roc_auc <= 1).
Proof.
  split; [| split].
  - intros row sc mtf clf p X y cv perf fair H.
    exact (fal_evaluator_ranges sc mtf clf p X y cv perf fair H).
  - intros row mtf clf model X y s cv perf fair H.
    exact (lr_evaluator_ranges mtf clf model X y s cv perf fair H).
  - intros row sc mtf clf model X y cv perf H.
    exact (frf_evaluator_ranges sc mtf clf model X y cv perf H).
Qed.

Lemma evaluator_score_ranges_witness :
  exists auc_perf auc_fair,
    fal.cross_val_score_custom example.sensitive_col
      model_selection.round_robin
      (fun _ _ _ _ X_test => example.diverged X_test)
      example.fal_params example.X example.y 10 = Ok (auc_perf, auc_fair)
    /\ 0 <= auc_perf <= 1 /\ 1 # 2 <= auc_fair <= 1.
Proof.
  assert (H : exists auc_perf auc_fair,
    fal.cross_val_score_custom example.sensitive_col
      model_selection.round_robin
      (fun _ _ _ _ X_test => example.diverged X_test)
      example.fal_params example.X example.y 10 = Ok (auc_perf, auc_fair)).
  { vm_compute. eexists. eexists. reflexivity. }
  destruct H as (a & b & H). exists a, b. split; [exact H |].
  exact (proj1 evaluator_score_ranges _ _ _ _ _ _ _ _ a b H).
Defined.

(** X11. The loss of a trial is bounded by the trade-off weight. In the
    adversarial-learning script, for theta between 0 and 1, the loss lies
    between [3*theta/2 - 1] and [theta]: it is never positive for theta =
    0 and at least one half for theta = 1. In the other two scripts the
    loss is the negated performance and lies between -1 and 0. Every trial
    the objective returns has status [STATUS_OK]. *)
Theorem objective_loss_range :
  (forall (row : Type) (sensitive_col : row -> Z)
          (make_test_folds : nat -> list string -> result (list nat))
          (predict_proba : fal.params -> pd.frame row -> list Z ->
                           pd.frame Z -> pd.frame row -> result (list pyfloat))
          (g : fal.globals row) (p : fal.params) (t : Trial fal.params),
     0 <= fal.theta g <= 1 ->
     fal.objective sensitive_col make_test_folds predict_proba g p = Ok t ->
     (3 # 2) * fal.theta g - 1 <= loss t <= fal.theta g
     /\ trial_status t = STATUS_OK /\ trained_model t = p)
  /\
  (forall (row : Type)
          (make_test_folds : nat -> list string -> result (list nat))
          (predict_proba : lr.LogisticRegression -> pd.frame row ->
                           pd.frame Z -> pd.frame row -> result (list pyfloat))
          (g : lr.globals row) (p : lr.params)
          (t : Trial lr.LogisticRegression),
     lr.objective make_test_folds predict_proba g p = Ok t ->
     - (1) <= loss t <= 0 /\ trial_status t = STATUS_OK)
  /\
  (forall (row : Type) (sensitive_col : row -> Z)
          (make_test_folds : nat -> list string -> result (list nat))
          (predict_proba : frf.FairRandomForestClassifier -> pd.frame row ->
                           list Z -> pd.frame Z -> pd.frame row ->
                           result (list pyfloat))
          (g : frf.globals row) (p : frf.params)
          (t : Trial frf.FairRandomForestClassifier),
     frf.objective sensitive_col make_test_folds predict_proba g p = Ok t ->
     - (1) <= loss t <= 0 /\ trial_status t = STATUS_OK).
Proof.
  split; [| split].
  - intros row sc mtf clf g p t Hth H. unfold fal.objective in H.
    destruct (fal.cross_val_score_custom sc mtf clf p _ _ 10)
      as [[perf fair] | e] eqn:Hcv; [| discriminate].
    cbn [mbind result_bind] in H. injection H as <-.
    destruct (fal_evaluator_ranges _ _ _ _ _ _ _ _ _ Hcv) as [Hp Hf].
    cbn [loss trial_status trained_model].
    split; [| split; reflexivity].
    split; nra.
  - intros row mtf clf g p t H. unfold lr.objective in H.
    destruct (lr.cross_val_score_custom mtf clf _ _ _ _ K)
      as [[perf fair] | e] eqn:Hcv; [| discriminate].
    cbn [mbind result_bind] in H. injection H as <-.
    destruct (lr_evaluator_ranges _ _ _ _ _ _ _ _ _ Hcv) as [Hp Hf].
    cbn [loss trial_status]. unfold lr.theta.
    split; [| reflexivity]. split; lra.
  - intros row sc mtf clf g p t H. unfold frf.objective in H.
    destruct (frf.cross_val_score_custom sc mtf clf _ _ _ K)
      as [perf | e] eqn:Hcv; [| discriminate].
    cbn [mbind result_bind] in H. injection H as <-.
    pose proof (frf_evaluator_ranges _ _ _ _ _ _ _ _ Hcv) as Hp.
    cbn [loss trial_status]. split; [| reflexivity]. split; lra.
Qed.

Lemma objective_loss_range_witness :
  exists t,
    fal.objective example.sensitive_col model_selection.round_robin
      (fun _ _ _ _ X_test => example.oracle X_test)
      (fal.mkGlobals example.X example.y (3 # 10)) example.fal_params = Ok t
    /\ (3 # 2) * (3 # 10) - 1 <= loss t <= 3 # 10.
Proof.
  assert (H : exists t,
    fal.objective example.sensitive_col model_selection.round_robin
      (fun _ _ _ _ X_test => example.oracle X_test)
      (fal.mkGlobals example.X example.y (3 # 10)) example.fal_params = Ok t).
  { vm_compute. eexists. reflexivity. }
  destruct H as (t & H). exists t. split; [exact H |].
  apply (proj1 objective_loss_range example.row example.sensitive_col
           model_selection.round_robin
           (fun _ _ _ _ X_test => example.oracle X_test)
           (fal.mkGlobals example.X example.y (3 # 10)) example.fal_params t);
    [simpl; lra | exact H].
Defined.

(** ** Selecting the best trial: what does not change the choice *)

(** X12. Trials that did not succeed play no part in the selection:
    inserting one anywhere in the log, with any loss, leaves the result of
    [best_model] as it is, and so does removing all of them. *)
Theorem best_model_ignores_failed_trials :
  forall (M : Type) (before after : list (Trial M)) (t : Trial M),
    trial_status t <> STATUS_OK ->
    best_model (before ++ t :: after) = best_model (before ++ after)
    /\ best_model (filter (fun u => trial_status u = STATUS_OK)
                          (before ++ t :: after))
       = best_model (before ++ after).
Proof.
  intros M before after t Hfail.
  assert (Hdrop : filter (fun trial => STATUS_OK = trial_status trial)
                         (before ++ t :: after)
                  = filter (fun trial => STATUS_OK = trial_status trial)
                           (before ++ after)).
  { rewrite !filter_app. f_equal.
    apply filter_cons_False. congruence. }
  split.
  - unfold best_model. rewrite Hdrop. reflexivity.
  - unfold best_model.
    rewrite list_filter_filter.
    assert (Hsame : forall l : list (Trial M),
      filter (fun u => STATUS_OK = trial_status u /\ trial_status u = STATUS_OK) l
      = filter (fun trial => STATUS_OK = trial_status trial) l).
    { intros l. apply list_filter_iff. intros u. split; [tauto | auto]. }
    rewrite Hsame, Hdrop. reflexivity.
Qed.

Lemma best_model_ignores_failed_trials_witness :
  best_model (example_trials ++ [mkTrial (- (9)) STATUS_FAIL "broken"])
  = best_model example_trials.
Proof.
  pose proof (proj1 (best_model_ignores_failed_trials string example_trials []
                       (mkTrial (- (9)) STATUS_FAIL "broken")
                       ltac:(discriminate))) as H.
  rewrite app_nil_r in H. exact H.
Defined.

(** The first index of the minimum is determined by its two properties. *)
Lemma first_minimum_unique (l : list Q) (k1 k2 : nat) (x1 x2 : Q) :
  l !! k1 = Some x1 -> l !! k2 = Some x2 ->
  (forall j y, l !! j = Some y -> x1 <= y) ->
  (forall j y, (j < k1)%nat -> l !! j = Some y -> x1 < y) ->
  (forall j y, l !! j = Some y -> x2 <= y) ->
  (forall j y, (j < k2)%nat -> l !! j = Some y -> x2 < y) ->
  k1 = k2.
Proof.
  intros H1 H2 Hmin1 Hf1 Hmin2 Hf2.
  destruct (Nat.lt_trichotomy k1 k2) as [Hlt | [Heq | Hgt]]; [| exact Heq |].
  - pose proof (Hf2 k1 x1 Hlt H1). pose proof (Hmin1 k2 x2 H2). lra.
  - pose proof (Hf1 k2 x2 Hgt H2). pose proof (Hmin2 k1 x1 H1). lra.
Qed.

(** [np.argmin] after one more entry: the old index unless the new entry
    is below everything seen so far. *)
Lemma argmin_snoc (l : list Q) (x : Q) (k : nat) (xk : Q) :
  np.argmin l = Ok k -> l !! k = Some xk ->
  np.argmin (l ++ [x]) = Ok (if Qltb x xk then length l else k).
Proof.
  intros Hk Hxk.
  destruct (argmin_spec l k Hk) as (x0 & Hx0 & Hmin & Hfirst).
  rewrite Hxk in Hx0. injection Hx0 as <-.
  destruct (argmin_nonempty (l ++ [x])) as (k' & Hk' & _).
  { destruct l; discriminate. }
  destruct (argmin_spec _ _ Hk') as (x' & Hx' & Hmin' & Hfirst').
  rewrite Hk'. f_equal.
  pose proof (lookup_lt_Some _ _ _ Hxk) as Hklt.
  destruct (Qltb x xk) eqn:E.
  - apply Qltb_lt in E.
    apply (first_minimum_unique (l ++ [x]) k' (length l) x' x Hx').
    + apply list_lookup_middle. reflexivity.
    + exact Hmin'.
    + exact Hfirst'.
    + intros j y Hj. destruct (decide (j < length l)%nat) as [Hlt | Hge].
      * rewrite lookup_app_l in Hj by exact Hlt.
        pose proof (Hmin j y Hj). lra.
      * rewrite lookup_app_r in Hj by lia.
        destruct (j - length l)%nat; simpl in Hj; [| discriminate].
        injection Hj as <-. lra.
    + intros j y Hlt Hj. rewrite lookup_app_l in Hj by exact Hlt.
      pose proof (Hmin j y Hj). lra.
  - apply Qltb_ge in E.
    apply (first_minimum_unique (l ++ [x]) k' k x' xk Hx').
    + rewrite lookup_app_l by exact Hklt. exact Hxk.
    + exact Hmin'.
    + exact Hfirst'.
    + intros j y Hj. destruct (decide (j < length l)%nat) as [Hlt | Hge].
      * rewrite lookup_app_l in Hj by exact Hlt. exact (Hmin j y Hj).
      * rewrite lookup_app_r in Hj by lia.
        destruct (j - length l)%nat; simpl in Hj; [| discriminate].
        injection Hj as <-. exact E.
    + intros j y Hlt Hj. rewrite lookup_app_l in Hj by lia.
      exact (Hfirst j y Hlt Hj).
Qed.

(** X13. The choice is stable as the log grows: after a further successful
    trial the selected model is the new trial's only if its loss is
    strictly below the loss of the trial selected before; otherwise the
    selection stays what it was (an equal loss does not displace the
    earlier trial). *)
Theorem best_model_after_one_more_trial :
  forall (M : Type) (trials : list (Trial M)) (best t : Trial M),
    best ∈ trials ->
    trial_status best = STATUS_OK ->
    best_model trials = Ok (trained_model best) ->
    (forall u, u ∈ trials -> trial_status u = STATUS_OK ->
               loss best <= loss u) ->
    trial_status t = STATUS_OK ->
    best_model (trials ++ [t])
    = (if Qltb (loss t) (loss best) then Ok (trained_model t)
       else best_model trials).
Proof.
  intros M trials best t Hin Hok Hbest Hmin Ht.
  unfold best_model in *.
  rewrite filter_app.
  rewrite (filter_cons_True _ t) by (symmetry; exact Ht).
  rewrite filter_nil.
  set (valid := filter (fun trial => STATUS_OK = trial_status trial) trials)
    in *.
  rewrite fmap_app. csimpl.
  destruct (np.argmin (loss <$> valid)) as [k | e] eqn:Hk;
    [| discriminate].
  cbn [mbind result_bind] in Hbest.
  destruct (valid !! k) as [tk|] eqn:Htk; [| discriminate].
  destruct (argmin_spec _ _ Hk) as (xk & Hxk & Hmink & _).
  rewrite list_lookup_fmap, Htk in Hxk. simpl in Hxk. injection Hxk as <-.
  assert (Hloss : loss tk == loss best).
  { assert (Htkin : tk ∈ valid) by (apply list_elem_of_lookup; eauto).
    apply list_elem_of_filter in Htkin as [Htkok Htkin].
    pose proof (Hmin tk Htkin (eq_sym Htkok)) as H1.
    assert (Hbv : best ∈ valid).
    { apply list_elem_of_filter. split; [symmetry; exact Hok | exact Hin]. }
    apply list_elem_of_lookup in Hbv as [j Hj].
    pose proof (Hmink j (loss best)
                  ltac:(rewrite list_lookup_fmap, Hj; reflexivity)) as H2.
    lra. }
  rewrite (argmin_snoc (loss <$> valid) (loss t) k (loss tk) Hk
             ltac:(rewrite list_lookup_fmap, Htk; reflexivity)).
  cbn [mbind result_bind].
  assert (Hcmp : Qltb (loss t) (loss tk) = Qltb (loss t) (loss best)).
  { destruct (Qltb (loss t) (loss tk)) eqn:E1;
      destruct (Qltb (loss t) (loss best)) eqn:E2; try reflexivity;
      try (apply Qltb_lt in E1); try (apply Qltb_ge in E1);
      try (apply Qltb_lt in E2); try (apply Qltb_ge in E2); lra. }
  rewrite Hcmp. destruct (Qltb (loss t) (loss best)).
  - rewrite length_fmap.
    rewrite (list_lookup_middle valid [] t (length valid) eq_refl).
    reflexivity.
  - rewrite lookup_app_l by (apply lookup_lt_Some in Htk; exact Htk).
    rewrite Htk. reflexivity.
Qed.

Lemma best_model_after_one_more_trial_witness :
  best_model (example_trials ++ [mkTrial (- (1 # 10)) STATUS_OK "late"])
  = Ok "model1"
  /\ best_model (example_trials ++ [mkTrial (- (2 # 10)) STATUS_OK "late"])
     = Ok "late".
Proof.
  split.
  - apply (best_model_after_one_more_trial string example_trials
             (mkTrial (- (1 # 10)) STATUS_OK "model1")
             (mkTrial (- (1 # 10)) STATUS_OK "late")).
    + right; left.
    + reflexivity.
    + reflexivity.
    + intros u Hu _. unfold example_trials in Hu.
      repeat (apply elem_of_cons in Hu as [-> | Hu];
              [simpl; vm_compute; discriminate |]).
      by apply not_elem_of_nil in Hu.
    + reflexivity.
  - apply (best_model_after_one_more_trial string example_trials
             (mkTrial (- (1 # 10)) STATUS_OK "model1")
             (mkTrial (- (2 # 10)) STATUS_OK "late")).
    + right; left.
    + reflexivity.
    + reflexivity.
    + intros u Hu _. unfold example_trials in Hu.
      repeat (apply elem_of_cons in Hu as [-> | Hu];
              [simpl; vm_compute; discriminate |]).
      by apply not_elem_of_nil in Hu.
    + reflexivity.
Defined.

(** ** The search of one outer fold *)

Lemma best_model_all_ok {M} (trials : list (Trial M)) :
  trials <> [] ->
  (forall t, t ∈ trials -> trial_status t = STATUS_OK) ->
  exists t, t ∈ trials /\ best_model trials = Ok (trained_model t) /\
    forall u, u ∈ trials -> loss t <= loss u.
Proof.
  intros Hne Hall. unfold best_model.
  assert (Hf : filter (fun trial => STATUS_OK = trial_status trial) trials
               = trials).
  { clear Hne. induction trials as [|t trials IH]; [reflexivity |].
    rewrite filter_cons_True by (symmetry; apply Hall; left).
    rewrite IH; [reflexivity |]. intros u Hu. apply Hall. right. exact Hu. }
  rewrite Hf.
  destruct (argmin_nonempty (loss <$> trials)) as (k & Hk & Hlt).
  { intros Hnil. apply fmap_nil_inv in Hnil. congruence. }
  rewrite Hk. cbn [mbind result_bind].
  destruct (argmin_spec _ _ Hk) as (x & Hx & Hmin & _).
  rewrite list_lookup_fmap in Hx.
  destruct (trials !! k) as [t|] eqn:Htk; [| discriminate].
  simpl in Hx. injection Hx as <-.
  exists t. split; [apply list_elem_of_lookup; eauto |].
  split; [reflexivity |].
  intros u Hu. apply list_elem_of_lookup in Hu as [j Hj].
  apply (Hmin j). rewrite list_lookup_fmap, Hj. reflexivity.
Qed.

Section SearchFacts.

Context {P M : Type}.
Variable suggest : list (Trial M) -> P.
Variable fn : P -> result (Trial M).

Lemma fmin_log (max_evals : nat) :
  forall trials log,
    fmin suggest fn max_evals trials = Ok log ->
    exists new, log = trials ++ new /\ length new = max_evals /\
      forall t, t ∈ new -> exists p, fn p = Ok t.
Proof.
  induction max_evals as [|n IH]; intros trials log H; simpl in H.
  - injection H as <-. exists []. rewrite app_nil_r.
    repeat split. intros t Ht. by apply not_elem_of_nil in Ht.
  - destruct (fn (suggest trials)) as [t | e] eqn:Hfn; [| discriminate].
    cbn [mbind result_bind] in H.
    destruct (IH _ _ H) as (new & -> & Hlen & Hnew).
    exists (t :: new). rewrite <- app_assoc. simpl.
    split; [reflexivity |]. split; [lia |].
    intros u Hu. apply elem_of_cons in Hu as [-> | Hu]; [eauto | exact (Hnew u Hu)].
Qed.

Lemma fmin_error (max_evals : nat) :
  forall trials e,
    fmin suggest fn max_evals trials = Error e -> exists p, fn p = Error e.
Proof.
  induction max_evals as [|n IH]; intros trials e H; simpl in H;
    [discriminate |].
  destruct (fn (suggest trials)) as [t | e'] eqn:Hfn.
  - exact (IH _ _ H).
  - injection H as <-. eauto.
Qed.

(** When the objective reports every trial as successful, a search of at
    least one evaluation ends in a model of minimal loss or in an error of
    the objective itself. *)
Lemma search_outcome (max_evals : nat) :
  (forall p t, fn p = Ok t -> trial_status t = STATUS_OK) ->
  (1 <= max_evals)%nat ->
  (forall log, fmin suggest fn max_evals [] = Ok log ->
     length log = max_evals /\
     exists t, t ∈ log /\ search suggest fn max_evals = Ok (trained_model t)
               /\ forall u, u ∈ log -> loss t <= loss u)
  /\ (forall e, search suggest fn max_evals = Error e ->
        exists p, fn p = Error e).
Proof.
  intros Hok Hn. split.
  - intros log Hlog. destruct (fmin_log _ _ _ Hlog) as (new & -> & Hlen & Hnew).
    simpl. split; [exact Hlen |].
    destruct (best_model_all_ok new) as (t & Ht & Hbest & Hmin).
    + intros ->. simpl in Hlen. lia.
    + intros t Ht. destruct (Hnew t Ht) as [p Hp]. exact (Hok p t Hp).
    + exists t. split; [exact Ht |]. split; [| exact Hmin].
      unfold search. simpl in Hlog. rewrite Hlog. exact Hbest.
  - intros e He. unfold search in He.
    destruct (fmin suggest fn max_evals []) as [log | e'] eqn:Hlog.
    + exfalso. cbn [mbind result_bind] in He.
      destruct (fmin_log _ _ _ Hlog) as (new & -> & Hlen & Hnew).
      destruct (best_model_all_ok new) as (t & _ & Hbest & _).
      * intros ->. simpl in Hlen. lia.
      * intros t Ht. destruct (Hnew t Ht) as [p Hp]. exact (Hok p t Hp).
      * simpl in He. rewrite Hbest in He. discriminate.
    + cbn [mbind result_bind] in He. injection He as <-.
      exact (fmin_error _ _ _ Hlog).
Qed.

End SearchFacts.

Lemma fal_objective_ok {row : Type} (sensitive_col : row -> Z)
    (make_test_folds : nat -> list string -> result (list nat))
    (predict_proba : fal.params -> pd.frame row -> list Z ->
                     pd.frame Z -> pd.frame row -> result (list pyfloat))
    (g : fal.globals row) (p : fal.params) (t : Trial fal.params) :
  fal.objective sensitive_col make_test_folds predict_proba g p = Ok t ->
  trial_status t = STATUS_OK.
Proof.
  unfold fal.objective.
  destruct (fal.cross_val_score_custom _ _ _ p _ _ 10) as [[a b] | e];
    [| discriminate].
  intros [= <-]. reflexivity.
Qed.

Lemma frf_objective_ok {row : Type} (sensitive_col : row -> Z)
    (make_test_folds : nat -> list string -> result (list nat))
    (predict_proba : frf.FairRandomForestClassifier -> pd.frame row ->
                     list Z -> pd.frame Z -> pd.frame row ->
                     result (list pyfloat))
    (g : frf.globals row) (p : frf.params)
    (t : Trial frf.FairRandomForestClassifier) :
  frf.objective sensitive_col make_test_folds predict_proba g p = Ok t ->
  trial_status t = STATUS_OK.
Proof.
  unfold frf.objective.
  destruct (frf.cross_val_score_custom _ _ _ _ _ _ K) as [a | e];
    [| discriminate].
  intros [= <-]. reflexivity.
Qed.

Lemma lr_objective_ok {row : Type}
    (make_test_folds : nat -> list string -> result (list nat))
    (predict_proba : lr.LogisticRegression -> pd.frame row ->
                     pd.frame Z -> pd.frame row -> result (list pyfloat))
    (g : lr.globals row) (p : lr.params) (t : Trial lr.LogisticRegression) :
  lr.objective make_test_folds predict_proba g p = Ok t ->
  trial_status t = STATUS_OK.
Proof.
  unfold lr.objective.
  destruct (lr.cross_val_score_custom _ _ _ _ _ _ K) as [[a b] | e];
    [| discriminate].
  intros [= <-]. reflexivity.
Qed.

(** X14. The search of an outer fold never ends without a model for lack
    of a valid trial. The objectives of the three scripts report every
    trial as successful, so when the evaluations all go through the log
    holds exactly [max_evals] trials and [best_model] returns the model of
    one with minimal loss; the only way the search fails is an error
    raised inside the objective, which is passed on. *)
Theorem search_returns_a_best_trial :
  forall (max_evals : nat), (1 <= max_evals)%nat ->
  (forall (row : Type) (sensitive_col : row -> Z)
          (make_test_folds : nat -> list string -> result (list nat))
          (predict_proba : fal.params -> pd.frame row -> list Z ->
                           pd.frame Z -> pd.frame row -> result (list pyfloat))
          (suggest : list (Trial fal.params) -> fal.params)
          (g : fal.globals row),
     let fn := fal.objective sensitive_col make_test_folds predict_proba g in
     (forall log, fmin suggest fn max_evals [] = Ok log ->
        length log = max_evals /\
        exists t, t ∈ log /\ search suggest fn max_evals = Ok (trained_model t)
                  /\ forall u, u ∈ log -> loss t <= loss u)
     /\ (forall e, search suggest fn max_evals = Error e ->
           exists p, fn p = Error e))
  /\
  (forall (row : Type) (sensitive_col : row -> Z)
          (make_test_folds : nat -> list string -> result (list nat))
          (predict_proba : frf.FairRandomForestClassifier -> pd.frame row ->
                           list Z -> pd.frame Z -> pd.frame row ->
                           result (list pyfloat))
          (suggest : list (Trial frf.FairRandomForestClassifier) -> frf.params)
          (g : frf.globals row),
     let fn := frf.objective sensitive_col make_test_folds predict_proba g in
     (forall log, fmin suggest fn max_evals [] = Ok log ->
        length log = max_evals /\
        exists t, t ∈ log /\ search suggest fn max_evals = Ok (trained_model t)
                  /\ forall u, u ∈ log -> loss t <= loss u)
     /\ (forall e, search suggest fn max_evals = Error e ->
           exists p, fn p = Error e))
  /\
  (forall (row : Type)
          (make_test_folds : nat -> list string -> result (list nat))
          (predict_proba : lr.LogisticRegression -> pd.frame row ->
                           pd.frame Z -> pd.frame row -> result (list pyfloat))
          (suggest : list (Trial lr.LogisticRegression) -> lr.params)
          (g : lr.globals row),
     let fn := lr.objective make_test_folds predict_proba g in
     (forall log, fmin suggest fn max_evals [] = Ok log ->
        length log = max_evals /\
        exists t, t ∈ log /\ search suggest fn max_evals = Ok (trained_model t)
                  /\ forall u, u ∈ log -> loss t <= loss u)
     /\ (forall e, search suggest fn max_evals = Error e ->
           exists p, fn p = Error e)).
Proof.
  intros max_evals Hn. split; [| split].
  - intros row sc mtf clf suggest g fn.
    apply search_outcome; [| exact Hn].
    intros p t. apply fal_objective_ok.
  - intros row sc mtf clf suggest g fn.
    apply search_outcome; [| exact Hn].
    intros p t. apply frf_objective_ok.
  - intros row mtf clf suggest g fn.
    apply search_outcome; [| exact Hn].
    intros p t. apply lr_objective_ok.
Qed.

Lemma search_returns_a_best_trial_witness :
  exists log,
    fmin (fun trials => fal.mkParams (1 # 2) 50 (16 + length trials) 40)
      (fal.objective example.sensitive_col model_selection.round_robin
         (fun _ _ _ _ X_test => example.oracle X_test)
         (fal.mkGlobals example.X example.y (3 # 10)))
      2 [] = Ok log
    /\ length log = 2%nat.
Proof.
  assert (H : exists log,
    fmin (fun trials => fal.mkParams (1 # 2) 50 (16 + length trials) 40)
      (fal.objective example.sensitive_col model_selection.round_robin
         (fun _ _ _ _ X_test => example.oracle X_test)
         (fal.mkGlobals example.X example.y (3 # 10)))
      2 [] = Ok log).
  { vm_compute. eexists. reflexivity. }
  destruct H as (log & H). exists log. split; [exact H |].
  exact (proj1 (proj1 (proj1 (search_returns_a_best_trial 2 ltac:(lia))
                  example.row example.sensitive_col
                  model_selection.round_robin
                  (fun _ _ _ _ X_test => example.oracle X_test)
                  (fun trials => fal.mkParams (1 # 2) 50 (16 + length trials) 40)
                  (fal.mkGlobals example.X example.y (3 # 10)))
                log H)).
Defined.

(** ** The metric on a binary protected column *)

Lemma concordance2_cons_r (p : Q) (A B : list Q) :
  (sklearn.concordance2 B (p :: A) + sklearn.credit2 p B
   = 2 * Z.of_nat (length B) + sklearn.concordance2 B A)%Z.
Proof.
  induction B as [|q B IH].
  - reflexivity.
  - cbn [sklearn.concordance2 sklearn.credit2 length].
    destruct (Qltb p q) eqn:E1; destruct (Qltb q p) eqn:E2;
      try (apply Qltb_lt in E1); try (apply Qltb_lt in E2);
      try (exfalso; lra); lia.
Qed.

Lemma concordance2_swap (A B : list Q) :
  (sklearn.concordance2 A B + sklearn.concordance2 B A
   = 2 * Z.of_nat (length A) * Z.of_nat (length B))%Z.
Proof.
  induction A as [|p A IH].
  - cbn [sklearn.concordance2 length].
    induction B as [|q B IHB]; [reflexivity |].
    cbn [sklearn.concordance2 sklearn.credit2]. lia.
  - cbn [sklearn.concordance2 length].
    pose proof (concordance2_cons_r p A B). nia.
Qed.

Lemma scores_of_indicator_pos (u : Z) (column : list Z) :
  forall scores,
    sklearn.scores_of 1 ((fun v => Z.b2z (v =? u)%Z) <$> column) scores
    = sklearn.scores_of u column scores.
Proof.
  unfold sklearn.scores_of.
  induction column as [|v column IH]; intros [|sc scores]; try reflexivity.
  csimpl. destruct (Z.eqb_spec v u) as [-> | Hne].
  - rewrite !filter_cons_True by reflexivity. csimpl. rewrite IH. reflexivity.
  - rewrite !filter_cons_False by (simpl; congruence). apply IH.
Qed.

Lemma scores_of_indicator_neg (u w : Z) (column : list Z) :
  u <> w ->
  (forall x, x ∈ column -> x = u \/ x = w) ->
  forall scores,
    sklearn.scores_of 0 ((fun v => Z.b2z (v =? u)%Z) <$> column) scores
    = sklearn.scores_of w column scores.
Proof.
  intros Huw. unfold sklearn.scores_of.
  induction column as [|v column IH]; intros Hcol [|sc scores];
    try reflexivity.
  csimpl.
  assert (Hrest : forall x, x ∈ column -> x = u \/ x = w).
  { intros x Hx. apply Hcol. right. exact Hx. }
  destruct (Hcol v ltac:(left)) as [-> | ->].
  - rewrite Z.eqb_refl.
    rewrite !filter_cons_False by (simpl; congruence). apply (IH Hrest).
  - destruct (Z.eqb_spec w u) as [-> | _]; [congruence |].
    rewrite !filter_cons_True by reflexivity. csimpl.
    rewrite (IH Hrest). reflexivity.
Qed.

Lemma finite_values_some (y_prob : list pyfloat) :
  false ∉ (isfinite <$> y_prob) ->
  exists scores, finite_values y_prob = Some scores.
Proof.
  induction y_prob as [|p y_prob IH]; intros Hfin.
  - eexists; reflexivity.
  - csimpl in Hfin. apply not_elem_of_cons in Hfin as [Hp Hrest].
    destruct (IH Hrest) as [scores Hs].
    destruct p; simpl in Hp; try congruence.
    simpl. rewrite Hs. eexists; reflexivity.
Qed.

Lemma finite_values_isfinite (y_prob : list pyfloat) (scores : list Q) :
  finite_values y_prob = Some scores -> false ∉ (isfinite <$> y_prob).
Proof.
  intros Hs Hin. apply list_elem_of_fmap in Hin as (p & Hp & Hin).
  rewrite (finite_values_none y_prob) in Hs; [discriminate |].
  exists p. split; [exact Hin | congruence].
Qed.

Lemma finite_values_length (y_prob : list pyfloat) :
  forall scores, finite_values y_prob = Some scores ->
                 length scores = length y_prob.
Proof.
  induction y_prob as [|p y_prob IH]; intros scores H; simpl in H.
  - injection H as <-. reflexivity.
  - destruct p; try discriminate.
    destruct (finite_values y_prob) as [l |]; [| discriminate].
    simpl in H. injection H as <-. simpl. rewrite (IH l eq_refl). reflexivity.
Qed.

Lemma Qdiv_complement (c d n : Z) :
  (0 < n)%Z -> (c + d = 2 * n)%Z ->
  inject_Z c / inject_Z (2 * n) == 1 - inject_Z d / inject_Z (2 * n).
Proof.
  intros Hn Hsum.
  assert (Hpos : 0 < inject_Z (2 * n)).
  { change 0 with (inject_Z 0). rewrite <- Zlt_Qlt. lia. }
  assert (Hc : inject_Z c == inject_Z (2 * n) - inject_Z d).
  { rewrite <- Hsum. rewrite inject_Z_plus. ring. }
  rewrite Hc. field. lra.
Qed.

Lemma Qabs_folded (auc : Q) :
  Qabs (2 * ((5 # 10) + Qabs ((5 # 10) - auc)) - 1) == Qabs (2 * auc - 1).
Proof.
  destruct (Qlt_le_dec auc (5 # 10)) as [Hlt | Hge].
  - rewrite (Qabs_pos ((5 # 10) - auc)) by lra.
    rewrite (Qabs_pos (2 * ((5 # 10) + ((5 # 10) - auc)) - 1)) by lra.
    rewrite (Qabs_neg (2 * auc - 1)) by lra. lra.
  - rewrite (Qabs_neg ((5 # 10) - auc)) by lra.
    rewrite (Qabs_pos (2 * ((5 # 10) + - ((5 # 10) - auc)) - 1)) by lra.
    rewrite (Qabs_pos (2 * auc - 1)) by lra. lra.
Qed.

(** On a column with exactly two values, the score of the column is the
    AUC of the predictions against the column, folded around one half. *)
Lemma column_auc_binary (column : list Z) (y_prob : list pyfloat) (a b : Z) :
  np.unique column = [a; b] ->
  length column = length y_prob ->
  false ∉ (isfinite <$> y_prob) ->
  exists auc r,
    sklearn.roc_auc_score column y_prob = Ok auc
    /\ column_auc column y_prob = Ok r
    /\ 0 <= auc <= 1
    /\ r == (5 # 10) + Qabs ((5 # 10) - auc).
Proof.
  intros Hu Hlen Hfin.
  destruct (finite_values_some y_prob Hfin) as [scores Hs].
  pose proof (finite_values_length _ _ Hs) as Hls.
  assert (Hab : (a < b)%Z).
  { pose proof (unique_sorted column) as Hsorted. rewrite Hu in Hsorted.
    apply StronglySorted_inv in Hsorted as [_ Ha].
    rewrite Forall_forall in Ha. apply Ha. left. }
  assert (Hcol : forall x, x ∈ column -> x = a \/ x = b).
  { intros x Hx. apply (proj2 (unique_elem _ _)) in Hx. rewrite Hu in Hx.
    apply elem_of_cons in Hx as [-> | Hx]; [left; reflexivity |].
    apply elem_of_cons in Hx as [-> | Hx]; [right; reflexivity |].
    by apply not_elem_of_nil in Hx. }
  assert (Hcol' : forall x, x ∈ column -> x = b \/ x = a).
  { intros x Hx. destruct (Hcol x Hx); auto. }
  assert (Ha : a ∈ column).
  { apply unique_elem. rewrite Hu. left. }
  assert (Hb : b ∈ column).
  { apply unique_elem. rewrite Hu. right. left. }
  assert (Hdeg : length (np.unique column) <> 1%nat)
    by (rewrite Hu; simpl; lia).
  set (A := sklearn.scores_of a column scores).
  set (B := sklearn.scores_of b column scores).
  assert (HA : (0 < length A)%nat)
    by (apply scores_of_nonempty; [exact Ha | lia]).
  assert (HB : (0 < length B)%nat)
    by (apply scores_of_nonempty; [exact Hb | lia]).
  set (n := (Z.of_nat (length B) * Z.of_nat (length A))%Z).
  assert (Hn : (0 < n)%Z) by (unfold n; nia).
  set (auc := inject_Z (sklearn.concordance2 B A) / inject_Z (2 * n)).
  assert (Hauc : sklearn.roc_auc_score column y_prob = Ok auc).
  { unfold sklearn.roc_auc_score.
    destruct (decide (length column = length y_prob)); [| contradiction].
    rewrite Hs, Hu. reflexivity. }
  assert (Hauc_a :
    sklearn.roc_auc_score ((fun v => Z.b2z (v =? a)%Z) <$> column) y_prob
    = Ok (inject_Z (sklearn.concordance2 A B)
          / inject_Z (2 * (Z.of_nat (length A) * Z.of_nat (length B))))).
  { unfold sklearn.roc_auc_score. rewrite length_fmap.
    destruct (decide (length column = length y_prob)); [| contradiction].
    rewrite Hs.
    rewrite (indicator_unique column a
               ltac:(rewrite Hu; left) Hdeg).
    rewrite scores_of_indicator_pos.
    rewrite (scores_of_indicator_neg a b column ltac:(lia) Hcol).
    reflexivity. }
  assert (Hauc_b :
    sklearn.roc_auc_score ((fun v => Z.b2z (v =? b)%Z) <$> column) y_prob
    = Ok auc).
  { unfold sklearn.roc_auc_score. rewrite length_fmap.
    destruct (decide (length column = length y_prob)); [| contradiction].
    rewrite Hs.
    rewrite (indicator_unique column b
               ltac:(rewrite Hu; right; left) Hdeg).
    rewrite scores_of_indicator_pos.
    rewrite (scores_of_indicator_neg b a column ltac:(lia) Hcol').
    reflexivity. }
  pose proof (roc_auc_score_bounds _ _ _ Hauc) as Hrange.
  assert (Hcompl :
    inject_Z (sklearn.concordance2 A B)
      / inject_Z (2 * (Z.of_nat (length A) * Z.of_nat (length B)))
    == 1 - auc).
  { unfold auc.
    replace (Z.of_nat (length A) * Z.of_nat (length B))%Z with n
      by (unfold n; lia).
    apply Qdiv_complement; [exact Hn |].
    pose proof (concordance2_swap A B). unfold n. lia. }
  exists auc. eexists. split; [exact Hauc |].
  split.
  { unfold column_auc.
    destruct (decide (length (np.unique column) = 1%nat)); [contradiction |].
    rewrite Hu. cbn [sens_auc_loop].
    rewrite Hauc_a. cbn [mbind result_bind].
    rewrite Hauc_b. cbn [mbind result_bind]. reflexivity. }
  split; [exact Hrange |].
  set (auc_a := inject_Z (sklearn.concordance2 A B)
                / inject_Z (2 * (Z.of_nat (length A) * Z.of_nat (length B))))
    in *.
  unfold py_max.
  destruct (Qltb (1 - auc_a) auc_a) eqn:E1;
    destruct (Qltb (1 - auc) auc) eqn:E2;
    try (apply Qltb_lt in E1); try (apply Qltb_ge in E1);
    try (apply Qltb_lt in E2); try (apply Qltb_ge in E2);
    match goal with
    | |- context [Qltb 0 ?x] =>
        destruct (Qltb 0 x) eqn:E3;
        try (apply Qltb_lt in E3); try (apply Qltb_ge in E3)
    end;
    match goal with
    | |- context [Qltb ?x ?y] =>
        destruct (Qltb x y) eqn:E4;
        try (apply Qltb_lt in E4); try (apply Qltb_ge in E4)
    end;
    apply Qabs_case; intros; lra.
Qed.

(** X15. For a protected column with exactly two values, which is what
    the preprocessed flag column is, the strong demographic parity score
    is [|2 * AUC - 1|] for the AUC of the predicted probabilities against
    the column itself: the loop over the two group indicators, each
    folded with [max(1 - auc, auc)], adds nothing to a single call of
    [roc_auc_score]. The score is returned for every finite [y_prob] of
    the column's length. *)
Theorem sdp_binary_column :
  forall (s : sensitive) (column : list Z) (y_prob : list pyfloat) (a b : Z),
    as_columns s = [column] ->
    np.unique column = [a; b] ->
    length column = length y_prob ->
    false ∉ (isfinite <$> y_prob) ->
    exists auc x,
      sklearn.roc_auc_score column y_prob = Ok auc
      /\ strong_demographic_parity_score s y_prob = Ok (PyNum x)
      /\ x == Qabs (2 * auc - 1).
Proof.
  intros s column y_prob a b Hs Hu Hlen Hfin.
  destruct (column_auc_binary column y_prob a b Hu Hlen Hfin)
    as (auc & r & Hauc & Hr & Hrange & Heq).
  exists auc. eexists. split; [exact Hauc |].
  rewrite (sdp_one_column s column _ Hs), Hr. cbn [mbind result_bind].
  split; [reflexivity |].
  change (Q_of_nat 2) with 2. change (Q_of_nat 1) with 1.
  rewrite Heq. apply Qabs_folded.
Qed.

Lemma sdp_binary_column_witness :
  exists auc x,
    sklearn.roc_auc_score [0; 1; 1; 0]%Z
      [Fin (9 # 10); Fin (2 # 10); Fin (4 # 10); Fin (3 # 10)] = Ok auc
    /\ strong_demographic_parity_score (Array1D [0; 1; 1; 0]%Z)
         [Fin (9 # 10); Fin (2 # 10); Fin (4 # 10); Fin (3 # 10)]
       = Ok (PyNum x)
    /\ x == Qabs (2 * auc - 1).
Proof.
  apply (sdp_binary_column (Array1D [0; 1; 1; 0]%Z) [0; 1; 1; 0]%Z
           [Fin (9 # 10); Fin (2 # 10); Fin (4 # 10); Fin (3 # 10)]
           0%Z 1%Z eq_refl eq_refl eq_refl).
  vm_compute. intros H. repeat (apply elem_of_cons in H as [H | H];
    [discriminate |]). by apply not_elem_of_nil in H.
Defined.

(** ** The final evaluation of an outer fold against the evaluator *)

(** X16. The outer loop scores a fold differently from the evaluator that
    the search optimises. With finite probabilities and a test partition
    whose protected column has exactly two values, both report the same
    performance, and the final fairness score is [2 * fair - 1] for the
    evaluator's [fair] (which stays in [[1/2, 1]]). With a non-finite
    probability both append their sentinel 0.5, which for the final score
    is not the image of the evaluator's. With a protected column holding a
    single value the evaluator raises [ValueError] where the final
    evaluation reports a fairness score of 1. *)
Theorem final_scores_against_fold_scores :
  (forall (y_true s_test : list Z) (y_pred_probs : list pyfloat) (a b : Z)
          (perf fair : Q),
     np.unique s_test = [a; b] ->
     length s_test = length y_pred_probs ->
     false ∉ (isfinite <$> y_pred_probs) ->
     fal.fold_scores y_true s_test y_pred_probs = Ok (perf, fair) ->
     exists sdp,
       fal_final_scores y_true s_test y_pred_probs = Ok (perf, PyNum sdp)
       /\ sdp == 2 * fair - 1)
  /\
  (forall (y_true s_test : list Z) (y_pred_probs : list pyfloat),
     false ∈ (isfinite <$> y_pred_probs) ->
     fal.fold_scores y_true s_test y_pred_probs = Ok (5 # 10, 5 # 10)
     /\ fal_final_scores y_true s_test y_pred_probs
        = Ok (5 # 10, PyNum (5 # 10)))
  /\
  (forall (y_true s_test : list Z) (y_pred_probs : list pyfloat) (perf : Q),
     length (np.unique s_test) = 1%nat ->
     sklearn.roc_auc_score y_true y_pred_probs = Ok perf ->
     fal.fold_scores y_true s_test y_pred_probs = Error ValueError
     /\ exists sdp,
          fal_final_scores y_true s_test y_pred_probs = Ok (perf, PyNum sdp)
          /\ sdp == 1).
Proof.
  split; [| split].
  - intros y_true s_test y_prob a b perf fair Hu Hlen Hfin.
    unfold fal.fold_scores, fal_final_scores.
    rewrite !bool_decide_eq_false_2 by exact Hfin.
    destruct (sklearn.roc_auc_score y_true y_prob) as [p | e];
      [| discriminate].
    cbn [mbind result_bind].
    destruct (column_auc_binary s_test y_prob a b Hu Hlen Hfin)
      as (auc & r & Hauc & Hr & Hrange & Heq).
    rewrite Hauc. cbn [mbind result_bind]. intros [= <- <-].
    rewrite (sdp_one_column (Array1D s_test) s_test _ eq_refl), Hr.
    cbn [mbind result_bind]. eexists. split; [reflexivity |].
    change (Q_of_nat 2) with 2. change (Q_of_nat 1) with 1.
    rewrite Heq, Qabs_folded.
    destruct (Qlt_le_dec auc (5 # 10)) as [Hlt | Hge].
    + rewrite (Qabs_pos ((5 # 10) - auc)) by lra.
      rewrite (Qabs_neg (2 * auc - 1)) by lra. lra.
    + rewrite (Qabs_neg ((5 # 10) - auc)) by lra.
      rewrite (Qabs_pos (2 * auc - 1)) by lra. lra.
  - intros y_true s_test y_prob Hbad.
    unfold fal.fold_scores, fal_final_scores.
    rewrite !bool_decide_eq_true_2 by exact Hbad. split; reflexivity.
  - intros y_true s_test y_prob perf Hdeg Hperf.
    assert (Hfin : false ∉ (isfinite <$> y_prob)).
    { unfold sklearn.roc_auc_score in Hperf.
      destruct (decide (length y_true = length y_prob)); [| discriminate].
      destruct (finite_values y_prob) as [scores |] eqn:Hs; [| discriminate].
      exact (finite_values_isfinite _ _ Hs). }
    unfold fal.fold_scores, fal_final_scores.
    rewrite !bool_decide_eq_false_2 by exact Hfin.
    rewrite Hperf. cbn [mbind result_bind]. split.
    + unfold sklearn.roc_auc_score.
      destruct (decide (length s_test = length y_prob)); [| reflexivity].
      destruct (finite_values y_prob); [| reflexivity].
      destruct (np.unique s_test) as [|u [|v us]]; try reflexivity.
      simpl in Hdeg. lia.
    + rewrite (sdp_one_column (Array1D s_test) s_test _ eq_refl).
      unfold column_auc.
      destruct (decide (length (np.unique s_test) = 1%nat)); [| contradiction].
      cbn [mbind result_bind]. eexists. split; [reflexivity |].
      vm_compute. reflexivity.
Qed.

Lemma final_scores_against_fold_scores_witness :
  (exists perf fair sdp,
     fal.fold_scores [0; 1; 0; 1]%Z [0; 1; 1; 0]%Z
       [Fin (1 # 10); Fin (2 # 10); Fin (4 # 10); Fin (3 # 10)]
     = Ok (perf, fair)
     /\ fal_final_scores [0; 1; 0; 1]%Z [0; 1; 1; 0]%Z
          [Fin (1 # 10); Fin (2 # 10); Fin (4 # 10); Fin (3 # 10)]
        = Ok (perf, PyNum sdp)
     /\ sdp == 2 * fair - 1)
  /\ fal.fold_scores [0; 1; 0; 1]%Z [0; 1; 1; 0]%Z
       [Fin (1 # 10); NaN; Fin (4 # 10); Fin (3 # 10)]
     = Ok (5 # 10, 5 # 10)
  /\ fal.fold_scores [0; 1; 0; 1]%Z [1; 1; 1; 1]%Z
       [Fin (1 # 10); Fin (2 # 10); Fin (4 # 10); Fin (3 # 10)]
     = Error ValueError.
Proof.
  assert (Hfin : false ∉ (isfinite <$>
            [Fin (1 # 10); Fin (2 # 10); Fin (4 # 10); Fin (3 # 10)])).
  { vm_compute. intros H.
    repeat (apply elem_of_cons in H as [H | H]; [discriminate |]).
    by apply not_elem_of_nil in H. }
  split; [| split].
  - assert (H : exists perf fair,
      fal.fold_scores [0; 1; 0; 1]%Z [0; 1; 1; 0]%Z
        [Fin (1 # 10); Fin (2 # 10); Fin (4 # 10); Fin (3 # 10)]
      = Ok (perf, fair)).
    { vm_compute. do 2 eexists. reflexivity. }
    destruct H as (perf & fair & H). exists perf, fair.
    destruct (proj1 final_scores_against_fold_scores
                [0; 1; 0; 1]%Z [0; 1; 1; 0]%Z
                [Fin (1 # 10); Fin (2 # 10); Fin (4 # 10); Fin (3 # 10)]
                0%Z 1%Z perf fair eq_refl eq_refl Hfin H) as (sdp & H1 & H2).
    exists sdp. split; [exact H | split; [exact H1 | exact H2]].
  - apply (proj1 (proj2 final_scores_against_fold_scores)).
    right. left.
  - assert (H : exists perf,
      sklearn.roc_auc_score [0; 1; 0; 1]%Z
        [Fin (1 # 10); Fin (2 # 10); Fin (4 # 10); Fin (3 # 10)] = Ok perf).
    { vm_compute. eexists. reflexivity. }
    destruct H as (perf & H).
    apply (proj2 (proj2 final_scores_against_fold_scores)
             [0; 1; 0; 1]%Z [1; 1; 1; 1]%Z _ perf eq_refl H).
Defined.

(** ** Data preparation and the outer split *)

Lemma split_inv (make_test_folds : nat -> list string -> result (list nat))
    (n_splits n_samples : nat) (y : list string)
    (folds : list (list nat * list nat)) :
  model_selection.split make_test_folds n_splits n_samples y = Ok folds ->
  exists test_folds,
    make_test_folds n_splits y = Ok test_folds
    /\ folds =
       (fun i => (filter (fun p => test_folds !! p <> Some i) (seq 0 n_samples),
                  filter (fun p => test_folds !! p = Some i) (seq 0 n_samples)))
         <$> seq 0 n_splits.
Proof.
  unfold model_selection.split.
  destruct (decide (n_splits < 2)%nat); [discriminate |].
  destruct (decide (n_samples < n_splits)%nat); [discriminate |].
  destruct (make_test_folds n_splits y) as [tf | e]; [| discriminate].
  simpl. intros [= <-]. exists tf. split; reflexivity.
Qed.

Lemma filter_ext_elem {A} (P R : A -> Prop) `{!forall x, Decision (P x)}
    `{!forall x, Decision (R x)} (l : list A) :
  (forall x, x ∈ l -> P x <-> R x) -> filter P l = filter R l.
Proof.
  induction l as [|a l IH]; intros Hext; [reflexivity |].
  assert (Hl : forall x, x ∈ l -> P x <-> R x).
  { intros x Hx. apply Hext. right. exact Hx. }
  destruct (decide (P a)) as [Ha | Ha].
  - rewrite (filter_cons_True P a l Ha).
    rewrite (filter_cons_True R a l (proj1 (Hext a ltac:(left)) Ha)).
    rewrite (IH Hl). reflexivity.
  - rewrite (filter_cons_False P a l Ha).
    rewrite (filter_cons_False R a l
               (fun Hr => Ha (proj2 (Hext a ltac:(left)) Hr))).
    exact (IH Hl).
Qed.

(** The index labels that a selection keeps do not depend on the rows. *)
Lemma rows_isin_labels {A} (rows : list A) (idx : list nat) :
  forall start,
    (filter (fun r : nat * A => r.1 ∈ idx)
            (zip (seq start (length rows)) rows)).*1
    = filter (fun p => p ∈ idx) (seq start (length rows)).
Proof.
  induction rows as [|a rows IH]; intros start; [reflexivity |].
  cbn [length seq zip zip_with].
  destruct (decide (start ∈ idx)) as [Hin | Hout].
  - rewrite !filter_cons_True by exact Hin. csimpl.
    f_equal. apply IH.
  - rewrite !filter_cons_False by exact Hout. apply IH.
Qed.

Lemma rows_isin_reset_labels {A} (rows : list A) (idx : list nat) :
  (pd.rows_isin (pd.reset_index rows) idx).*1
  = filter (fun p => p ∈ idx) (seq 0 (length rows)).
Proof. exact (rows_isin_labels rows idx 0). Qed.

Lemma length_reset_index {A} (rows : list A) :
  length (pd.reset_index rows) = length rows.
Proof.
  unfold pd.reset_index. rewrite length_zip, length_seq. lia.
Qed.

(** On a frame with a fresh index the two selections of a fold split the
    frame. *)
Lemma fresh_index_fold_split {A} (rows : list A) (test_folds : list nat)
    (i : nat) :
  let n := length (pd.reset_index rows) in
  pd.rows_isin (pd.reset_index rows)
    (filter (fun p => test_folds !! p <> Some i) (seq 0 n))
  ++ pd.rows_isin (pd.reset_index rows)
       (filter (fun p => test_folds !! p = Some i) (seq 0 n))
  ≡ₚ pd.reset_index rows.
Proof.
  intros n. unfold pd.rows_isin.
  rewrite (filter_ext_elem
             (fun r : nat * A =>
                r.1 ∈ filter (fun p => test_folds !! p = Some i) (seq 0 n))
             (fun r : nat * A =>
                ~ r.1 ∈ filter (fun p => test_folds !! p <> Some i) (seq 0 n))
             (pd.reset_index rows)).
  - apply (filter_app_complement
             (fun r : nat * A =>
                r.1 ∈ filter (fun p => test_folds !! p <> Some i) (seq 0 n))).
  - intros r Hr. pose proof (reset_index_labels rows r Hr) as Hlt.
    fold n in Hlt. rewrite !list_elem_of_filter, !elem_of_seq.
    split.
    + intros [Heq _] [Hne _]. contradiction.
    + intros Hnot. split; [| lia].
      destruct (decide (test_folds !! r.1 = Some i)) as [Heq | Hne];
        [exact Heq |].
      exfalso. apply Hnot. split; [exact Hne | lia].
Qed.

Section OuterLoop.

Context {A row : Type}.
Variable predictors : A -> row.
Variable target_col : A -> Z.
Variable sensitive_col : row -> Z.
Variable make_test_folds : nat -> list string -> result (list nat).

Lemma loop_partitions_inv (df : pd.frame A)
    (parts : list (outer.partitions row)) :
  let d := outer.data_prep predictors target_col df in
  outer.loop_partitions sensitive_col make_test_folds d = Ok parts ->
  exists test_folds splitter_y,
    make_test_folds K splitter_y = Ok test_folds
    /\ length splitter_y = length df
    /\ parts =
       (fun i =>
          outer.select d
            (filter (fun p => test_folds !! p <> Some i) (seq 0 (length df)),
             filter (fun p => test_folds !! p = Some i) (seq 0 (length df))))
         <$> seq 0 K.
Proof.
  intros d. unfold outer.loop_partitions.
  destruct (model_selection.split _ _ _ _) as [folds | e] eqn:Hsplit;
    [| discriminate].
  cbn [mbind result_bind]. intros [= <-].
  destruct (split_inv _ _ _ _ _ Hsplit) as (tf & Htf & ->).
  exists tf. eexists. split; [exact Htf |].
  assert (Hn : length (outer.X d) = length df).
  { unfold d, outer.data_prep. cbn [outer.X].
    rewrite length_reset_index. unfold values.
    rewrite !length_fmap. reflexivity. }
  split.
  - unfold splitter_labels, values, d, outer.data_prep. cbn [outer.X outer.y].
    rewrite length_zip_with, !length_fmap, !length_reset_index, !length_fmap.
    unfold values, pd.frame in *. rewrite !length_fmap. lia.
  - rewrite <- list_fmap_compose. rewrite Hn. reflexivity.
Qed.

End OuterLoop.

(** X17. The outer loop splits the prepared data exactly. [data_prep]
    gives [X] and [y] a fresh index whatever the index of the data was, so
    selecting by index label with the splitter's positions is sound there:
    in each of the [K] passes the training and the test partition together
    are the whole of [X] (the same for [y]) with no row in both, targets
    and predictors carry the same index labels row by row, and no row is
    tested in two passes. When the splitter assigns every row a fold
    number below [K], as scikit-learn's does, every row is tested in
    exactly one pass. *)
Theorem outer_loop_partitions_exact :
  forall (A row : Type) (predictors : A -> row) (target_col : A -> Z)
         (sensitive_col : row -> Z)
         (make_test_folds : nat -> list string -> result (list nat))
         (df : pd.frame A) (parts : list (outer.partitions row)),
    let d := outer.data_prep predictors target_col df in
    outer.loop_partitions sensitive_col make_test_folds d = Ok parts ->
    length parts = K
    /\ (forall f, f ∈ parts ->
          outer.X_train_df f ++ outer.X_test_df f ≡ₚ outer.X d
          /\ outer.y_train_df f ++ outer.y_test_df f ≡ₚ outer.y d
          /\ (forall r, r ∈ outer.X_train_df f -> r ∉ outer.X_test_df f)
          /\ (outer.X_train_df f).*1 = (outer.y_train_df f).*1
          /\ (outer.X_test_df f).*1 = (outer.y_test_df f).*1
          /\ (length (outer.X_train_df f) + length (outer.X_test_df f)
              = length df)%nat)
    /\ (forall i j f g r,
          parts !! i = Some f -> parts !! j = Some g -> i <> j ->
          r ∈ outer.X_test_df f -> r ∉ outer.X_test_df g)
    /\ ((forall splitter_y test_folds,
           make_test_folds K splitter_y = Ok test_folds ->
           length test_folds = length splitter_y
           /\ Forall (fun i => (i < K)%nat) test_folds) ->
        forall r, r ∈ outer.X d ->
          exists f, f ∈ parts /\ r ∈ outer.X_test_df f).
Proof.
  intros A row predictors target_col sensitive_col mtf df parts d Hparts.
  destruct (loop_partitions_inv predictors target_col sensitive_col mtf
              df parts Hparts) as (tf & sy & Htf & Hsy & ->).
  assert (HnX : length (pd.reset_index (predictors <$> values df))
                = length df).
  { rewrite length_reset_index. unfold values. rewrite !length_fmap.
    reflexivity. }
  assert (Hny : length (pd.reset_index (target_col <$> values df))
                = length df).
  { rewrite length_reset_index. unfold values. rewrite !length_fmap.
    reflexivity. }
  assert (HlX : length (predictors <$> values df) = length df).
  { unfold values. rewrite !length_fmap. reflexivity. }
  assert (Hly : length (target_col <$> values df) = length df).
  { unfold values. rewrite !length_fmap. reflexivity. }
  split; [rewrite length_fmap, length_seq; reflexivity |].
  split; [| split].
  - intros f Hf. apply list_elem_of_fmap in Hf as (i & -> & _).
    unfold d, outer.data_prep, outer.select.
    cbn [outer.X outer.y outer.X_train_df outer.y_train_df
         outer.X_test_df outer.y_test_df].
    pose proof (fresh_index_fold_split (predictors <$> values df) tf i)
      as HX.
    pose proof (fresh_index_fold_split (target_col <$> values df) tf i)
      as Hy.
    cbv zeta in HX, Hy. rewrite HnX in HX. rewrite Hny in Hy.
    split; [exact HX |]. split; [exact Hy |].
    split.
    { intros r H1 H2. apply rows_isin_elem in H1 as [H1 _].
      apply rows_isin_elem in H2 as [H2 _].
      apply list_elem_of_filter in H1 as [H1 _].
      apply list_elem_of_filter in H2 as [H2 _]. contradiction. }
    split; [| split].
    + rewrite !rows_isin_reset_labels, HlX, Hly. reflexivity.
    + rewrite !rows_isin_reset_labels, HlX, Hly. reflexivity.
    + rewrite <- length_app, HX. exact HnX.
  - intros i j f g r Hi Hj Hij Hf Hg.
    rewrite list_lookup_fmap in Hi, Hj.
    destruct (seq 0 K !! i) as [i' |] eqn:Hi'; [| discriminate].
    destruct (seq 0 K !! j) as [j' |] eqn:Hj'; [| discriminate].
    apply lookup_seq in Hi' as [-> _]. apply lookup_seq in Hj' as [-> _].
    simpl in Hi, Hj. injection Hi as <-. injection Hj as <-.
    unfold outer.select in Hf, Hg. cbn [outer.X_test_df] in Hf, Hg.
    apply rows_isin_elem in Hf as [Hf _].
    apply rows_isin_elem in Hg as [Hg _].
    apply list_elem_of_filter in Hf as [Hf _].
    apply list_elem_of_filter in Hg as [Hg _].
    rewrite Hf in Hg. injection Hg as Hg. lia.
  - intros Hmtf r Hr.
    destruct (Hmtf sy tf Htf) as [Hlen Hlt].
    unfold d, outer.data_prep in Hr. cbn [outer.X] in Hr.
    pose proof (reset_index_labels _ r Hr) as Hlabel.
    rewrite HnX in Hlabel.
    destruct (lookup_lt_is_Some_2 tf r.1) as [i Hi]; [lia |].
    assert (HiK : (i < K)%nat).
    { rewrite Forall_forall in Hlt. apply Hlt.
      apply list_elem_of_lookup. eauto. }
    eexists. split.
    + apply list_elem_of_fmap. exists i. split; [reflexivity |].
      apply elem_of_seq. lia.
    + unfold outer.select. cbn [outer.X_test_df].
      apply rows_isin_elem. split; [| exact Hr].
      apply list_elem_of_filter. split; [exact Hi |].
      apply elem_of_seq. lia.
Qed.

Lemma outer_loop_partitions_exact_witness :
  let d := outer.data_prep (fun r : example.row => r) fst example_df in
  exists parts,
    outer.loop_partitions example.sensitive_col model_selection.round_robin d
    = Ok parts
    /\ length parts = K
    /\ (forall r, r ∈ outer.X d ->
          exists f, f ∈ parts /\ r ∈ outer.X_test_df f).
Proof.
  intros d.
  assert (H : exists parts,
    outer.loop_partitions example.sensitive_col model_selection.round_robin d
    = Ok parts).
  { vm_compute. eexists. reflexivity. }
  destruct H as (parts & H). exists parts. split; [exact H |].
  pose proof (outer_loop_partitions_exact example.row example.row
                (fun r => r) fst example.sensitive_col
                model_selection.round_robin example_df parts H)
    as (Hlen & _ & _ & Hcover).
  split; [exact Hlen |].
  apply Hcover. intros splitter_y test_folds [= <-].
  split; [rewrite length_fmap, length_seq; reflexivity |].
  apply Forall_fmap, Forall_forall. intros p _.
  apply (Nat.mod_upper_bound p K). unfold K. lia.
Defined.

(** ** Preprocessing of the raw data *)

Section Preprocessing.

Import preprocessing.

Lemma set_where_fmap (f : value -> bool) (v : value) (col : list value) :
  set_where (f <$> col) v col = (fun c => if f c then v else c) <$> col.
Proof.
  unfold set_where. induction col as [|c col IH]; csimpl; [reflexivity |].
  rewrite IH. reflexivity.
Qed.

Lemma set_where_strs (f : string -> bool) (g : string -> string)
    (ss : list string) :
  set_where (f <$> (g <$> ss)) (Str "missing") (Str <$> ss)
  = Str <$> ((fun s => if f (g s) then "missing" else s) <$> ss).
Proof.
  unfold set_where. induction ss as [|s ss IH]; csimpl; [reflexivity |].
  rewrite IH. destruct (f (g s)); reflexivity.
Qed.

Lemma apply_lower_strs (str_lower : string -> string) (ss : list string) :
  apply_lower str_lower (Str <$> ss) = Ok (str_lower <$> ss).
Proof.
  induction ss as [|s ss IH]; csimpl; [reflexivity |].
  rewrite IH. reflexivity.
Qed.

Lemma apply_lower_inv (str_lower : string -> string) (col : list value) :
  forall lowered,
    apply_lower str_lower col = Ok lowered ->
    exists ss, col = Str <$> ss /\ lowered = str_lower <$> ss.
Proof.
  induction col as [|c col IH]; intros lowered H; simpl in H.
  - injection H as <-. exists []. split; reflexivity.
  - destruct c as [s | z |]; try discriminate.
    destruct (apply_lower str_lower col) as [l | e]; [| discriminate].
    cbn [mbind result_bind] in H. injection H as <-.
    destruct (IH l eq_refl) as (ss & -> & ->).
    exists (s :: ss). split; reflexivity.
Qed.

Lemma apply_lower_error (str_lower : string -> string) (col : list value) :
  forall e, apply_lower str_lower col = Error e ->
    e = TypeError /\ exists c, c ∈ col /\ forall s, c <> Str s.
Proof.
  induction col as [|c col IH]; intros e H; simpl in H; [discriminate |].
  destruct c as [s | z |].
  - destruct (apply_lower str_lower col) as [l | e']; [discriminate |].
    cbn [mbind result_bind] in H. injection H as <-.
    destruct (IH e' eq_refl) as (-> & c & Hc & Hns).
    split; [reflexivity |]. exists c. split; [right; exact Hc | exact Hns].
  - injection H as <-. split; [reflexivity |].
    exists (Int z). split; [left | discriminate].
  - injection H as <-. split; [reflexivity |].
    exists Nan. split; [left | discriminate].
Qed.

(** After [fillna] a column is made of strings unless it holds an
    integer. *)
Lemma fillna_strs (col : list value) :
  Forall (fun c => forall z, c <> Int z) col ->
  fillna (Str "missing") col
  = Str <$> ((fun c => match c with Str s => s | _ => "missing" end) <$> col).
Proof.
  unfold fillna. induction 1 as [|c col Hc _ IH]; csimpl; [reflexivity |].
  rewrite IH. destruct c as [s | z |]; try reflexivity.
  exfalso. exact (Hc z eq_refl).
Qed.

Lemma fillna_not_strs (col : list value) (ss : list string) :
  fillna (Str "missing") col = Str <$> ss ->
  Forall (fun c => forall z, c <> Int z) col.
Proof.
  unfold fillna. revert ss.
  induction col as [|c col IH]; intros ss H; [constructor |].
  destruct ss as [|s ss]; [discriminate |].
  csimpl in H. injection H as Hc Hrest.
  constructor; [| exact (IH ss Hrest)].
  intros z ->. discriminate.
Qed.

Lemma flag_body_eq (copy_on_write : bool) (df : gmap string (list value)) (x : string) :
  flag_body copy_on_write df x =
  match df !! x with
  | None => Error KeyError
  | Some col =>
      Ok (if copy_on_write then df
          else <[x := (fun c => if isin EOL_FOC_list c then Int 1 else Int 0)
                      <$> col]> df)
  end.
Proof.
  unfold flag_body, chained_assign, getitem.
  destruct (df !! x) as [col |] eqn:Hx; [| reflexivity].
  destruct copy_on_write.
  - repeat (cbn [mbind result_bind]; rewrite ?Hx). reflexivity.
  - repeat (cbn [mbind result_bind]; rewrite ?Hx, ?lookup_insert_eq).
    rewrite insert_insert_eq. do 2 f_equal.
    rewrite (set_where_fmap (fun c => negb (isin EOL_FOC_list c))).
    rewrite (set_where_fmap (isin EOL_FOC_list)).
    rewrite <- list_fmap_compose. apply list_fmap_ext.
    intros i c _. simpl.
    destruct (isin EOL_FOC_list c) eqn:E; simpl; [rewrite E |]; reflexivity.
Qed.

Lemma cat_body_eq (copy_on_write : bool) (str_lower : string -> string)
    (df : gmap string (list value)) (x : string) :
  cat_body copy_on_write str_lower df x =
  match df !! x with
  | None => Error KeyError
  | Some col =>
      ss ← apply_lower (fun s => s) (fillna (Str "missing") col);
      Ok (<[x := Str <$>
                 ((fun s : string =>
                     if copy_on_write then s
                     else if contains_unknown (str_lower s)
                             || bool_decide (str_lower s = "unk")
                          then "missing" else s) <$> ss)]> df)
  end.
Proof.
  unfold cat_body, chained_assign, getitem.
  destruct (df !! x) as [col |] eqn:Hx; [| reflexivity].
  cbn [mbind result_bind]. rewrite lookup_insert_eq. cbn [mbind result_bind].
  destruct (apply_lower (fun s => s) (fillna (Str "missing") col))
    as [ss | e] eqn:Hss.
  - destruct (apply_lower_inv _ _ _ Hss) as (ss' & Hcol & Hid).
    rewrite list_fmap_id in Hid. subst ss'. rewrite Hcol.
    destruct copy_on_write.
    + repeat (cbn [mbind result_bind];
              rewrite ?lookup_insert_eq, ?apply_lower_strs).
      rewrite list_fmap_id. reflexivity.
    + repeat (cbn [mbind result_bind];
              rewrite ?lookup_insert_eq, ?set_where_strs, ?apply_lower_strs).
      rewrite !insert_insert_eq. do 2 f_equal.
      f_equal. rewrite <- list_fmap_compose. apply list_fmap_ext.
      intros i s _. simpl.
      destruct (contains_unknown (str_lower s)); simpl.
      * destruct (bool_decide (str_lower "missing" = "unk")); reflexivity.
      * reflexivity.
  - destruct (apply_lower_error _ _ _ Hss) as (-> & c & Hc & Hns).
    destruct (apply_lower str_lower (fillna (Str "missing") col))
      as [l | e] eqn:Hl.
    + exfalso. destruct (apply_lower_inv _ _ _ Hl) as (ss' & Hcol & _).
      rewrite Hcol in Hc. apply list_elem_of_fmap in Hc as (s & -> & _).
      exact (Hns s eq_refl).
    + destruct (apply_lower_error _ _ _ Hl) as (-> & _). reflexivity.
Qed.

(** What a run that returns has done to the gmap string (list value). *)
Lemma data_pre_processing_inv (copy_on_write : bool)
    (str_lower : string -> string) (df df' : gmap string (list value)) :
  data_pre_processing copy_on_write str_lower df = Ok df' ->
  exists f1 f2 v p ss_v ss_p,
    df !! "country_current_flag" = Some f1
    /\ df !! "country_previous_flag" = Some f2
    /\ df !! "vessel_type" = Some v
    /\ df !! "port_of_registry" = Some p
    /\ apply_lower (fun s => s) (fillna (Str "missing") v) = Ok ss_v
    /\ apply_lower (fun s => s) (fillna (Str "missing") p) = Ok ss_p
    /\ df' =
       let code := fun c => if isin EOL_FOC_list c then Int 1 else Int 0 in
       let clean := fun s : string =>
         if copy_on_write then s
         else if contains_unknown (str_lower s)
                 || bool_decide (str_lower s = "unk")
              then "missing" else s in
       <["port_of_registry" := Str <$> (clean <$> ss_p)]>
         (<["vessel_type" := Str <$> (clean <$> ss_v)]>
            (if copy_on_write then df
             else <["country_previous_flag" := code <$> f2]>
                    (<["country_current_flag" := code <$> f1]> df))).
Proof.
  unfold data_pre_processing, flag_columns, cat_columns. cbn [for_each].
  rewrite flag_body_eq.
  destruct (df !! "country_current_flag") as [f1 |] eqn:H1; [| discriminate].
  cbn [mbind result_bind]. rewrite flag_body_eq.
  assert (H2' :
    (if copy_on_write then df
     else <["country_current_flag" :=
              (fun c => if isin EOL_FOC_list c then Int 1 else Int 0) <$> f1]>
            df) !! "country_previous_flag" = df !! "country_previous_flag").
  { destruct copy_on_write; [reflexivity |].
    apply lookup_insert_ne. discriminate. }
  rewrite H2'.
  destruct (df !! "country_previous_flag") as [f2 |] eqn:H2; [| discriminate].
  cbn [mbind result_bind]. rewrite cat_body_eq.
  match goal with
  | |- context [?m !! "vessel_type"] => set (df2 := m)
  end.
  assert (Hdf2 :
    df2 = if copy_on_write then df
          else <["country_previous_flag" :=
                   (fun c => if isin EOL_FOC_list c then Int 1 else Int 0)
                   <$> f2]>
                 (<["country_current_flag" :=
                      (fun c => if isin EOL_FOC_list c then Int 1 else Int 0)
                      <$> f1]> df)).
  { unfold df2. destruct copy_on_write; reflexivity. }
  assert (Hother : forall x,
    x <> "country_current_flag" -> x <> "country_previous_flag" ->
    df2 !! x = df !! x).
  { intros x Hx1 Hx2. rewrite Hdf2. destruct copy_on_write; [reflexivity |].
    rewrite !lookup_insert_ne by congruence. reflexivity. }
  cbn [mbind result_bind].
  rewrite (Hother "vessel_type") by discriminate.
  destruct (df !! "vessel_type") as [v |] eqn:H3; [| discriminate].
  destruct (apply_lower (fun s => s) (fillna (Str "missing") v))
    as [ss_v | e] eqn:Hv; [| discriminate].
  cbn [mbind result_bind]. rewrite cat_body_eq.
  rewrite lookup_insert_ne by discriminate.
  rewrite (Hother "port_of_registry") by discriminate.
  destruct (df !! "port_of_registry") as [p |] eqn:H4; [| discriminate].
  destruct (apply_lower (fun s => s) (fillna (Str "missing") p))
    as [ss_p | e] eqn:Hp; [| discriminate].
  cbn [mbind result_bind]. intros [= <-].
  exists f1, f2, v, p, ss_v, ss_p.
  do 4 (split; [reflexivity |]).
  split; [exact Hv |]. split; [exact Hp |].
  cbv zeta. rewrite Hdf2. reflexivity.
Qed.

(** When the run returns. *)
Lemma data_pre_processing_total (copy_on_write : bool)
    (str_lower : string -> string) (df : gmap string (list value)) (f1 f2 v p : list value) :
  df !! "country_current_flag" = Some f1 ->
  df !! "country_previous_flag" = Some f2 ->
  df !! "vessel_type" = Some v ->
  df !! "port_of_registry" = Some p ->
  Forall (fun c => forall z, c <> Int z) v ->
  Forall (fun c => forall z, c <> Int z) p ->
  exists df', data_pre_processing copy_on_write str_lower df = Ok df'.
Proof.
  intros H1 H2 H3 H4 Hv Hp.
  unfold data_pre_processing, flag_columns, cat_columns. cbn [for_each].
  rewrite flag_body_eq, H1. cbn [mbind result_bind].
  rewrite flag_body_eq.
  assert (H2' :
    (if copy_on_write then df
     else <["country_current_flag" :=
              (fun c => if isin EOL_FOC_list c then Int 1 else Int 0) <$> f1]>
            df) !! "country_previous_flag" = Some f2).
  { destruct copy_on_write; [exact H2 |].
    rewrite lookup_insert_ne by discriminate. exact H2. }
  rewrite H2'. cbn [mbind result_bind]. rewrite cat_body_eq.
  match goal with
  | |- context [?m !! "vessel_type"] => set (df2 := m)
  end.
  assert (Hother : forall x,
    x <> "country_current_flag" -> x <> "country_previous_flag" ->
    df2 !! x = df !! x).
  { intros x Hx1 Hx2. unfold df2. destruct copy_on_write; [reflexivity |].
    rewrite !lookup_insert_ne by congruence. reflexivity. }
  rewrite (Hother "vessel_type") by discriminate. rewrite H3.
  rewrite (fillna_strs v Hv), apply_lower_strs. cbn [mbind result_bind].
  rewrite cat_body_eq. rewrite lookup_insert_ne by discriminate.
  rewrite (Hother "port_of_registry") by discriminate. rewrite H4.
  rewrite (fillna_strs p Hp), apply_lower_strs. cbn [mbind result_bind].
  eexists. reflexivity.
Qed.

Lemma for_each_error (P : exn -> Prop)
    (body : gmap string (list value) -> string ->
            result (gmap string (list value))) (xs : list string) :
  (forall df x e, body df x = Error e -> P e) ->
  forall df e, for_each body xs df = Error e -> P e.
Proof.
  intros Hbody. induction xs as [|x xs IH]; intros df e H; simpl in H;
    [discriminate |].
  destruct (body df x) as [df1 | e1] eqn:Hb.
  - exact (IH df1 e H).
  - injection H as <-. exact (Hbody df x e1 Hb).
Qed.

Lemma data_pre_processing_error (copy_on_write : bool)
    (str_lower : string -> string) (df : gmap string (list value)) (e : exn) :
  data_pre_processing copy_on_write str_lower df = Error e ->
  e = KeyError \/ e = TypeError.
Proof.
  unfold data_pre_processing.
  destruct (for_each (flag_body copy_on_write) flag_columns df)
    as [df1 | e1] eqn:Hflags.
  - cbn [mbind result_bind].
    apply (for_each_error (fun e => e = KeyError \/ e = TypeError)).
    intros df0 x e0. rewrite cat_body_eq.
    destruct (df0 !! x) as [col |]; [| intros [= <-]; left; reflexivity].
    destruct (apply_lower (fun s => s) (fillna (Str "missing") col))
      as [ss | e'] eqn:Hss; [discriminate |].
    cbn [mbind result_bind]. intros [= <-].
    right. exact (proj1 (apply_lower_error _ _ _ Hss)).
  - cbn [mbind result_bind]. intros [= <-]. left.
    apply (for_each_error (fun e => e = KeyError) (flag_body copy_on_write)
             flag_columns) with (df := df); [| exact Hflags].
    intros df0 x e0. rewrite flag_body_eq.
    destruct (df0 !! x); [discriminate | intros [= <-]; reflexivity].
Qed.

Lemma cleaned_strs (str_lower : string -> string) (col : list value) :
  Str <$> ((fun s : string =>
              if contains_unknown (str_lower s)
                 || bool_decide (str_lower s = "unk")
              then "missing" else s)
           <$> ((fun c => match c with Str s => s | _ => "missing" end)
                <$> col))
  = (fun c =>
       match c with
       | Str s =>
           Str (if contains_unknown (str_lower s)
                   || bool_decide (str_lower s = "unk")
                then "missing" else s)
       | _ => Str "missing"
       end) <$> col.
Proof.
  rewrite <- !list_fmap_compose. apply list_fmap_ext.
  intros i c Hi. simpl. destruct c as [s | z |]; try reflexivity;
    destruct (_ || _); reflexivity.
Qed.

Lemma Str_fmap_inj (a b : list string) : Str <$> a = Str <$> b -> a = b.
Proof.
  revert b. induction a as [|s a IH]; intros [|t b] H; try discriminate;
    [reflexivity |].
  csimpl in H. injection H as -> H. rewrite (IH b H). reflexivity.
Qed.

Lemma apply_lower_id_strs (col : list value) (ss : list string) :
  apply_lower (fun s => s) (fillna (Str "missing") col) = Ok ss ->
  Forall (fun c => forall z, c <> Int z) col
  /\ ss = (fun c => match c with Str s => s | _ => "missing" end) <$> col.
Proof.
  intros Hss. destruct (apply_lower_inv _ _ _ Hss) as (ss' & Hcol & Hid).
  rewrite list_fmap_id in Hid. subst ss'.
  pose proof (fillna_not_strs col ss Hcol) as Hno. split; [exact Hno |].
  rewrite (fillna_strs col Hno) in Hcol.
  symmetry. exact (Str_fmap_inj _ _ Hcol).
Qed.

Lemma data_pre_processing_in_place (str_lower : string -> string)
    (df df' : gmap string (list value)) :
  data_pre_processing false str_lower df = Ok df' ->
  exists f1 f2 v p,
    (df !! "country_current_flag" = Some f1
     /\ df !! "country_previous_flag" = Some f2
     /\ df !! "vessel_type" = Some v
     /\ df !! "port_of_registry" = Some p)
    /\ (Forall (fun c => forall z, c <> Int z) v
        /\ Forall (fun c => forall z, c <> Int z) p)
    /\ (df' !! "country_current_flag"
        = Some ((fun c => if isin EOL_FOC_list c then Int 1 else Int 0)
                <$> f1)
        /\ df' !! "country_previous_flag"
           = Some ((fun c => if isin EOL_FOC_list c then Int 1 else Int 0)
                   <$> f2))
    /\ (df' !! "vessel_type"
        = Some ((fun c =>
                   match c with
                   | Str s =>
                       Str (if contains_unknown (str_lower s)
                               || bool_decide (str_lower s = "unk")
                            then "missing" else s)
                   | _ => Str "missing"
                   end) <$> v)
        /\ df' !! "port_of_registry"
           = Some ((fun c =>
                      match c with
                      | Str s =>
                          Str (if contains_unknown (str_lower s)
                                  || bool_decide (str_lower s = "unk")
                               then "missing" else s)
                      | _ => Str "missing"
                      end) <$> p))
    /\ (forall x, x ∉ flag_columns ++ cat_columns -> df' !! x = df !! x).
Proof.
  intros H.
  destruct (data_pre_processing_inv false str_lower df df' H)
    as (f1 & f2 & v & p & ss_v & ss_p & H1 & H2 & H3 & H4 & Hv & Hp & ->).
  destruct (apply_lower_id_strs v ss_v Hv) as [Hnv ->].
  destruct (apply_lower_id_strs p ss_p Hp) as [Hnp ->].
  exists f1, f2, v, p. cbv zeta.
  split; [auto |]. split; [auto |].
  rewrite !cleaned_strs.
  split; [| split].
  - split.
    + rewrite !lookup_insert_ne by discriminate.
      apply lookup_insert_eq.
    + rewrite !lookup_insert_ne by discriminate.
      apply lookup_insert_eq.
  - split.
    + rewrite lookup_insert_ne by discriminate. apply lookup_insert_eq.
    + apply lookup_insert_eq.
  - intros x Hx. unfold flag_columns, cat_columns in Hx. simpl in Hx.
    rewrite !not_elem_of_cons in Hx.
    destruct Hx as (Hx1 & Hx2 & Hx3 & Hx4 & _).
    rewrite !lookup_insert_ne by congruence. reflexivity.
Qed.

Lemma data_pre_processing_copy_on_write (str_lower : string -> string)
    (df df' : gmap string (list value)) :
  data_pre_processing true str_lower df = Ok df' ->
  exists v p,
    (df !! "vessel_type" = Some v /\ df !! "port_of_registry" = Some p)
    /\ (df' !! "vessel_type" = Some (fillna (Str "missing") v)
        /\ df' !! "port_of_registry" = Some (fillna (Str "missing") p))
    /\ (forall x, x ∉ cat_columns -> df' !! x = df !! x).
Proof.
  intros H.
  destruct (data_pre_processing_inv true str_lower df df' H)
    as (f1 & f2 & v & p & ss_v & ss_p & H1 & H2 & H3 & H4 & Hv & Hp & ->).
  destruct (apply_lower_id_strs v ss_v Hv) as [Hnv ->].
  destruct (apply_lower_id_strs p ss_p Hp) as [Hnp ->].
  exists v, p. cbv zeta. split; [auto |].
  rewrite !list_fmap_id, <- !fillna_strs by assumption.
  split.
  - split.
    + rewrite lookup_insert_ne by discriminate. apply lookup_insert_eq.
    + apply lookup_insert_eq.
  - intros x Hx. unfold cat_columns in Hx.
    rewrite !not_elem_of_cons in Hx. destruct Hx as (Hx1 & Hx2 & _).
    rewrite !lookup_insert_ne by congruence. reflexivity.
Qed.

End Preprocessing.

(** X18. The flag columns come out binary, and a missing flag counts as
    "not a flag of convenience": with assignments writing through, every
    cell of [country_current_flag] and [country_previous_flag] becomes 1
    if it held one of the eight listed codes and 0 otherwise, NaN
    included. The function is not meant to run twice: a second run finds
    no code any more and returns (it does not fail) with both columns all
    0. Under copy-on-write the two columns are left as they were. *)
Theorem data_pre_processing_flags :
  forall (str_lower : string -> string)
         (df df' : gmap string (list preprocessing.value)) (x : string),
    x ∈ preprocessing.flag_columns ->
    (preprocessing.data_pre_processing false str_lower df = Ok df' ->
     exists col,
       df !! x = Some col
       /\ df' !! x
          = Some ((fun c =>
                     if preprocessing.isin preprocessing.EOL_FOC_list c
                     then preprocessing.Int 1 else preprocessing.Int 0)
                  <$> col)
       /\ exists df'',
            preprocessing.data_pre_processing false str_lower df' = Ok df''
            /\ df'' !! x = Some ((fun _ => preprocessing.Int 0) <$> col))
    /\ (preprocessing.data_pre_processing true str_lower df = Ok df' ->
        df' !! x = df !! x).
Proof.
  intros str_lower df df' x Hx. split.
  - intros H.
    destruct (data_pre_processing_in_place str_lower df df' H)
      as (f1 & f2 & v & p & (H1 & H2 & H3 & H4) & (Hv & Hp) & (F1 & F2)
          & (C1 & C2) & _).
    assert (Hstr : forall col : list preprocessing.value,
      Forall (fun c => forall z, c <> preprocessing.Int z)
        ((fun c =>
            match c with
            | preprocessing.Str s =>
                preprocessing.Str
                  (if preprocessing.contains_unknown (str_lower s)
                      || bool_decide (str_lower s = "unk")
                   then "missing" else s)
            | _ => preprocessing.Str "missing"
            end) <$> col)).
    { intros col. apply Forall_fmap, Forall_forall. intros c _ z. simpl.
      destruct c; discriminate. }
    destruct (data_pre_processing_total false str_lower df' _ _ _ _
                F1 F2 C1 C2 (Hstr v) (Hstr p)) as [df'' H''].
    destruct (data_pre_processing_in_place str_lower df' df'' H'')
      as (g1 & g2 & _ & _ & (G1 & G2 & _ & _) & _ & (F1' & F2') & _ & _).
    assert (Hzero : forall col : list preprocessing.value,
      (fun c => if preprocessing.isin preprocessing.EOL_FOC_list c
                then preprocessing.Int 1 else preprocessing.Int 0)
      <$> ((fun c => if preprocessing.isin preprocessing.EOL_FOC_list c
                     then preprocessing.Int 1 else preprocessing.Int 0)
           <$> col)
      = (fun _ => preprocessing.Int 0) <$> col).
    { intros col. rewrite <- list_fmap_compose. apply list_fmap_ext.
      intros i c _. simpl.
      destruct (preprocessing.isin preprocessing.EOL_FOC_list c);
        reflexivity. }
    rewrite F1 in G1. injection G1 as <-.
    rewrite F2 in G2. injection G2 as <-.
    rewrite Hzero in F1', F2'.
    unfold preprocessing.flag_columns in Hx.
    apply elem_of_cons in Hx as [-> | Hx];
      [| apply elem_of_cons in Hx as [-> | Hx];
         [| by apply not_elem_of_nil in Hx]].
    + exists f1. split; [exact H1 |]. split; [exact F1 |].
      exists df''. split; [exact H'' | exact F1'].
    + exists f2. split; [exact H2 |]. split; [exact F2 |].
      exists df''. split; [exact H'' | exact F2'].
  - intros H.
    destruct (data_pre_processing_copy_on_write str_lower df df' H)
      as (v & p & _ & _ & Hother).
    apply Hother. unfold preprocessing.flag_columns in Hx.
    unfold preprocessing.cat_columns. rewrite !not_elem_of_cons.
    apply elem_of_cons in Hx as [-> | Hx];
      [| apply elem_of_cons in Hx as [-> | Hx];
         [| by apply not_elem_of_nil in Hx]];
      (split; [discriminate | split; [discriminate | apply not_elem_of_nil]]).
Qed.

Lemma data_pre_processing_flags_witness :
  exists df' df'',
    preprocessing.data_pre_processing false preprocessing.ascii_lower
      preprocessing.example_frame = Ok df'
    /\ df' !! "country_current_flag"
       = Some [preprocessing.Int 1; preprocessing.Int 0; preprocessing.Int 0;
               preprocessing.Int 1]
    /\ preprocessing.data_pre_processing false preprocessing.ascii_lower df'
       = Ok df''
    /\ df'' !! "country_current_flag"
       = Some [preprocessing.Int 0; preprocessing.Int 0; preprocessing.Int 0;
               preprocessing.Int 0].
Proof.
  assert (H : exists df',
    preprocessing.data_pre_processing false preprocessing.ascii_lower
      preprocessing.example_frame = Ok df').
  { exists
      (<["country_current_flag" :=
               [preprocessing.Int 1; preprocessing.Int 0; preprocessing.Int 0;
                preprocessing.Int 1]]>
            (<["country_previous_flag" :=
                 [preprocessing.Int 0; preprocessing.Int 1;
                  preprocessing.Int 0; preprocessing.Int 0]]>
            (<["vessel_type" :=
                 [preprocessing.Str "Tanker"; preprocessing.Str "missing";
                  preprocessing.Str "missing"; preprocessing.Str "missing"]]>
            (<["port_of_registry" :=
                 [preprocessing.Str "Monrovia"; preprocessing.Str "missing";
                  preprocessing.Str "missing"; preprocessing.Str "Funky"]]>
               preprocessing.example_frame)))).
    vm_compute. reflexivity. }
  destruct H as (df' & H).
  destruct (proj1 (data_pre_processing_flags preprocessing.ascii_lower
                     preprocessing.example_frame df' "country_current_flag"
                     ltac:(left)) H)
    as (col & Hcol & Hdf' & df'' & H'' & Hdf'').
  assert (Hc : col = [preprocessing.Str "KNA"; preprocessing.Str "NLD";
                      preprocessing.Nan; preprocessing.Str "SLE"]).
  { vm_compute in Hcol. injection Hcol as <-. reflexivity. }
  subst col. exists df', df''.
  split; [exact H |]. split; [exact Hdf' |]. split; [exact H'' | exact Hdf''].
Defined.

(** X19. The categorical columns come out without NaN and cleaned once
    and for all: with assignments writing through, every cell of
    [vessel_type] and [port_of_registry] that was NaN, or whose lower-cased
    text contains "unknown" or "unspecified" or is "unk", becomes
    "missing", and every other cell keeps its text (also one that merely
    contains "unk"); a second run changes nothing in these columns. A run
    that returns has met no integer cell there. Under copy-on-write only
    the NaN cells are replaced. *)
Theorem data_pre_processing_categories :
  forall (str_lower : string -> string)
         (df df' : gmap string (list preprocessing.value)) (x : string),
    x ∈ preprocessing.cat_columns ->
    (preprocessing.data_pre_processing false str_lower df = Ok df' ->
     exists col,
       df !! x = Some col
       /\ Forall (fun c => forall z, c <> preprocessing.Int z) col
       /\ df' !! x
          = Some ((fun c =>
                     match c with
                     | preprocessing.Str s =>
                         preprocessing.Str
                           (if preprocessing.contains_unknown (str_lower s)
                               || bool_decide (str_lower s = "unk")
                            then "missing" else s)
                     | _ => preprocessing.Str "missing"
                     end) <$> col)
       /\ exists df'',
            preprocessing.data_pre_processing false str_lower df' = Ok df''
            /\ df'' !! x = df' !! x)
    /\ (preprocessing.data_pre_processing true str_lower df = Ok df' ->
        exists col,
          df !! x = Some col
          /\ df' !! x
             = Some (preprocessing.fillna (preprocessing.Str "missing") col)).
Proof.
  intros str_lower df df' x Hx. split.
  - intros H.
    destruct (data_pre_processing_in_place str_lower df df' H)
      as (f1 & f2 & v & p & (H1 & H2 & H3 & H4) & (Hv & Hp) & (F1 & F2)
          & (C1 & C2) & _).
    assert (Hstr : forall col : list preprocessing.value,
      Forall (fun c => forall z, c <> preprocessing.Int z)
        ((fun c =>
            match c with
            | preprocessing.Str s =>
                preprocessing.Str
                  (if preprocessing.contains_unknown (str_lower s)
                      || bool_decide (str_lower s = "unk")
                   then "missing" else s)
            | _ => preprocessing.Str "missing"
            end) <$> col)).
    { intros col. apply Forall_fmap, Forall_forall. intros c _ z. simpl.
      destruct c; discriminate. }
    destruct (data_pre_processing_total false str_lower df' _ _ _ _
                F1 F2 C1 C2 (Hstr v) (Hstr p)) as [df'' H''].
    destruct (data_pre_processing_in_place str_lower df' df'' H'')
      as (_ & _ & w & q & (_ & _ & G3 & G4) & _ & _ & (C1' & C2') & _).
    assert (Hidem : forall col : list preprocessing.value,
      (fun c =>
         match c with
         | preprocessing.Str s =>
             preprocessing.Str
               (if preprocessing.contains_unknown (str_lower s)
                   || bool_decide (str_lower s = "unk")
                then "missing" else s)
         | _ => preprocessing.Str "missing"
         end)
      <$> ((fun c =>
              match c with
              | preprocessing.Str s =>
                  preprocessing.Str
                    (if preprocessing.contains_unknown (str_lower s)
                        || bool_decide (str_lower s = "unk")
                     then "missing" else s)
              | _ => preprocessing.Str "missing"
              end) <$> col)
      = (fun c =>
           match c with
           | preprocessing.Str s =>
               preprocessing.Str
                 (if preprocessing.contains_unknown (str_lower s)
                     || bool_decide (str_lower s = "unk")
                  then "missing" else s)
           | _ => preprocessing.Str "missing"
           end) <$> col).
    { intros col. rewrite <- list_fmap_compose. apply list_fmap_ext.
      intros i c _. cbn [compose]. destruct c as [s | z |].
      - destruct (preprocessing.contains_unknown (str_lower s)
                  || bool_decide (str_lower s = "unk")) eqn:E;
          cbn beta iota.
        + destruct (preprocessing.contains_unknown (str_lower "missing")
                    || bool_decide (str_lower "missing" = "unk"));
            reflexivity.
        + rewrite E. reflexivity.
      - cbn beta iota.
        destruct (preprocessing.contains_unknown (str_lower "missing")
                  || bool_decide (str_lower "missing" = "unk"));
          reflexivity.
      - cbn beta iota.
        destruct (preprocessing.contains_unknown (str_lower "missing")
                  || bool_decide (str_lower "missing" = "unk"));
          reflexivity. }
    rewrite C1 in G3. injection G3 as <-.
    rewrite C2 in G4. injection G4 as <-.
    rewrite Hidem in C1', C2'.
    unfold preprocessing.cat_columns in Hx.
    apply elem_of_cons in Hx as [-> | Hx];
      [| apply elem_of_cons in Hx as [-> | Hx];
         [| by apply not_elem_of_nil in Hx]].
    + exists v. split; [exact H3 |]. split; [exact Hv |].
      split; [exact C1 |]. exists df''. split; [exact H'' |].
      rewrite C1, C1'. reflexivity.
    + exists p. split; [exact H4 |]. split; [exact Hp |].
      split; [exact C2 |]. exists df''. split; [exact H'' |].
      rewrite C2, C2'. reflexivity.
  - intros H.
    destruct (data_pre_processing_copy_on_write str_lower df df' H)
      as (v & p & (H3 & H4) & (C1 & C2) & _).
    unfold preprocessing.cat_columns in Hx.
    apply elem_of_cons in Hx as [-> | Hx];
      [| apply elem_of_cons in Hx as [-> | Hx];
         [| by apply not_elem_of_nil in Hx]].
    + exists v. split; [exact H3 | exact C1].
    + exists p. split; [exact H4 | exact C2].
Qed.

Lemma data_pre_processing_categories_witness :
  exists df',
    preprocessing.data_pre_processing false preprocessing.ascii_lower
      preprocessing.example_frame = Ok df'
    /\ df' !! "port_of_registry"
       = Some [preprocessing.Str "Monrovia"; preprocessing.Str "missing";
               preprocessing.Str "missing"; preprocessing.Str "Funky"].
Proof.
  assert (H : exists df',
    preprocessing.data_pre_processing false preprocessing.ascii_lower
      preprocessing.example_frame = Ok df').
  { exists
      (<["country_current_flag" :=
               [preprocessing.Int 1; preprocessing.Int 0; preprocessing.Int 0;
                preprocessing.Int 1]]>
            (<["country_previous_flag" :=
                 [preprocessing.Int 0; preprocessing.Int 1;
                  preprocessing.Int 0; preprocessing.Int 0]]>
            (<["vessel_type" :=
                 [preprocessing.Str "Tanker"; preprocessing.Str "missing";
                  preprocessing.Str "missing"; preprocessing.Str "missing"]]>
            (<["port_of_registry" :=
                 [preprocessing.Str "Monrovia"; preprocessing.Str "missing";
                  preprocessing.Str "missing"; preprocessing.Str "Funky"]]>
               preprocessing.example_frame)))).
    vm_compute. reflexivity. }
  destruct H as (df' & H).
  destruct (proj1 (data_pre_processing_categories preprocessing.ascii_lower
                     preprocessing.example_frame df' "port_of_registry"
                     ltac:(right; left)) H)
    as (col & Hcol & _ & Hdf' & _).
  assert (Hc : col = [preprocessing.Str "Monrovia";
                      preprocessing.Str "Not Unspecified";
                      preprocessing.Str "unk"; preprocessing.Str "Funky"]).
  { vm_compute in Hcol. injection Hcol as <-. reflexivity. }
  subst col. exists df'. split; [exact H | exact Hdf'].
Defined.

(** X20. When preprocessing returns, and what it leaves alone. In either
    mode the function returns exactly when the data has the two flag
    columns and the two categorical columns and no categorical cell is an
    integer ([str.lower] takes strings only); it fails with a [KeyError]
    or a [TypeError] and with nothing else; and a run that returns has
    left every other column as it was. *)
Theorem data_pre_processing_returns :
  forall (copy_on_write : bool) (str_lower : string -> string)
         (df : gmap string (list preprocessing.value)),
    ((exists df',
        preprocessing.data_pre_processing copy_on_write str_lower df = Ok df')
     <->
     (forall x,
        x ∈ preprocessing.flag_columns ++ preprocessing.cat_columns ->
        is_Some (df !! x))
     /\ (forall x col,
           x ∈ preprocessing.cat_columns -> df !! x = Some col ->
           Forall (fun c => forall z, c <> preprocessing.Int z) col))
    /\ (forall e,
          preprocessing.data_pre_processing copy_on_write str_lower df
          = Error e ->
          e = KeyError \/ e = TypeError)
    /\ (forall df' x,
          preprocessing.data_pre_processing copy_on_write str_lower df
          = Ok df' ->
          x ∉ preprocessing.flag_columns ++ preprocessing.cat_columns ->
          df' !! x = df !! x).
Proof.
  intros copy_on_write str_lower df. split; [| split].
  - split.
    + intros [df' H].
      destruct (data_pre_processing_inv copy_on_write str_lower df df' H)
        as (f1 & f2 & v & p & ss_v & ss_p & H1 & H2 & H3 & H4 & Hv & Hp & _).
      destruct (apply_lower_id_strs v ss_v Hv) as [Hnv _].
      destruct (apply_lower_id_strs p ss_p Hp) as [Hnp _].
      split.
      * intros x Hx.
        unfold preprocessing.flag_columns, preprocessing.cat_columns in Hx.
        simpl in Hx.
        repeat (apply elem_of_cons in Hx as [-> | Hx]; [eauto |]).
        by apply not_elem_of_nil in Hx.
      * intros x col Hx Hcol. unfold preprocessing.cat_columns in Hx.
        apply elem_of_cons in Hx as [-> | Hx];
          [| apply elem_of_cons in Hx as [-> | Hx];
             [| by apply not_elem_of_nil in Hx]]; congruence.
    + intros [Hcols Hint].
      destruct (Hcols "country_current_flag") as [f1 H1];
        [left |].
      destruct (Hcols "country_previous_flag") as [f2 H2];
        [right; left |].
      destruct (Hcols "vessel_type") as [v H3];
        [right; right; left |].
      destruct (Hcols "port_of_registry") as [p H4];
        [right; right; right; left |].
      apply (data_pre_processing_total copy_on_write str_lower df f1 f2 v p
               H1 H2 H3 H4).
      * apply (Hint "vessel_type" v); [left | exact H3].
      * apply (Hint "port_of_registry" p); [right; left | exact H4].
  - intros e. apply data_pre_processing_error.
  - intros df' x H Hx. destruct copy_on_write.
    + destruct (data_pre_processing_copy_on_write str_lower df df' H)
        as (v & p & _ & _ & Hother).
      apply Hother. intros Hin. apply Hx. apply elem_of_app. right. exact Hin.
    + destruct (data_pre_processing_in_place str_lower df df' H)
        as (f1 & f2 & v & p & _ & _ & _ & _ & Hother).
      apply Hother. exact Hx.
Qed.

Lemma data_pre_processing_returns_witness :
  (exists df',
     preprocessing.data_pre_processing false preprocessing.ascii_lower
       preprocessing.example_frame = Ok df'
     /\ df' !! "speed" = preprocessing.example_frame !! "speed")
  /\ preprocessing.data_pre_processing false preprocessing.ascii_lower
       (delete "vessel_type" preprocessing.example_frame)
     = Error KeyError.
Proof.
  split.
  - assert (H : exists df',
      preprocessing.data_pre_processing false preprocessing.ascii_lower
        preprocessing.example_frame = Ok df').
    { exists
      (<["country_current_flag" :=
               [preprocessing.Int 1; preprocessing.Int 0; preprocessing.Int 0;
                preprocessing.Int 1]]>
            (<["country_previous_flag" :=
                 [preprocessing.Int 0; preprocessing.Int 1;
                  preprocessing.Int 0; preprocessing.Int 0]]>
            (<["vessel_type" :=
                 [preprocessing.Str "Tanker"; preprocessing.Str "missing";
                  preprocessing.Str "missing"; preprocessing.Str "missing"]]>
            (<["port_of_registry" :=
                 [preprocessing.Str "Monrovia"; preprocessing.Str "missing";
                  preprocessing.Str "missing"; preprocessing.Str "Funky"]]>
               preprocessing.example_frame)))).
    vm_compute. reflexivity. }
    destruct H as (df' & H). exists df'. split; [exact H |].
    apply (proj2 (proj2 (data_pre_processing_returns false
                           preprocessing.ascii_lower
                           preprocessing.example_frame)) df' "speed" H).
    unfold preprocessing.flag_columns, preprocessing.cat_columns. simpl.
    rewrite !not_elem_of_cons.
    repeat (split; [discriminate |]). apply not_elem_of_nil.
  - vm_compute. reflexivity.
Defined.

(** ** Preprocessing of the adult data *)

Lemma fillna_idempotent (v : preprocessing.value)
    (col : list preprocessing.value) :
  v <> preprocessing.Nan ->
  preprocessing.fillna v (preprocessing.fillna v col) = preprocessing.fillna v col.
Proof.
  intros Hv. unfold preprocessing.fillna. rewrite <- list_fmap_compose.
  apply list_fmap_ext. intros i c _. cbn [compose].
  destruct c; try reflexivity. destruct v; congruence.
Qed.

Lemma adult_gender_body_eq (copy_on_write : bool)
    (df : gmap string (list preprocessing.value)) :
  adult.gender_body copy_on_write df =
  match df !! "gender" with
  | None => Error KeyError
  | Some col =>
      Ok (if copy_on_write then df
          else <["gender" :=
                   (fun c => if adult.eq_str "Male" c then preprocessing.Int 0
                             else if adult.eq_str "Female" c
                                  then preprocessing.Int 1 else c) <$> col]>
                 df)
  end.
Proof.
  unfold adult.gender_body, preprocessing.chained_assign, preprocessing.getitem.
  destruct (df !! "gender") as [col |] eqn:Hx; [| reflexivity].
  destruct copy_on_write.
  - repeat (cbn [mbind result_bind]; rewrite ?Hx). reflexivity.
  - repeat (cbn [mbind result_bind]; rewrite ?Hx, ?lookup_insert_eq).
    rewrite insert_insert_eq. do 2 f_equal.
    rewrite (set_where_fmap (adult.eq_str "Male")).
    rewrite (set_where_fmap (adult.eq_str "Female")).
    rewrite <- list_fmap_compose. apply list_fmap_ext.
    intros i c _. cbn [compose].
    destruct (adult.eq_str "Male" c) eqn:E; reflexivity.
Qed.

(** The loop that fills the missing categories, over any list of labels. *)
Lemma adult_cat_loop (xs : list string) :
  forall df df' : gmap string (list preprocessing.value),
    preprocessing.for_each adult.cat_body xs df = Ok df' ->
    (forall x, x ∈ xs -> is_Some (df !! x))
    /\ (forall y,
          df' !! y =
          if bool_decide (y ∈ xs)
          then preprocessing.fillna (preprocessing.Str "missing") <$> df !! y
          else df !! y).
Proof.
  induction xs as [|x xs IH]; intros df df' H; simpl in H.
  - injection H as <-. split.
    + intros x Hx. by apply not_elem_of_nil in Hx.
    + intros y. rewrite bool_decide_eq_false_2 by apply not_elem_of_nil.
      reflexivity.
  - unfold adult.cat_body, preprocessing.getitem in H.
    destruct (df !! x) as [col |] eqn:Hx; [| discriminate].
    cbn [mbind result_bind] in H.
    destruct (IH _ _ H) as [Hsome Hlook]. split.
    + intros x' Hx'. apply elem_of_cons in Hx' as [-> | Hx']; [eauto |].
      specialize (Hsome x' Hx').
      destruct (decide (x = x')) as [<- | Hne]; [eauto |].
      rewrite lookup_insert_ne in Hsome by exact Hne. exact Hsome.
    + intros y. rewrite (Hlook y).
      destruct (decide (y = x)) as [-> | Hne].
      * rewrite lookup_insert_eq, Hx.
        rewrite (bool_decide_eq_true_2 (x ∈ x :: xs)) by left.
        case_bool_decide; [| reflexivity].
        csimpl. rewrite fillna_idempotent by discriminate. reflexivity.
      * rewrite lookup_insert_ne by congruence.
        case_bool_decide as Hy.
        -- rewrite bool_decide_eq_true_2 by (right; exact Hy). reflexivity.
        -- rewrite bool_decide_eq_false_2; [reflexivity |].
           intros Hin. apply elem_of_cons in Hin as [-> | Hin]; contradiction.
Qed.

Lemma adult_cat_loop_total (xs : list string) :
  forall df : gmap string (list preprocessing.value),
    (forall x, x ∈ xs -> is_Some (df !! x)) ->
    exists df', preprocessing.for_each adult.cat_body xs df = Ok df'.
Proof.
  induction xs as [|x xs IH]; intros df Hsome; cbn [preprocessing.for_each].
  - eexists. reflexivity.
  - destruct (Hsome x ltac:(left)) as [col Hx].
    assert (Hbody : adult.cat_body df x
                    = Ok (<[x := preprocessing.fillna
                                   (preprocessing.Str "missing") col]> df)).
    { unfold adult.cat_body, preprocessing.getitem. rewrite Hx. reflexivity. }
    rewrite Hbody. cbn [mbind result_bind]. apply IH.
    intros x' Hx'. destruct (decide (x = x')) as [<- | Hne].
    + rewrite lookup_insert_eq. eauto.
    + rewrite lookup_insert_ne by exact Hne. apply Hsome. right. exact Hx'.
Qed.

Lemma adult_gender_not_categorical : "gender" ∉ adult.cat_columns.
Proof.
  unfold adult.cat_columns. rewrite !not_elem_of_cons.
  repeat (split; [discriminate |]). apply not_elem_of_nil.
Qed.

Lemma adult_pre_processing_inv
    (df0 df' : gmap string (list preprocessing.value)) :
  adult.data_pre_processing false df0 = Ok df' ->
  exists col,
    df0 !! "gender" = Some col
    /\ (forall x, x ∈ adult.cat_columns -> is_Some (df0 !! x))
    /\ forall y,
         df' !! y =
         if bool_decide (y ∈ adult.cat_columns)
         then preprocessing.fillna (preprocessing.Str "missing") <$> df0 !! y
         else if bool_decide (y = "gender")
              then Some ((fun c =>
                            if adult.eq_str "Male" c
                            then preprocessing.Int 0
                            else if adult.eq_str "Female" c
                                 then preprocessing.Int 1 else c)
                         <$> col)
              else df0 !! y.
Proof.
  pose proof adult_gender_not_categorical as Hgc.
  intros H. unfold adult.data_pre_processing in H.
  rewrite adult_gender_body_eq in H.
  destruct (df0 !! "gender") as [col |] eqn:Hg; [| discriminate].
  cbn [mbind result_bind] in H.
  destruct (adult_cat_loop _ _ _ H) as [Hsome Hlook].
  exists col. split; [reflexivity |]. split.
  - intros x Hx. specialize (Hsome x Hx).
    rewrite lookup_insert_ne in Hsome; [exact Hsome |].
    intros <-. contradiction.
  - intros y. rewrite (Hlook y).
    destruct (decide (y = "gender")) as [-> | Hne].
    + rewrite (bool_decide_eq_false_2 _ Hgc).
      rewrite bool_decide_eq_true_2 by reflexivity.
      apply lookup_insert_eq.
    + rewrite lookup_insert_ne by congruence.
      rewrite (bool_decide_eq_false_2 (y = "gender")) by exact Hne.
      reflexivity.
Qed.

(** X21. The adult script's preprocessing recodes two strings and
    nothing else: with assignments writing through, a gender cell becomes
    0 for "Male" and 1 for "Female" and any other cell (another spelling,
    NaN) stays as it is, so the column is binary only if the data holds no
    other value; the five categorical columns get "missing" for NaN, and
    all other columns are untouched. The function returns exactly when
    these six columns exist, its only error being a [KeyError], and unlike
    the ship-breaking scripts' version it can be run again without effect:
    on its own output it returns that output. *)
Theorem adult_pre_processing_recodes_gender :
  forall (df : gmap string (list preprocessing.value)),
    ((exists df', adult.data_pre_processing false df = Ok df')
     <-> (forall x, x ∈ "gender" :: adult.cat_columns -> is_Some (df !! x)))
    /\ (forall e, adult.data_pre_processing false df = Error e ->
                  e = KeyError)
    /\ (forall df',
          adult.data_pre_processing false df = Ok df' ->
          (exists col,
             df !! "gender" = Some col
             /\ df' !! "gender"
                = Some ((fun c =>
                           if adult.eq_str "Male" c then preprocessing.Int 0
                           else if adult.eq_str "Female" c
                                then preprocessing.Int 1 else c) <$> col))
          /\ (forall x, x ∈ adult.cat_columns ->
                exists col,
                  df !! x = Some col
                  /\ df' !! x
                     = Some (preprocessing.fillna
                               (preprocessing.Str "missing") col))
          /\ (forall x, x ∉ "gender" :: adult.cat_columns ->
                df' !! x = df !! x)
          /\ adult.data_pre_processing false df' = Ok df').
Proof.
  intros df.
  pose proof adult_gender_not_categorical as Hgc.
  pose proof adult_pre_processing_inv as Hinv.
  split; [| split].
  - split.
    + intros [df' H]. destruct (Hinv df df' H) as (col & Hg & Hsome & _).
      intros x Hx. apply elem_of_cons in Hx as [-> | Hx]; [eauto |].
      exact (Hsome x Hx).
    + intros Hsome. unfold adult.data_pre_processing.
      rewrite adult_gender_body_eq.
      destruct (Hsome "gender" ltac:(left)) as [col Hg]. rewrite Hg.
      cbn [mbind result_bind]. apply adult_cat_loop_total.
      intros x Hx. rewrite lookup_insert_ne.
      * apply Hsome. right. exact Hx.
      * intros <-. contradiction.
  - intros e. unfold adult.data_pre_processing.
    rewrite adult_gender_body_eq.
    destruct (df !! "gender") as [col |]; [| intros [= <-]; reflexivity].
    cbn [mbind result_bind].
    apply (for_each_error (fun e => e = KeyError)).
    intros df0 x e0. unfold adult.cat_body, preprocessing.getitem.
    destruct (df0 !! x); [discriminate | intros [= <-]; reflexivity].
  - intros df' H. destruct (Hinv df df' H) as (col & Hg & Hsome & Hlook).
    split; [| split; [| split]].
    + exists col. split; [exact Hg |]. rewrite (Hlook "gender").
      rewrite (bool_decide_eq_false_2 _ Hgc).
      rewrite bool_decide_eq_true_2 by reflexivity. reflexivity.
    + intros x Hx. destruct (Hsome x Hx) as [c Hc]. exists c.
      split; [exact Hc |]. rewrite (Hlook x).
      rewrite bool_decide_eq_true_2 by exact Hx. rewrite Hc. reflexivity.
    + intros x Hx. apply not_elem_of_cons in Hx as [Hx1 Hx2].
      rewrite (Hlook x). rewrite (bool_decide_eq_false_2 _ Hx2).
      rewrite (bool_decide_eq_false_2 _ Hx1). reflexivity.
    + assert (Hagain : exists df'', adult.data_pre_processing false df'
                                    = Ok df'').
      { unfold adult.data_pre_processing. rewrite adult_gender_body_eq.
        rewrite (Hlook "gender"), (bool_decide_eq_false_2 _ Hgc).
        rewrite bool_decide_eq_true_2 by reflexivity.
        cbn [mbind result_bind]. apply adult_cat_loop_total.
        intros x Hx. rewrite lookup_insert_ne by (intros <-; contradiction).
        rewrite (Hlook x), bool_decide_eq_true_2 by exact Hx.
        destruct (Hsome x Hx) as [c ->]. eauto. }
      destruct Hagain as [df'' H''].
      rewrite H''. f_equal. apply map_eq. intros y.
      destruct (Hinv df' df'' H'') as (col' & Hg' & _ & Hlook').
      rewrite (Hlook' y).
      rewrite (Hlook "gender"), (bool_decide_eq_false_2 _ Hgc) in Hg'.
      rewrite bool_decide_eq_true_2 in Hg' by reflexivity.
      injection Hg' as <-.
      rewrite (Hlook y).
      case_bool_decide as Hy.
      * destruct (df !! y) as [c |]; [| reflexivity]. csimpl.
        rewrite fillna_idempotent by discriminate. reflexivity.
      * case_bool_decide as Hy'; [| reflexivity].
        f_equal. rewrite <- list_fmap_compose. apply list_fmap_ext.
        intros i c _. cbn [compose].
        destruct (adult.eq_str "Male" c) eqn:E1; [reflexivity |].
        destruct (adult.eq_str "Female" c) eqn:E2; [reflexivity |].
        rewrite E1, E2. reflexivity.
Qed.

Lemma adult_pre_processing_recodes_gender_witness :
  exists df',
    adult.data_pre_processing false adult.example_frame = Ok df'
    /\ df' !! "gender"
       = Some [preprocessing.Int 0; preprocessing.Int 1;
               preprocessing.Str "male"; preprocessing.Nan]
    /\ adult.data_pre_processing false df' = Ok df'.
Proof.
  assert (H : exists df',
    adult.data_pre_processing false adult.example_frame = Ok df').
  { exists
      (<["gender" :=
               [preprocessing.Int 0; preprocessing.Int 1;
                preprocessing.Str "male"; preprocessing.Nan]]>
            (<["workclass" :=
                 [preprocessing.Str "Private"; preprocessing.Str "missing";
                  preprocessing.Str "State-gov"; preprocessing.Str "missing"]]>
            (<["occupation" := replicate 4 (preprocessing.Str "missing")]>
               adult.example_frame))).
    vm_compute. reflexivity. }
  destruct H as (df' & H).
  destruct (proj2 (proj2 (adult_pre_processing_recodes_gender
                            adult.example_frame)) df' H)
    as ((col & Hcol & Hdf') & _ & _ & Hagain).
  assert (Hc : col = [preprocessing.Str "Male"; preprocessing.Str "Female";
                      preprocessing.Str "male"; preprocessing.Nan]).
  { vm_compute in Hcol. injection Hcol as <-. reflexivity. }
  subst col. exists df'.
  split; [exact H |]. split; [exact Hdf' | exact Hagain].
Defined.
